(** * Window covering controller and CO2 sensor cycle of the Zigbee demo sketches

    Shallow embedding of the Demo1 window-covering sketch (the position
    controller: [moveCoversLift], [moveCoversTilt], the Zigbee callbacks and
    the body of [loop]) and of [meausureAndReport] of the Demo3 sketch.

    Conventions of the embedding.
    - The sketch's global variables are the fields of [State]; every C
      integer is a [Z] and each narrowing assignment is written out with
      [to_uint8], [to_uint16] or [to_int16].  [int] expressions of the step
      loops stay between [-1] and [65536], so they are plain [Z].
    - Calls to the collaborators (LED pin, display, Zigbee endpoint, serial
      console, [delay]) are recorded, in program order, in a [Trace].
    - The Zigbee callbacks run while the Arduino task sleeps in [delay]: an
      environment [Env] gives, for the n-th [delay] of the step loops, the
      batch of callbacks delivered during it; a clock counts these delays.
      The waits of the button block of [loop] are recorded in the trace; a
      callback delivered during them is part of the state the iteration is
      entered with.
    - The step loops take a [fuel] bound on their number of iterations;
      [None] only means that the fuel ran out. *)

From Stdlib Require Import ZArith List Bool Lia FinFun.
Import ListNotations.
Open Scope Z_scope.

Module Covering.

(** ** Constants of the sketch *)

Definition MAX_LIFT : Z := 9.
Definition MIN_LIFT : Z := 0.
Definition MAX_TILT : Z := 5.
Definition MIN_TILT : Z := 0.
Definition ledPin : Z := 7.

(** ** C integer conversions *)

Definition to_uint8 (z : Z) : Z := z mod 256.
Definition to_uint16 (z : Z) : Z := z mod 65536.
Definition to_int16 (z : Z) : Z := (z + 32768) mod 65536 - 32768.

(** ** Global variables *)

Record State : Type := mkState {
  currentLift : Z;            (* uint16_t *)
  currentLiftPercentage : Z;  (* uint8_t *)
  currentTilt : Z;            (* uint16_t *)
  currentTiltPercentage : Z;  (* uint8_t *)
  stop : bool;
  moving : bool;
  nextLift : Z;               (* int16_t, -1 when nothing is pending *)
  nextTilt : Z                (* int16_t, -1 when nothing is pending *)
}.

Definition initial : State :=
  mkState MAX_LIFT 100 MAX_TILT 100 false false (-1) (-1).

Definition set_currentLift (v : Z) (st : State) : State :=
  mkState v (currentLiftPercentage st) (currentTilt st)
          (currentTiltPercentage st) (stop st) (moving st)
          (nextLift st) (nextTilt st).

Definition set_currentLiftPercentage (v : Z) (st : State) : State :=
  mkState (currentLift st) v (currentTilt st)
          (currentTiltPercentage st) (stop st) (moving st)
          (nextLift st) (nextTilt st).

Definition set_currentTilt (v : Z) (st : State) : State :=
  mkState (currentLift st) (currentLiftPercentage st) v
          (currentTiltPercentage st) (stop st) (moving st)
          (nextLift st) (nextTilt st).

Definition set_currentTiltPercentage (v : Z) (st : State) : State :=
  mkState (currentLift st) (currentLiftPercentage st) (currentTilt st)
          v (stop st) (moving st) (nextLift st) (nextTilt st).

Definition set_stop (b : bool) (st : State) : State :=
  mkState (currentLift st) (currentLiftPercentage st) (currentTilt st)
          (currentTiltPercentage st) b (moving st)
          (nextLift st) (nextTilt st).

Definition set_moving (b : bool) (st : State) : State :=
  mkState (currentLift st) (currentLiftPercentage st) (currentTilt st)
          (currentTiltPercentage st) (stop st) b
          (nextLift st) (nextTilt st).

Definition set_nextLift (v : Z) (st : State) : State :=
  mkState (currentLift st) (currentLiftPercentage st) (currentTilt st)
          (currentTiltPercentage st) (stop st) (moving st)
          v (nextTilt st).

Definition set_nextTilt (v : Z) (st : State) : State :=
  mkState (currentLift st) (currentLiftPercentage st) (currentTilt st)
          (currentTiltPercentage st) (stop st) (moving st)
          (nextLift st) v.

(** ** Observable calls *)

Inductive Event : Type :=
| DigitalWrite (pin : Z) (level : bool)
| DrawBlinds (lift tilt : Z)          (* drawBlinds() reads both positions *)
| SetLiftPercentage (p : Z)           (* zbCovering.setLiftPercentage *)
| SetTiltPercentage (p : Z)           (* zbCovering.setTiltPercentage *)
| LogLifting (v : Z)                  (* "Lifting to %d" *)
| LogTilting (v : Z)                  (* "Tilting to %d" *)
| LogOpening
| LogClosing
| LogRequestedLift (position percentage : Z)
| LogRequestedTilt (position percentage : Z)
| LogStopping
| LogFactoryReset
| FactoryReset
| Delay (ms : Z).

Definition Trace : Type := list Event.

(** ** Zigbee callbacks *)

Definition fullOpen (st : State) : State * Trace :=
  (set_nextLift (to_int16 MIN_LIFT) st, [LogOpening]).

Definition fullClose (st : State) : State * Trace :=
  (set_nextLift (to_int16 MAX_LIFT) st, [LogClosing]).

Definition goToLiftPercentage (liftPercentage : Z) (st : State)
  : State * Trace :=
  let lift_position := to_uint16 (Z.quot (liftPercentage * MAX_LIFT) 100) in
  (set_nextLift (to_int16 lift_position) st,
   [LogRequestedLift lift_position liftPercentage]).

Definition goToTiltPercentage (tiltPercentage : Z) (st : State)
  : State * Trace :=
  let tilt_position := to_uint16 (Z.quot (tiltPercentage * MAX_TILT) 100) in
  (set_nextTilt (to_int16 tilt_position) st,
   [LogRequestedTilt tilt_position tiltPercentage]).

Definition stopMotor (st : State) : State * Trace :=
  if moving st then (set_stop true st, [LogStopping]) else (st, []).

(** The commands the Zigbee endpoint can deliver; a percentage argument is a
    [uint8_t] at the call. *)
Inductive Callback : Type :=
| OnOpen
| OnClose
| OnGoToLiftPercentage (percent : Z)
| OnGoToTiltPercentage (percent : Z)
| OnStop.

Definition dispatch (c : Callback) (st : State) : State * Trace :=
  match c with
  | OnOpen => fullOpen st
  | OnClose => fullClose st
  | OnGoToLiftPercentage p => goToLiftPercentage (to_uint8 p) st
  | OnGoToTiltPercentage p => goToTiltPercentage (to_uint8 p) st
  | OnStop => stopMotor st
  end.

Fixpoint deliver (cs : list Callback) (st : State) : State * Trace :=
  match cs with
  | [] => (st, [])
  | c :: cs' =>
      let '(st1, tr1) := dispatch c st in
      let '(st2, tr2) := deliver cs' st1 in
      (st2, tr1 ++ tr2)
  end.

(** The batch of callbacks delivered during each [delay] of a step loop,
    indexed by the number of such delays executed so far. *)
Definition Env : Type := nat -> list Callback.

Definition Clock : Type := nat.

Section Controller.

Variable env : Env.

Definition delay (ms : Z) (st : State) (clock : Clock)
  : State * Trace * Clock :=
  let '(st', tr) := deliver (env clock) st in (st', Delay ms :: tr, S clock).

(** ** The step loops *)

(** The [for] loop of [moveCoversLift], entered with loop variable [i]. *)
Fixpoint liftLoop (fuel : nat) (step lift_position i : Z)
                  (st : State) (clock : Clock)
  : option (State * Trace * Clock) :=
  if i =? lift_position + step then Some (st, [], clock)
  else
    match fuel with
    | O => None
    | S fuel' =>
        if stop st then
          Some (set_moving false (set_stop false st), [], clock)
        else
          let st1 := set_currentLift (to_uint16 i) st in
          let st2 :=
            set_currentLiftPercentage
              (to_uint8 (Z.quot (currentLift st1 * 100) MAX_LIFT)) st1 in
          let body :=
            [DrawBlinds (currentLift st1) (currentTilt st1);
             SetLiftPercentage (currentLiftPercentage st2);
             LogLifting (currentLift st2)] in
          let '(st3, trd, clock') := delay 250 st2 clock in
          match liftLoop fuel' step lift_position (i + step) st3 clock' with
          | Some (st', tr, clock'') => Some (st', body ++ trd ++ tr, clock'')
          | None => None
          end
    end.

Definition moveCoversLift (fuel : nat) (lift_position : Z)
                          (st : State) (clock : Clock)
  : option (State * Trace * Clock) :=
  if lift_position =? currentLift st then Some (st, [], clock)
  else
    let st1 := set_moving true st in
    let step := if currentLift st1 <? lift_position then 1 else -1 in
    match
      liftLoop fuel step lift_position (currentLift st1 + step) st1 clock
    with
    | Some (st2, tr, clock') =>
        Some (set_moving false st2,
              DigitalWrite ledPin true :: tr ++ [DigitalWrite ledPin false],
              clock')
    | None => None
    end.

(** The [for] loop of [moveCoversTilt]; the percentage is computed with
    [MAX_LIFT], as in the sketch. *)
Fixpoint tiltLoop (fuel : nat) (step tilt_position i : Z)
                  (st : State) (clock : Clock)
  : option (State * Trace * Clock) :=
  if i =? tilt_position + step then Some (st, [], clock)
  else
    match fuel with
    | O => None
    | S fuel' =>
        if stop st then
          Some (set_moving false (set_stop false st), [], clock)
        else
          let st1 := set_currentTilt (to_uint16 i) st in
          let st2 :=
            set_currentTiltPercentage
              (to_uint8 (Z.quot (currentTilt st1 * 100) MAX_LIFT)) st1 in
          let body :=
            [DrawBlinds (currentLift st1) (currentTilt st1);
             SetTiltPercentage (currentTiltPercentage st2);
             LogTilting (currentTilt st2)] in
          let '(st3, trd, clock') := delay 250 st2 clock in
          match tiltLoop fuel' step tilt_position (i + step) st3 clock' with
          | Some (st', tr, clock'') => Some (st', body ++ trd ++ tr, clock'')
          | None => None
          end
    end.

Definition moveCoversTilt (fuel : nat) (tilt_position : Z)
                          (st : State) (clock : Clock)
  : option (State * Trace * Clock) :=
  if tilt_position =? currentTilt st then Some (st, [], clock)
  else
    let st1 := set_moving true st in
    let step := if currentTilt st1 <? tilt_position then 1 else -1 in
    match
      tiltLoop fuel step tilt_position (currentTilt st1 + step) st1 clock
    with
    | Some (st2, tr, clock') =>
        Some (set_moving false st2,
              DigitalWrite ledPin true :: tr ++ [DigitalWrite ledPin false],
              clock')
    | None => None
    end.

(** ** The body of [loop] *)

(** What the factory-reset button does during one iteration: not pressed,
    pressed and released after [polls] waits of 50 ms, or held until the
    factory reset, which comes after [polls] such waits and reboots the
    device. *)
Inductive Button : Type :=
| Released
| ShortPress (polls : nat)
| LongPress (polls : nat).

Record LoopInput : Type := mkInput {
  button : Button;
  keyA : Z;        (* Glass.getKeyA(), 0 when pressed *)
  keyB : Z         (* Glass.getKeyB(), 0 when pressed *)
}.

Inductive LoopResult : Type :=
| Continue (st : State) (tr : Trace) (clock : Clock)
| Rebooted (tr : Trace).

(** Lines 135-148: the debounce wait and the polling of the held button; the
    result tells whether the device was reset.  The block reads and writes
    none of the controller's variables, so a callback that arrives during
    these waits has the effect it would have had just before the iteration:
    it is part of the state [loop] is entered with. *)
Definition checkButton (b : Button) : bool * Trace :=
  match b with
  | Released => (false, [])
  | ShortPress polls => (false, Delay 100 :: repeat (Delay 50) polls)
  | LongPress polls =>
      (true,
       Delay 100 :: repeat (Delay 50) polls
       ++ [LogFactoryReset; Delay 1000; FactoryReset])
  end.

(** Lines 150-155: the two keys of the display unit. *)
Definition pollKeys (inp : LoopInput) (st : State) : State :=
  let st1 :=
    if (keyA inp =? 0) && (MIN_LIFT <? currentLift st)
    then set_nextLift (to_int16 (currentLift st - 1)) st else st in
  if (keyB inp =? 0) && (currentLift st1 <? MAX_LIFT)
  then set_nextLift (to_int16 (currentLift st1 + 1)) st1 else st1.

(** Lines 157-160: the pending Lift request. *)
Definition serviceLift (fuel : nat) (st : State) (clock : Clock)
  : option (State * Trace * Clock) :=
  if negb (nextLift st =? -1) then
    match moveCoversLift fuel (to_uint16 (nextLift st)) st clock with
    | Some (st1, tr1, clock1) => Some (set_nextLift (-1) st1, tr1, clock1)
    | None => None
    end
  else Some (st, [], clock).

(** Lines 161-164: the pending Tilt request. *)
Definition serviceTilt (fuel : nat) (st : State) (clock : Clock)
  : option (State * Trace * Clock) :=
  if negb (nextTilt st =? -1) then
    match moveCoversTilt fuel (to_uint16 (nextTilt st)) st clock with
    | Some (st1, tr1, clock1) => Some (set_nextTilt (-1) st1, tr1, clock1)
    | None => None
    end
  else Some (st, [], clock).

Definition serviceRequests (fuel : nat) (st : State) (clock : Clock)
  : option (State * Trace * Clock) :=
  match serviceLift fuel st clock with
  | None => None
  | Some (st1, tr1, clock1) =>
      match serviceTilt fuel st1 clock1 with
      | Some (st2, tr2, clock2) => Some (st2, tr1 ++ tr2, clock2)
      | None => None
      end
  end.

Definition loop (fuel : nat) (inp : LoopInput) (st : State) (clock : Clock)
  : option LoopResult :=
  let '(reset, tr0) := checkButton (button inp) in
  if reset then Some (Rebooted tr0)
  else
    match serviceRequests fuel (pollKeys inp st) clock with
    | Some (st', tr, clock') => Some (Continue st' (tr0 ++ tr) clock')
    | None => None
    end.

(** ** The two axes seen uniformly *)

Inductive Axis : Type := Lift | Tilt.

Definition position (a : Axis) (st : State) : Z :=
  match a with Lift => currentLift st | Tilt => currentTilt st end.

Definition percentage (a : Axis) (st : State) : Z :=
  match a with
  | Lift => currentLiftPercentage st
  | Tilt => currentTiltPercentage st
  end.

Definition pending (a : Axis) (st : State) : Z :=
  match a with Lift => nextLift st | Tilt => nextTilt st end.

Definition axisMin (a : Axis) : Z :=
  match a with Lift => MIN_LIFT | Tilt => MIN_TILT end.

Definition axisMax (a : Axis) : Z :=
  match a with Lift => MAX_LIFT | Tilt => MAX_TILT end.

Definition moveCovers (a : Axis)
  : nat -> Z -> State -> Clock -> option (State * Trace * Clock) :=
  match a with Lift => moveCoversLift | Tilt => moveCoversTilt end.

Definition set_position (a : Axis) (v : Z) (st : State) : State :=
  match a with
  | Lift => set_currentLift v st
  | Tilt => set_currentTilt v st
  end.

Definition set_percentage (a : Axis) (v : Z) (st : State) : State :=
  match a with
  | Lift => set_currentLiftPercentage v st
  | Tilt => set_currentTiltPercentage v st
  end.

Definition reportEvent (a : Axis) (p : Z) : Event :=
  match a with Lift => SetLiftPercentage p | Tilt => SetTiltPercentage p end.

Definition logEvent (a : Axis) (v : Z) : Event :=
  match a with Lift => LogLifting v | Tilt => LogTilting v end.

(** The percentage both step loops compute from a position. *)
Definition percentOf (v : Z) : Z := to_uint8 (Z.quot (v * 100) MAX_LIFT).

(** The skeleton the two loops share; [liftLoop_axisLoop] and
    [tiltLoop_axisLoop] below show that it is each of them. *)
Fixpoint axisLoop (a : Axis) (fuel : nat) (step target i : Z)
                  (st : State) (clock : Clock)
  : option (State * Trace * Clock) :=
  if i =? target + step then Some (st, [], clock)
  else
    match fuel with
    | O => None
    | S fuel' =>
        if stop st then
          Some (set_moving false (set_stop false st), [], clock)
        else
          let st1 := set_position a (to_uint16 i) st in
          let st2 := set_percentage a (percentOf (position a st1)) st1 in
          let body :=
            [DrawBlinds (currentLift st1) (currentTilt st1);
             reportEvent a (percentage a st2);
             logEvent a (position a st2)] in
          let '(st3, trd, clock') := delay 250 st2 clock in
          match axisLoop a fuel' step target (i + step) st3 clock' with
          | Some (st', tr, clock'') => Some (st', body ++ trd ++ tr, clock'')
          | None => None
          end
    end.

Definition axisMove (a : Axis) (fuel : nat) (target : Z)
                    (st : State) (clock : Clock)
  : option (State * Trace * Clock) :=
  if target =? position a st then Some (st, [], clock)
  else
    let st1 := set_moving true st in
    let step := if position a st1 <? target then 1 else -1 in
    match axisLoop a fuel step target (position a st1 + step) st1 clock with
    | Some (st2, tr, clock') =>
        Some (set_moving false st2,
              DigitalWrite ledPin true :: tr ++ [DigitalWrite ledPin false],
              clock')
    | None => None
    end.

End Controller.

(** ** Readings of a trace *)

(** The positions printed after each step of axis [a]. *)
Fixpoint visited (a : Axis) (tr : Trace) : list Z :=
  match tr with
  | [] => []
  | LogLifting v :: tr' =>
      match a with Lift => v :: visited a tr' | Tilt => visited a tr' end
  | LogTilting v :: tr' =>
      match a with Lift => visited a tr' | Tilt => v :: visited a tr' end
  | _ :: tr' => visited a tr'
  end.

(** The percentages handed to the Zigbee endpoint for axis [a]. *)
Fixpoint reported (a : Axis) (tr : Trace) : list Z :=
  match tr with
  | [] => []
  | SetLiftPercentage p :: tr' =>
      match a with Lift => p :: reported a tr' | Tilt => reported a tr' end
  | SetTiltPercentage p :: tr' =>
      match a with Lift => reported a tr' | Tilt => p :: reported a tr' end
  | _ :: tr' => reported a tr'
  end.

(** An event produced by a step of axis [a]. *)
Definition isStepOf (a : Axis) (e : Event) : bool :=
  match a, e with
  | Lift, SetLiftPercentage _ | Lift, LogLifting _ => true
  | Tilt, SetTiltPercentage _ | Tilt, LogTilting _ => true
  | _, _ => false
  end.

Definition isStop (c : Callback) : bool :=
  match c with OnStop => true | _ => false end.

Definition hasStop (cs : list Callback) : bool := existsb isStop cs.

(** The environment with no callback at all. *)
Definition quiet : Env := fun _ => [].

(** ** The rounding rule of the specification *)

(** Division rounded to the nearest integer, halves up. *)
Definition roundDiv (a b : Z) : Z := (2 * a + b) / (2 * b).

Definition specPercentage (v max : Z) : Z := roundDiv (100 * v) max.

Definition specTarget (percent max : Z) : Z := roundDiv (percent * max) 100.

(** The first [k] positions when stepping from [s] by [d] at a time. *)
Definition stepsFrom (s d : Z) (k : nat) : list Z :=
  map (fun j => s + d * Z.of_nat j) (seq 1 k).

(** The positions passed when stepping one unit at a time from [s] to [t]. *)
Definition stepsBetween (s t : Z) : list Z :=
  stepsFrom s (Z.sgn (t - s)) (Z.to_nat (Z.abs (t - s))).

(** Every element is one unit nearer to [t] than the one before it. *)
Fixpoint stepsToward (t : Z) (l : list Z) : Prop :=
  match l with
  | x :: (y :: _) as l' => y = x + Z.sgn (t - x) /\ Z.abs (y - x) = 1
                           /\ stepsToward t l'
  | _ => True
  end.

(** ** Notions used in the statements and proofs *)

(** Callbacks write only [stop], [nextLift] and [nextTilt]. *)
Definition sameMotion (st st' : State) : Prop :=
  currentLift st' = currentLift st /\
  currentLiftPercentage st' = currentLiftPercentage st /\
  currentTilt st' = currentTilt st /\
  currentTiltPercentage st' = currentTiltPercentage st /\
  moving st' = moving st.

(** The state after the assignments of one iteration, before its [delay]. *)
Definition afterStep (a : Axis) (i : Z) (st : State) : State :=
  set_percentage a (percentOf (position a (set_position a (to_uint16 i) st)))
                 (set_position a (to_uint16 i) st).

(** The number of steps a motion of [n] units takes when it starts at clock
    value [clock] with the stop flag down: it halts after the first delay in
    which a stop request arrives. *)
Fixpoint stepsTaken (env : Env) (clock : Clock) (n : nat) : nat :=
  match n with
  | O => O
  | S n' =>
      if hasStop (env clock) then 1%nat
      else S (stepsTaken env (S clock) n')
  end.

Definition set_pending (a : Axis) (v : Z) (st : State) : State :=
  match a with Lift => set_nextLift v st | Tilt => set_nextTilt v st end.

(** What can happen to the state between two motions, while the motor is
    idle: callbacks are delivered, the keys are polled, a served request is
    cleared. *)
Inductive idleSteps : State -> State -> Prop :=
| idle_refl st : idleSteps st st
| idle_callbacks cs st st' :
    idleSteps (fst (deliver cs st)) st' -> idleSteps st st'
| idle_keys inp st st' :
    idleSteps (pollKeys inp st) st' -> idleSteps st st'
| idle_clear a st st' :
    idleSteps (set_pending a (-1) st) st' -> idleSteps st st'.

(** ** Environments of the scenarios *)

(** The scenario of the specification: from 5 towards 0, stopped after two
    steps. *)
Definition stopAfterTwo : Env :=
  fun n => match n with 1%nat => [OnStop] | _ => [] end.

(** Lift asked to go from 9 to 8 while Tilt is asked to go from 5 to 4: the
    stop request lands in the delay after the only Lift step. *)
Definition stopAtOnce : Env :=
  fun n => match n with 0%nat => [OnStop] | _ => [] end.

(** ** The requests and their service, seen uniformly *)

(** [serviceLift] and [serviceTilt] seen uniformly. *)
Definition serviceAxis (env : Env) (a : Axis) (fuel : nat)
                       (st : State) (clock : Clock)
  : option (State * Trace * Clock) :=
  if negb (pending a st =? -1) then
    match axisMove env a fuel (to_uint16 (pending a st)) st clock with
    | Some (st1, tr1, clock1) => Some (set_pending a (-1) st1, tr1, clock1)
    | None => None
    end
  else Some (st, [], clock).

(** The axis a callback leaves a pending target for. *)
Definition requestAxis (c : Callback) : option Axis :=
  match c with
  | OnOpen | OnClose | OnGoToLiftPercentage _ => Some Lift
  | OnGoToTiltPercentage _ => Some Tilt
  | OnStop => None
  end.

(** The target of a request whose percentage lies between 0 and 100. *)
Definition requestTarget (c : Callback) : Z :=
  match c with
  | OnOpen => MIN_LIFT
  | OnClose => MAX_LIFT
  | OnGoToLiftPercentage p => p * MAX_LIFT / 100
  | OnGoToTiltPercentage p => p * MAX_TILT / 100
  | OnStop => -1
  end.

Definition validRequest (c : Callback) : Prop :=
  match c with
  | OnGoToLiftPercentage p | OnGoToTiltPercentage p => 0 <= p <= 100
  | _ => True
  end.

(** How a motion from [s] towards [t] that took [k] steps and left the axis
    at [final] ended, when it was begun in state [st] at clock value
    [clock]: it reached the target, or it was cancelled on the way by a stop
    request, one whose flag was still raised when the motion began or one
    delivered in the delay after step [k]. *)
Definition completed (s t : Z) (k : nat) (final : Z) : Prop :=
  k = Z.to_nat (Z.abs (t - s)) /\ final = t.

Definition cancelled (env : Env) (st : State) (clock : Clock)
                     (s t : Z) (k : nat) (final : Z) : Prop :=
  (k < Z.to_nat (Z.abs (t - s)))%nat /\
  final = s + Z.sgn (t - s) * Z.of_nat k /\
  (if stop st then k = 0%nat
   else (1 <= k)%nat /\ hasStop (env (clock + (k - 1))%nat) = true).

(** Positions inside the bounds of their axis, pending targets too. *)
Definition wellFormed (st : State) : Prop :=
  forall a,
    axisMin a <= position a st <= axisMax a /\
    (pending a st = -1 \/ axisMin a <= pending a st <= axisMax a).

End Covering.

(** * The measurement cycle of the CO2, temperature and humidity sketch *)

Module Demo3.

Definition ledPin : Z := 7.

Section Cycle.

(** The C [float] of the readings: the cycle only hands them on. *)
Variable float : Type.
Variable fzero : float.

(** The state of the SCD41 and of its I2C driver. *)
Variable Sensor : Type.

Inductive Command : Type :=
| WakeUp
| MeasureSingleShot
| MeasureAndReadSingleShot.

(** The three locals [measureAndReadSingleShot] fills by reference. *)
Record Reading : Type := mkReading {
  co2Concentration : Z;       (* uint16_t *)
  temperature : float;
  relativeHumidity : float
}.

(** The driver calls of the cycle; each returns an [int16_t] error code, 0 on
    success. *)
Record Driver : Type := mkDriver {
  wakeUp : Sensor -> Z * Sensor;
  measureSingleShot : Sensor -> Z * Sensor;
  measureAndReadSingleShot : Sensor -> Reading -> Z * Reading * Sensor
}.

(** The global [error] and the values held by the two Zigbee endpoints. *)
Record State : Type := mkState {
  error : Z;
  zbTemperature : float;
  zbHumidity : float;
  zbCarbonDioxide : Z
}.

Definition set_error (e : Z) (st : State) : State :=
  mkState e (zbTemperature st) (zbHumidity st) (zbCarbonDioxide st).

Definition setTemperature (t : float) (st : State) : State :=
  mkState (error st) t (zbHumidity st) (zbCarbonDioxide st).

Definition setHumidity (h : float) (st : State) : State :=
  mkState (error st) (zbTemperature st) h (zbCarbonDioxide st).

Definition setCarbonDioxide (c : Z) (st : State) : State :=
  mkState (error st) (zbTemperature st) (zbHumidity st) c.

Inductive Event : Type :=
| Call (c : Command)
| PrintError (c : Command) (code : Z)   (* the message of errorToString *)
| PrintReading (r : Reading)
| SetTemperature (t : float)
| SetHumidity (h : float)
| SetCarbonDioxide (c : Z)
| ReportTemperature                      (* zbTempSensor.report() *)
| ReportCarbonDioxide                    (* zbCO2Sensor.report() *)
| LogSleep
| LogFactoryReset
| FactoryReset
| DigitalWrite (pin : Z) (level : bool)
| DeepSleepStart
| Delay (ms : Z).

Definition Trace : Type := list Event.

Variable sensor : Driver.

Definition meausureAndReport (s : Sensor) (st : State)
  : Sensor * State * Trace :=
  let locals := mkReading 0 fzero fzero in
  let '(e1, s1) := wakeUp sensor s in
  let st1 := set_error e1 st in
  if negb (error st1 =? 0) then
    (s1, st1, [Call WakeUp; PrintError WakeUp (error st1)])
  else
    let '(e2, s2) := measureSingleShot sensor s1 in
    let st2 := set_error e2 st1 in
    if negb (error st2 =? 0) then
      (s2, st2,
       [Call WakeUp; Call MeasureSingleShot;
        PrintError MeasureSingleShot (error st2)])
    else
      let '(e3, locals', s3) := measureAndReadSingleShot sensor s2 locals in
      let st3 := set_error e3 st2 in
      if negb (error st3 =? 0) then
        (s3, st3,
         [Call WakeUp; Call MeasureSingleShot; Call MeasureAndReadSingleShot;
          PrintError MeasureAndReadSingleShot (error st3)])
      else
        let st4 := setTemperature (temperature locals') st3 in
        let st5 := setHumidity (relativeHumidity locals') st4 in
        let st6 := setCarbonDioxide (co2Concentration locals') st5 in
        (s3, st6,
         [Call WakeUp; Call MeasureSingleShot; Call MeasureAndReadSingleShot;
          PrintReading locals';
          SetTemperature (temperature locals');
          SetHumidity (relativeHumidity locals');
          SetCarbonDioxide (co2Concentration locals');
          ReportTemperature; ReportCarbonDioxide;
          Delay 200]).

(** What the factory-reset button does during one iteration: not pressed,
    pressed and released after [polls] waits of 50 ms, or held until the
    factory reset, which comes after [polls] such waits and reboots the
    device. *)
Inductive Button : Type :=
| Released
| ShortPress (polls : nat)
| LongPress (polls : nat).

(** Lines 121-135: the debounce wait and the polling of the held button; the
    result tells whether the device was reset. *)
Definition checkButton (b : Button) : bool * Trace :=
  match b with
  | Released => (false, [])
  | ShortPress polls => (false, Delay 100 :: repeat (Delay 50) polls)
  | LongPress polls =>
      (true,
       Delay 100 :: repeat (Delay 50) polls
       ++ [LogFactoryReset; Delay 1000; DigitalWrite ledPin false;
           FactoryReset])
  end.

(** One cycle: the body of [loop], which ends in deep sleep, or in a reboot
    when the button was held. *)
Definition loop (b : Button) (s : Sensor) (st : State)
  : option (Sensor * State) * Trace :=
  let '(reset, tr0) := checkButton b in
  if reset then (None, tr0)
  else
    let '(s', st', tr) := meausureAndReport s st in
    (Some (s', st'),
     tr0 ++ tr ++ [LogSleep; DigitalWrite ledPin false; DeepSleepStart]).

(** The commands sent to the sensor, in order. *)
Fixpoint commandsSent (tr : Trace) : list Command :=
  match tr with
  | [] => []
  | Call c :: tr' => c :: commandsSent tr'
  | _ :: tr' => commandsSent tr'
  end.

(** A call that updates or reports an endpoint. *)
Definition isEndpointCall (e : Event) : bool :=
  match e with
  | SetTemperature _ | SetHumidity _ | SetCarbonDioxide _
  | ReportTemperature | ReportCarbonDioxide => true
  | _ => false
  end.

(** The error codes the three commands return when the cycle gets to them. *)
Definition wakeUpCode (s : Sensor) : Z := fst (wakeUp sensor s).

Definition singleShotCode (s : Sensor) : Z :=
  fst (measureSingleShot sensor (snd (wakeUp sensor s))).

Definition readOutCode (s : Sensor) : Z :=
  fst (fst (measureAndReadSingleShot sensor
              (snd (measureSingleShot sensor (snd (wakeUp sensor s))))
              (mkReading 0 fzero fzero))).

End Cycle.

Arguments mkReading {float}.
Arguments co2Concentration {float}.
Arguments temperature {float}.
Arguments relativeHumidity {float}.
Arguments mkDriver {float Sensor}.
Arguments wakeUp {float Sensor}.
Arguments measureSingleShot {float Sensor}.
Arguments measureAndReadSingleShot {float Sensor}.
Arguments mkState {float}.
Arguments error {float}.
Arguments zbTemperature {float}.
Arguments zbHumidity {float}.
Arguments zbCarbonDioxide {float}.
Arguments set_error {float}.
Arguments setTemperature {float}.
Arguments setHumidity {float}.
Arguments setCarbonDioxide {float}.
Arguments Call {float}.
Arguments PrintError {float}.
Arguments PrintReading {float}.
Arguments SetTemperature {float}.
Arguments SetHumidity {float}.
Arguments SetCarbonDioxide {float}.
Arguments ReportTemperature {float}.
Arguments ReportCarbonDioxide {float}.
Arguments LogSleep {float}.
Arguments LogFactoryReset {float}.
Arguments FactoryReset {float}.
Arguments DigitalWrite {float}.
Arguments DeepSleepStart {float}.
Arguments Delay {float}.
Arguments meausureAndReport {float} fzero {Sensor}.
Arguments checkButton {float}.
Arguments loop {float} fzero {Sensor}.
Arguments commandsSent {float}.
Arguments isEndpointCall {float}.
Arguments wakeUpCode {float Sensor}.
Arguments singleShotCode {float Sensor}.
Arguments readOutCode {float} fzero {Sensor}.

(** A sensor whose read-out fails with code 527 after two good commands. *)
Definition failingReadOut : Driver Z unit :=
  mkDriver
    (fun s => (0, s))
    (fun s => (0, s))
    (fun s r => (527, r, s)).

End Demo3.

(** * Further notions about the window covering controller *)

Module Behaviour.

Import Covering.

(** [serviceLift] and [serviceTilt], by axis. *)
Definition service (env : Env) (a : Axis)
  : nat -> State -> Clock -> option (State * Trace * Clock) :=
  match a with Lift => serviceLift env | Tilt => serviceTilt env end.

(** The stored percentage of an axis is the one its step loop computes from
    the stored position. *)
Definition consistent (a : Axis) (st : State) : Prop :=
  percentage a st = percentOf (position a st).

(** The levels written to the LED pin, in order. *)
Fixpoint ledWrites (tr : Trace) : list bool :=
  match tr with
  | [] => []
  | DigitalWrite _ level :: tr' => level :: ledWrites tr'
  | _ :: tr' => ledWrites tr'
  end.

Definition isLedWrite (e : Event) : bool :=
  match e with DigitalWrite _ _ => true | _ => false end.

(** The pending slot of an axis is empty or holds a target inside the
    bounds. *)
Definition pendingOK (a : Axis) (st : State) : Prop :=
  pending a st = -1 \/ axisMin a <= pending a st <= axisMax a.

(** The environment that delivers the callback [c] during the [k]-th delay
    and nothing else. *)
Definition requestAt (k : nat) (c : Callback) : Env :=
  fun j => if Nat.eqb j k then [c] else [].

(** The environment that delivers a stop request during the [k]-th delay
    and nothing else. *)
Definition stopAt (k : nat) : Env := requestAt k OnStop.

End Behaviour.

(** * The display of the window covering sketch *)

Module Display.

Import Covering.

Definition SCREEN_WIDTH : Z := 128.
Definition SCREEN_HEIGHT : Z := 64.

(** The calls made to the display unit, with the [int] values passed. *)
Inductive GlassCall : Type :=
| GlassClear
| DrawLine (x0 y0 x1 y1 color : Z)
| DrawPicture (x y w h color : Z)
| GlassShow.

(** [for (int i = 0; i < n; i++) body(i)], the calls of all iterations. *)
Definition forLoop {A : Type} (n : Z) (body : Z -> list A) : list A :=
  flat_map body (map Z.of_nat (seq 0 (Z.to_nat n))).

Definition drawSlat (x y thickness : Z) : list GlassCall :=
  let width := 100 in
  DrawLine x y (x + width) y 255
  :: (if 0 <? thickness then
        forLoop (thickness - 1)
                (fun i => [DrawLine x (y + i + 1) (x + width) (y + i + 1) 255])
      else []).

Section Controller.

(** Arduino's [map(value, fromLow, fromHigh, toLow, toHigh)]. *)
Variable arduinoMap : Z -> Z -> Z -> Z -> Z -> Z.

(** [knob_y] is the function's static variable; its new value is returned
    with the calls. *)
Definition drawManualController (knob_y : Z) (st : State)
  : Z * list GlassCall :=
  let wire_x := 120 in
  let wire_y_start := 0 in
  let wire_y_end := 58 in
  let knob_y_end := 50 in
  let new_knob_y :=
    arduinoMap (currentLift st) 0 MAX_LIFT wire_y_start knob_y_end in
  let knob_y' := if negb (knob_y =? new_knob_y) then new_knob_y else knob_y in
  (knob_y',
   [DrawLine wire_x wire_y_start wire_x wire_y_end 255;
    DrawPicture wire_x knob_y' 3 3 0]).

Definition drawBlinds (knob_y : Z) (st : State) : Z * list GlassCall :=
  let y_start := 0 in
  let base_slat_height := 6 in
  let spacing := 1 in
  let max_thickness := base_slat_height in
  let slats :=
    forLoop (currentLift st)
            (fun i =>
               let y := y_start + i * (max_thickness + spacing) in
               let thickness := 1 + currentTilt st in
               drawSlat 10 y thickness) in
  let '(knob_y', controller) := drawManualController knob_y st in
  (knob_y', [GlassClear] ++ slats ++ controller ++ [GlassShow]).

End Controller.

(** An instance of the map function: linear interpolation with a truncated
    division. *)
Definition linearMap (x in_min in_max out_min out_max : Z) : Z :=
  Z.quot ((x - in_min) * (out_max - out_min)) (in_max - in_min) + out_min.

(** ** Readings of a list of calls *)

Definition isLine (c : GlassCall) : bool :=
  match c with DrawLine _ _ _ _ _ => true | _ => false end.

(** A line that lies inside the 128 x 64 screen. *)
Definition lineOnScreen (c : GlassCall) : Prop :=
  match c with
  | DrawLine x0 y0 x1 y1 _ =>
      0 <= x0 < SCREEN_WIDTH /\ 0 <= x1 < SCREEN_WIDTH /\
      0 <= y0 < SCREEN_HEIGHT /\ 0 <= y1 < SCREEN_HEIGHT
  | _ => True
  end.

(** The screen rows of the slat lines, which all start at column 10. *)
Definition slatRows (calls : list GlassCall) : list Z :=
  flat_map (fun c => match c with
                     | DrawLine x0 y0 _ _ _ => if x0 =? 10 then [y0] else []
                     | _ => []
                     end) calls.

End Display.

(** * The vibration sensor sketch *)

Module Demo2.

(** What the boot button does during one iteration: not pressed, pressed
    and released after [polls] waits of 50 ms, or held until the factory
    reset, which comes after [polls] such waits. *)
Inductive Button : Type :=
| Released
| ShortPress (polls : nat)
| LongPress (polls : nat).

(** The inputs of one iteration: whether the sensor pin reads HIGH at the
    first test and at the test of the [else if], and the button. *)
Record Input : Type := mkInput {
  pinFirst : bool;
  pinSecond : bool;
  button : Button
}.

Inductive Event : Type :=
| SetVibration (vibration : bool)       (* zbVibrationSensor.setVibration *)
| Delay (ms : Z)
| LogFactoryReset
| FactoryReset.

Definition Trace : Type := list Event.

(** Lines 86-97; [sensed] is the static variable of [loop]. *)
Definition sense (inp : Input) (sensed : bool) : bool * Trace :=
  if pinFirst inp && negb sensed then
    (true, [SetVibration true; Delay 2000])
  else if negb (pinSecond inp) && sensed then
    (false, [SetVibration false; Delay 500])
  else (sensed, []).

(** Lines 100-113; the result tells whether the device was reset. *)
Definition checkButton (b : Button) : bool * Trace :=
  match b with
  | Released => (false, [])
  | ShortPress polls => (false, Delay 100 :: repeat (Delay 50) polls)
  | LongPress polls =>
      (true,
       Delay 100 :: repeat (Delay 50) polls
       ++ [LogFactoryReset; Delay 1000; FactoryReset])
  end.

(** One iteration; [None] when it ended in the factory reset. *)
Definition loop (inp : Input) (sensed : bool) : option bool * Trace :=
  let '(sensed', tr1) := sense inp sensed in
  let '(reset, tr2) := checkButton (button inp) in
  if reset then (None, tr1 ++ tr2)
  else (Some sensed', tr1 ++ tr2 ++ [Delay 100]).

(** The iterations for a list of inputs, up to a factory reset. *)
Fixpoint run (inps : list Input) (sensed : bool) : option bool * Trace :=
  match inps with
  | [] => (Some sensed, [])
  | inp :: rest =>
      match loop inp sensed with
      | (None, tr) => (None, tr)
      | (Some sensed', tr) =>
          let '(r, tr') := run rest sensed' in (r, tr ++ tr')
      end
  end.

(** The vibration states handed to the endpoint, in order. *)
Fixpoint reports (tr : Trace) : list bool :=
  match tr with
  | [] => []
  | SetVibration b :: tr' => b :: reports tr'
  | _ :: tr' => reports tr'
  end.

(** The milliseconds spent in [delay]. *)
Fixpoint totalDelay (tr : Trace) : Z :=
  match tr with
  | [] => 0
  | Delay ms :: tr' => ms + totalDelay tr'
  | _ :: tr' => totalDelay tr'
  end.

(** [first], its negation, [first] again, and so on. *)
Fixpoint alternating (first : bool) (l : list bool) : Prop :=
  match l with
  | [] => True
  | b :: l' => b = first /\ alternating (negb first) l'
  end.

Definition countOf (b : bool) (l : list bool) : Z :=
  Z.of_nat (length (filter (Bool.eqb b) l)).

End Demo2.

(** * The sensor initialisation of the CO2 sketch *)

Module Demo3Setup.

Definition to_uint32 (z : Z) : Z := z mod 4294967296.

Inductive InitCommand : Type :=
| WakeUp
| StopPeriodicMeasurement
| Reinit
| GetSerialNumber.

Inductive Event : Type :=
| Delay (ms : Z)
| Call (c : InitCommand)
| PrintError (c : InitCommand) (code : Z)
| PrintSerialLabel                   (* "serial number: 0x" *)
| PrintPrefix                        (* "0x" *)
| PrintHex (word : Z)                (* Serial.print(uint32_t, HEX) *)
| PrintLn.

Definition Trace : Type := list Event.

(** [PrintUint64]: the argument is a [uint64_t]. *)
Definition PrintUint64 (value : Z) : Trace :=
  [PrintPrefix;
   PrintHex (to_uint32 (Z.shiftr value 32));
   PrintHex (to_uint32 (Z.land value 4294967295))].

Section Init.

(** The state of the SCD41 and of its I2C driver. *)
Variable Sensor : Type.

(** The driver calls of [sensorInit]; each returns an [int16_t] error code.
    [getSerialNumber] fills its [uint64_t] argument by reference. *)
Record InitDriver : Type := mkInitDriver {
  wakeUp : Sensor -> Z * Sensor;
  stopPeriodicMeasurement : Sensor -> Z * Sensor;
  reinit : Sensor -> Z * Sensor;
  getSerialNumber : Sensor -> Z -> Z * Z * Sensor
}.

Variable sensor : InitDriver.

(** The message printed when a command returned a nonzero code. *)
Definition report (c : InitCommand) (error : Z) : Trace :=
  if negb (error =? 0) then [PrintError c error] else [].

(** The result is the sensor, the global [error] and the calls made. *)
Definition sensorInit (s : Sensor) : Sensor * Z * Trace :=
  let serialNumber := 0 in
  let '(e1, s1) := wakeUp sensor s in
  let '(e2, s2) := stopPeriodicMeasurement sensor s1 in
  let '(e3, s3) := reinit sensor s2 in
  let '(e4, serialNumber', s4) := getSerialNumber sensor s3 serialNumber in
  (s4, e4,
   [Delay 30]
   ++ Call WakeUp :: report WakeUp e1
   ++ Call StopPeriodicMeasurement :: report StopPeriodicMeasurement e2
   ++ Call Reinit :: report Reinit e3
   ++ Call GetSerialNumber
      :: (if negb (e4 =? 0) then [PrintError GetSerialNumber e4]
          else PrintSerialLabel :: PrintUint64 serialNumber' ++ [PrintLn])).

(** The code each command returns when the four are sent in order. *)
Definition initCodes (s : Sensor) : list (InitCommand * Z) :=
  let '(e1, s1) := wakeUp sensor s in
  let '(e2, s2) := stopPeriodicMeasurement sensor s1 in
  let '(e3, s3) := reinit sensor s2 in
  let '(e4, _, _) := getSerialNumber sensor s3 0 in
  [(WakeUp, e1); (StopPeriodicMeasurement, e2); (Reinit, e3);
   (GetSerialNumber, e4)].

End Init.

Arguments mkInitDriver {Sensor}.
Arguments wakeUp {Sensor}.
Arguments stopPeriodicMeasurement {Sensor}.
Arguments reinit {Sensor}.
Arguments getSerialNumber {Sensor}.
Arguments sensorInit {Sensor}.
Arguments initCodes {Sensor}.

(** ** Readings of a trace *)

Fixpoint commandsSent (tr : Trace) : list InitCommand :=
  match tr with
  | [] => []
  | Call c :: tr' => c :: commandsSent tr'
  | _ :: tr' => commandsSent tr'
  end.

Fixpoint errorsPrinted (tr : Trace) : list (InitCommand * Z) :=
  match tr with
  | [] => []
  | PrintError c code :: tr' => (c, code) :: errorsPrinted tr'
  | _ :: tr' => errorsPrinted tr'
  end.

Fixpoint hexWords (tr : Trace) : list Z :=
  match tr with
  | [] => []
  | PrintHex w :: tr' => w :: hexWords tr'
  | _ :: tr' => hexWords tr'
  end.

End Demo3Setup.

(** * The window covering controller: proofs *)

Module CoveringProofs.

Import Covering.

(** * Lemmas *)

(** ** What a callback can change *)

Lemma sameMotion_refl st : sameMotion st st.
Proof. repeat split. Qed.

Lemma sameMotion_trans st1 st2 st3 :
  sameMotion st1 st2 -> sameMotion st2 st3 -> sameMotion st1 st3.
Proof.
  unfold sameMotion; intros (A1 & A2 & A3 & A4 & A5) (B1 & B2 & B3 & B4 & B5).
  repeat split; congruence.
Qed.

Lemma dispatch_sameMotion c st : sameMotion st (fst (dispatch c st)).
Proof.
  unfold sameMotion; destruct st as [l lp t tp s m nl nt].
  destruct c; simpl; unfold stopMotor; simpl;
    try destruct m; simpl; repeat split; reflexivity.
Qed.

Lemma deliver_sameMotion cs : forall st, sameMotion st (fst (deliver cs st)).
Proof.
  induction cs as [|c cs IH]; intros st; simpl.
  - apply sameMotion_refl.
  - pose proof (dispatch_sameMotion c st) as Hc.
    destruct (dispatch c st) as [st1 tr1]; simpl in Hc.
    pose proof (IH st1) as Hcs.
    destruct (deliver cs st1) as [st2 tr2]; simpl in *.
    eapply sameMotion_trans; eauto.
Qed.

Lemma sameMotion_position a st st' :
  sameMotion st st' -> position a st' = position a st.
Proof. intros (A1 & A2 & A3 & A4 & A5); destruct a; assumption. Qed.

Lemma sameMotion_percentage a st st' :
  sameMotion st st' -> percentage a st' = percentage a st.
Proof. intros (A1 & A2 & A3 & A4 & A5); destruct a; assumption. Qed.

Lemma sameMotion_moving st st' : sameMotion st st' -> moving st' = moving st.
Proof. intros (A1 & A2 & A3 & A4 & A5); assumption. Qed.

(** A callback never clears the stop flag. *)
Lemma dispatch_stop_kept c st :
  stop st = true -> stop (fst (dispatch c st)) = true.
Proof.
  intros H; destruct c; simpl; auto.
  unfold stopMotor; destruct (moving st); simpl; auto.
Qed.

Lemma deliver_stop_kept cs : forall st,
  stop st = true -> stop (fst (deliver cs st)) = true.
Proof.
  induction cs as [|c cs IH]; intros st H; simpl; auto.
  pose proof (dispatch_stop_kept c st H) as Hc.
  destruct (dispatch c st) as [st1 tr1]; simpl in Hc.
  pose proof (IH st1 Hc) as Hcs.
  destruct (deliver cs st1) as [st2 tr2]; simpl in *; assumption.
Qed.

(** Without a stop request the flag stays as it is. *)
Lemma deliver_noStop cs : forall st,
  hasStop cs = false -> stop (fst (deliver cs st)) = stop st.
Proof.
  induction cs as [|c cs IH]; intros st H; simpl; auto.
  unfold hasStop in H; simpl in H; apply orb_false_iff in H as [Hc Hcs].
  assert (Hd : stop (fst (dispatch c st)) = stop st)
    by (destruct c; simpl in *; auto; discriminate).
  destruct (dispatch c st) as [st1 tr1]; simpl in Hd.
  pose proof (IH st1 Hcs) as Hr.
  destruct (deliver cs st1) as [st2 tr2]; simpl in *; congruence.
Qed.

(** A stop request delivered while the motor is moving raises the flag. *)
Lemma deliver_hasStop cs : forall st,
  hasStop cs = true -> moving st = true -> stop (fst (deliver cs st)) = true.
Proof.
  induction cs as [|c cs IH]; intros st H Hm; simpl.
  - discriminate.
  - unfold hasStop in H; simpl in H.
    pose proof (dispatch_sameMotion c st) as Hs.
    pose proof (dispatch_stop_kept c st) as Hk.
    assert (Hc : isStop c = true -> stop (fst (dispatch c st)) = true).
    { destruct c; simpl; try discriminate.
      intros _; unfold stopMotor; rewrite Hm; reflexivity. }
    destruct (dispatch c st) as [st1 tr1]; simpl in *.
    pose proof (deliver_stop_kept cs st1) as Hk'.
    pose proof (IH st1) as IH1.
    destruct (deliver cs st1) as [st2 tr2]; simpl in *.
    destruct (isStop c); simpl in H.
    + auto.
    + apply IH1; auto. rewrite (sameMotion_moving _ _ Hs); assumption.
Qed.

(** With the motor idle a batch of stop requests changes nothing. *)
Lemma stopMotor_idle st : moving st = false -> stopMotor st = (st, []).
Proof. intros H; unfold stopMotor; rewrite H; reflexivity. Qed.

(** ** Traces *)

Lemma visited_app a tr1 tr2 :
  visited a (tr1 ++ tr2) = visited a tr1 ++ visited a tr2.
Proof.
  induction tr1 as [|e tr1 IH]; simpl; auto.
  destruct e, a; simpl; rewrite ?IH; reflexivity.
Qed.

Lemma reported_app a tr1 tr2 :
  reported a (tr1 ++ tr2) = reported a tr1 ++ reported a tr2.
Proof.
  induction tr1 as [|e tr1 IH]; simpl; auto.
  destruct e, a; simpl; rewrite ?IH; reflexivity.
Qed.

(** The console lines of the callbacks are no step of either axis. *)
Lemma dispatch_trace c st a :
  Forall (fun e => isStepOf a e = false) (snd (dispatch c st)).
Proof.
  destruct c; simpl; try (repeat constructor; destruct a; reflexivity).
  unfold stopMotor; destruct (moving st); simpl;
    repeat constructor; destruct a; reflexivity.
Qed.

Lemma deliver_trace cs a : forall st,
  Forall (fun e => isStepOf a e = false) (snd (deliver cs st)).
Proof.
  induction cs as [|c cs IH]; intros st; simpl.
  - constructor.
  - pose proof (dispatch_trace c st a) as Hc.
    destruct (dispatch c st) as [st1 tr1]; simpl in Hc.
    pose proof (IH st1) as Hcs.
    destruct (deliver cs st1) as [st2 tr2]; simpl in *.
    apply Forall_app; split; assumption.
Qed.

Lemma noStep_visited a tr :
  Forall (fun e => isStepOf a e = false) tr -> visited a tr = [].
Proof.
  induction 1 as [|e tr He _ IH]; simpl; auto.
  destruct e, a; simpl in *; auto; discriminate.
Qed.

Lemma noStep_reported a tr :
  Forall (fun e => isStepOf a e = false) tr -> reported a tr = [].
Proof.
  induction 1 as [|e tr He _ IH]; simpl; auto.
  destruct e, a; simpl in *; auto; discriminate.
Qed.

Lemma visited_delay a tr ms :
  Forall (fun e => isStepOf a e = false) tr -> visited a (Delay ms :: tr) = [].
Proof. intros H; simpl; apply noStep_visited; assumption. Qed.

Lemma reported_delay a tr ms :
  Forall (fun e => isStepOf a e = false) tr -> reported a (Delay ms :: tr) = [].
Proof. intros H; simpl; apply noStep_reported; assumption. Qed.

(** ** The shared skeleton is each of the two loops *)

Lemma liftLoop_axisLoop env fuel : forall step t i st clock,
  liftLoop env fuel step t i st clock = axisLoop env Lift fuel step t i st clock.
Proof.
  induction fuel as [|fuel IH]; intros; simpl.
  - reflexivity.
  - destruct (i =? t + step); auto.
    destruct (stop st); auto.
    unfold delay; simpl.
    destruct (deliver _ _) as [st3 trd].
    rewrite IH. reflexivity.
Qed.

Lemma tiltLoop_axisLoop env fuel : forall step t i st clock,
  tiltLoop env fuel step t i st clock = axisLoop env Tilt fuel step t i st clock.
Proof.
  induction fuel as [|fuel IH]; intros; simpl.
  - reflexivity.
  - destruct (i =? t + step); auto.
    destruct (stop st); auto.
    unfold delay; simpl.
    destruct (deliver _ _) as [st3 trd].
    rewrite IH. reflexivity.
Qed.

Lemma moveCovers_axisMove env a fuel t st clock :
  moveCovers env a fuel t st clock = axisMove env a fuel t st clock.
Proof.
  destruct a; unfold moveCovers, axisMove, moveCoversLift, moveCoversTilt;
    simpl position.
  - destruct (t =? currentLift st); auto. now rewrite liftLoop_axisLoop.
  - destruct (t =? currentTilt st); auto. now rewrite tiltLoop_axisLoop.
Qed.

(** ** One iteration of a step loop *)

Lemma afterStep_position a i st :
  position a (afterStep a i st) = to_uint16 i.
Proof. destruct a; reflexivity. Qed.

Lemma afterStep_percentage a i st :
  percentage a (afterStep a i st) = percentOf (to_uint16 i).
Proof. destruct a; reflexivity. Qed.

Lemma afterStep_flags a i st :
  stop (afterStep a i st) = stop st /\ moving (afterStep a i st) = moving st.
Proof. destruct a; split; reflexivity. Qed.

Lemma axisLoop_done env a fuel step t i st clock :
  i = t + step -> axisLoop env a fuel step t i st clock = Some (st, [], clock).
Proof.
  intros ->; destruct fuel; simpl; rewrite Z.eqb_refl; reflexivity.
Qed.

Lemma axisLoop_break env a fuel step t i st clock :
  i <> t + step -> stop st = true ->
  axisLoop env a (S fuel) step t i st clock =
  Some (set_moving false (set_stop false st), [], clock).
Proof.
  intros Hi Hs; simpl.
  apply Z.eqb_neq in Hi; rewrite Hi, Hs; reflexivity.
Qed.

Lemma axisLoop_step env a fuel step t i st clock :
  i <> t + step -> stop st = false ->
  axisLoop env a (S fuel) step t i st clock =
  match
    axisLoop env a fuel step t (i + step)
             (fst (deliver (env clock) (afterStep a i st))) (S clock)
  with
  | Some (st', tr, clock') =>
      Some (st',
            [DrawBlinds (currentLift (afterStep a i st))
                        (currentTilt (afterStep a i st));
             reportEvent a (percentOf (to_uint16 i));
             logEvent a (to_uint16 i)]
            ++ (Delay 250 :: snd (deliver (env clock) (afterStep a i st)))
            ++ tr,
            clock')
  | None => None
  end.
Proof.
  intros Hi Hs; simpl.
  apply Z.eqb_neq in Hi; rewrite Hi, Hs.
  unfold delay. fold (afterStep a i st).
  destruct (deliver (env clock) (afterStep a i st)) as [st3 trd]; simpl.
  destruct a; reflexivity.
Qed.

(** The three ways one iteration of a step loop can go, in a hypothesis
    [Hrun] about its result: the bound is reached, the stop flag breaks the
    loop, or a step is taken. *)
Ltac loop_cases i t step st Hrun :=
  let Hi := fresh "Hi" in
  let Hs := fresh "Hs" in
  destruct (Z.eq_dec i (t + step)) as [Hi|Hi];
  [ rewrite axisLoop_done in Hrun by assumption
  | destruct (stop st) eqn:Hs;
    [ rewrite axisLoop_break in Hrun by assumption
    | rewrite axisLoop_step in Hrun by assumption ] ].

(** With the motor moving and the flag down, a batch of callbacks leaves the
    flag up exactly when it holds a stop request. *)
Lemma deliver_stop_moving cs st :
  moving st = true -> stop st = false ->
  stop (fst (deliver cs st)) = hasStop cs.
Proof.
  intros Hm Hs. destruct (hasStop cs) eqn:E.
  - apply deliver_hasStop; assumption.
  - rewrite deliver_noStop; assumption.
Qed.

(** ** The first [m] iterations of a step loop *)

Lemma axisLoop_prefix env a step t i st clock : forall m,
  stop st = false -> moving st = true ->
  (forall j, (S j < m)%nat -> hasStop (env (clock + j)%nat) = false) ->
  (forall j, (j < m)%nat -> i + step * Z.of_nat j <> t + step) ->
  exists stm trm,
    (forall fuel,
        axisLoop env a (m + fuel) step t i st clock =
        match
          axisLoop env a fuel step t (i + step * Z.of_nat m) stm
                   (clock + m)%nat
        with
        | Some (st', tr, clock') => Some (st', trm ++ tr, clock')
        | None => None
        end) /\
    moving stm = true /\
    stop stm = match m with
               | O => false
               | S m' => hasStop (env (clock + m')%nat)
               end /\
    visited a trm = map (fun j => to_uint16 (i + step * Z.of_nat j)) (seq 0 m) /\
    reported a trm = map percentOf (visited a trm) /\
    position a stm = last (visited a trm) (position a st) /\
    percentage a stm = last (reported a trm) (percentage a st).
Proof.
  induction m as [|m IH]; intros Hs Hm Hquiet Hbound.
  - exists st, []. repeat split; auto.
    intros fuel. simpl Nat.add.
    replace (i + step * Z.of_nat 0) with i by lia.
    rewrite Nat.add_0_r.
    destruct (axisLoop env a fuel step t i st clock) as [[[s' tr] c']|];
      reflexivity.
  - destruct IH as (stm & trm & Hrun & Hmov & Hstop & Hvis & Hrep & Hpos & Hpct);
      auto.
    assert (Hstop' : stop stm = false).
    { rewrite Hstop. destruct m; auto. }
    pose proof (afterStep_flags a (i + step * Z.of_nat m) stm) as [Hf1 Hf2].
    pose proof (deliver_sameMotion (env (clock + m)%nat)
                  (afterStep a (i + step * Z.of_nat m) stm)) as Hsame.
    pose proof (deliver_trace (env (clock + m)%nat) a
                  (afterStep a (i + step * Z.of_nat m) stm)) as Htr.
    exists (fst (deliver (env (clock + m)%nat)
                   (afterStep a (i + step * Z.of_nat m) stm))).
    exists (trm ++
            [DrawBlinds
               (currentLift (afterStep a (i + step * Z.of_nat m) stm))
               (currentTilt (afterStep a (i + step * Z.of_nat m) stm));
             reportEvent a (percentOf (to_uint16 (i + step * Z.of_nat m)));
             logEvent a (to_uint16 (i + step * Z.of_nat m))]
            ++ Delay 250 :: snd (deliver (env (clock + m)%nat)
                                   (afterStep a (i + step * Z.of_nat m) stm))).
    split; [|split; [|split; [|split; [|split; [|split]]]]].
    + intros fuel.
      replace (S m + fuel)%nat with (m + S fuel)%nat by lia.
      rewrite Hrun, axisLoop_step; auto.
      replace (i + step * Z.of_nat m + step) with (i + step * Z.of_nat (S m))
        by lia.
      replace (S (clock + m)) with (clock + S m)%nat by lia.
      destruct (axisLoop env a fuel step t _ _ _) as [[[s' tr] c']|];
        [|reflexivity].
      repeat (rewrite <- ?app_assoc; simpl). reflexivity.
    + rewrite (sameMotion_moving _ _ Hsame). congruence.
    + apply deliver_stop_moving; congruence.
    + rewrite visited_app, Hvis, seq_S, map_app.
      f_equal.
      rewrite visited_app, (visited_delay _ _ 250 Htr), app_nil_r.
      destruct a; reflexivity.
    + rewrite visited_app, reported_app, Hrep, map_app.
      f_equal.
      rewrite visited_app, reported_app,
        (visited_delay _ _ 250 Htr), (reported_delay _ _ 250 Htr), !app_nil_r.
      destruct a; reflexivity.
    + rewrite (sameMotion_position _ _ _ Hsame), afterStep_position.
      rewrite visited_app, visited_app, (visited_delay _ _ 250 Htr), app_nil_r.
      destruct a; simpl; rewrite last_last; reflexivity.
    + rewrite (sameMotion_percentage _ _ _ Hsame), afterStep_percentage.
      rewrite reported_app, reported_app, (reported_delay _ _ 250 Htr), app_nil_r.
      destruct a; simpl; rewrite last_last; reflexivity.
Qed.

(** ** A whole motion: [k] steps, then the target or a stop request *)

Lemma last_map_seq {A} (f : nat -> A) (k : nat) (d : A) :
  last (map f (seq 0 (S k))) d = f k.
Proof. rewrite seq_S, map_app; simpl; apply last_last. Qed.

Lemma last_map_nonempty {A B} (f : A -> B) (l : list A) (d : A) (d' : B) :
  l <> [] -> last (map f l) d' = f (last l d).
Proof.
  induction l as [|x l IH]; intros H; [contradiction|].
  destruct l as [|y l]; [reflexivity|].
  change (last (map f (x :: y :: l)) d') with (last (map f (y :: l)) d').
  change (last (x :: y :: l) d) with (last (y :: l) d).
  apply IH; discriminate.
Qed.

Lemma stepsFrom_shift s d k :
  map (fun j => to_uint16 (s + d + d * Z.of_nat j)) (seq 0 k) =
  map to_uint16 (stepsFrom s d k).
Proof.
  unfold stepsFrom. rewrite <- seq_shift, !map_map.
  apply map_ext; intros j. f_equal. lia.
Qed.

Lemma stepsFrom_length s d k : length (stepsFrom s d k) = k.
Proof. unfold stepsFrom; rewrite length_map, length_seq; reflexivity. Qed.

(** The direction chosen by the move functions. *)
Lemma direction_sgn s t :
  t <> s -> (if s <? t then 1 else -1) = Z.sgn (t - s).
Proof. intros H; destruct (Z.ltb_spec s t); lia. Qed.

Lemma axisMove_steps env a t st clock fuel k :
  let s := position a st in
  let d := Z.sgn (t - s) in
  let n := Z.to_nat (Z.abs (t - s)) in
  stop st = false ->
  (1 <= k <= n)%nat ->
  (forall j, (S j < k)%nat -> hasStop (env (clock + j)%nat) = false) ->
  ((k < n)%nat -> hasStop (env (clock + (k - 1))%nat) = true) ->
  (n <= fuel)%nat ->
  exists st' tr,
    axisMove env a fuel t st clock = Some (st', tr, (clock + k)%nat) /\
    moving st' = false /\
    stop st' = (if (k <? n)%nat then false
                else hasStop (env (clock + (k - 1))%nat)) /\
    visited a tr = map to_uint16 (stepsFrom s d k) /\
    reported a tr = map percentOf (visited a tr) /\
    position a st' = to_uint16 (s + d * Z.of_nat k) /\
    percentage a st' = percentOf (position a st').
Proof.
  intros s d n Hs Hk Hquiet Hstop Hfuel.
  assert (Hne : t <> s) by lia.
  unfold axisMove. fold s.
  destruct (Z.eqb_spec t s) as [|_]; [contradiction|].
  assert (Hp1 : position a (set_moving true st) = s) by (destruct a; reflexivity).
  rewrite Hp1, (direction_sgn s t Hne). fold d.
  assert (Hd : d = 1 \/ d = -1) by (unfold d; lia).
  assert (Hdn : t - s = d * Z.of_nat n) by (unfold d, n; lia).
  assert (Hb : forall j, (j < k)%nat -> s + d + d * Z.of_nat j <> t + d)
    by (intros j Hj; nia).
  destruct (axisLoop_prefix env a d t (s + d) (set_moving true st) clock k
              Hs eq_refl Hquiet Hb)
    as (stm & trm & Hrun & Hmov & Hstm & Hvis & Hrep & Hpos & Hpct).
  replace fuel with (k + (fuel - k))%nat by lia.
  rewrite Hrun.
  destruct k as [|k]; [lia|].
  rewrite Hvis, last_map_seq in Hpos.
  assert (Hpc : percentage a stm = percentOf (position a stm)).
  { rewrite Hpct, Hrep, Hvis, map_map, last_map_seq, Hpos. reflexivity. }
  assert (Hpos' : position a stm = to_uint16 (s + d * Z.of_nat (S k)))
    by (rewrite Hpos; f_equal; lia).
  assert (Hvis' : forall tr0,
             visited a (DigitalWrite ledPin true
                          :: (trm ++ tr0) ++ [DigitalWrite ledPin false])
             = visited a trm ++ visited a tr0).
  { intros tr0. simpl. rewrite !visited_app. simpl. apply app_nil_r. }
  assert (Hrep' : forall tr0,
             reported a (DigitalWrite ledPin true
                           :: (trm ++ tr0) ++ [DigitalWrite ledPin false])
             = reported a trm ++ reported a tr0).
  { intros tr0. simpl. rewrite !reported_app. simpl. apply app_nil_r. }
  simpl Nat.sub in *. rewrite Nat.sub_0_r in *.
  destruct (Nat.ltb_spec (S k) n) as [Hlt|Hge].
  - (* a stop request arrived before the target *)
    destruct (fuel - S k)%nat as [|fuel'] eqn:Ef; [lia|].
    rewrite axisLoop_break; [| nia | rewrite Hstm; auto].
    eexists _, _; split; [reflexivity|].
    rewrite Hvis', Hrep', Hvis, Hrep, Hvis, stepsFrom_shift. simpl.
    rewrite !app_nil_r.
    repeat split; auto; destruct a; assumption.
  - (* the loop ran to its bound *)
    rewrite axisLoop_done by nia.
    eexists _, _; split; [reflexivity|].
    rewrite Hvis', Hrep', Hvis, Hrep, Hvis, stepsFrom_shift. simpl.
    rewrite !app_nil_r.
    repeat split; auto; destruct a; assumption.
Qed.

(** A motion started with the stop flag already up takes no step. *)
Lemma axisMove_stale_stop env a fuel t st clock :
  stop st = true -> t <> position a st ->
  axisMove env a (S fuel) t st clock =
  Some (set_moving false (set_stop false st),
        [DigitalWrite ledPin true; DigitalWrite ledPin false], clock).
Proof.
  intros Hs Hne. unfold axisMove.
  destruct (Z.eqb_spec t (position a st)) as [|_]; [contradiction|].
  rewrite axisLoop_break.
  - destruct st; reflexivity.
  - assert (position a (set_moving true st) = position a st) as ->
      by (destruct a; reflexivity).
    destruct (_ <? _); lia.
  - destruct a; assumption.
Qed.

(** A request for the position the axis already has is not a motion. *)
Lemma axisMove_same env a fuel st clock :
  axisMove env a fuel (position a st) st clock = Some (st, [], clock).
Proof. unfold axisMove; rewrite Z.eqb_refl; reflexivity. Qed.

(** ** Every motion, whatever the environment does *)

Lemma stepsTaken_spec env : forall n clock,
  (1 <= n)%nat ->
  let k := stepsTaken env clock n in
  (1 <= k <= n)%nat /\
  (forall j, (S j < k)%nat -> hasStop (env (clock + j)%nat) = false) /\
  ((k < n)%nat -> hasStop (env (clock + (k - 1))%nat) = true).
Proof.
  induction n as [|n IH]; intros clock Hn; [lia|].
  simpl. destruct (hasStop (env clock)) eqn:E.
  - repeat split; try lia.
    intros _. simpl. rewrite Nat.add_0_r. assumption.
  - destruct n as [|n].
    + simpl. repeat split; try lia.
    + destruct (IH (S clock)) as (Hk & Hq & Hs); [lia|].
      set (k := stepsTaken env (S clock) (S n)) in *.
      repeat split; try lia.
      * intros [|j] Hj.
        -- rewrite Nat.add_0_r; assumption.
        -- replace (clock + S j)%nat with (S clock + j)%nat by lia.
           apply Hq; lia.
      * intros Hlt.
        replace (clock + (S k - 1))%nat with (S clock + (k - 1))%nat by lia.
        apply Hs; lia.
Qed.

Lemma axisMove_any env a t st clock fuel :
  let s := position a st in
  let d := Z.sgn (t - s) in
  let n := Z.to_nat (Z.abs (t - s)) in
  (n <= fuel)%nat ->
  exists k st' tr,
    (k <= n)%nat /\
    axisMove env a fuel t st clock = Some (st', tr, (clock + k)%nat) /\
    visited a tr = map to_uint16 (stepsFrom s d k) /\
    reported a tr = map percentOf (visited a tr) /\
    position a st' = last (visited a tr) s /\
    percentage a st' = last (reported a tr) (percentage a st) /\
    (t <> s -> moving st' = false).
Proof.
  intros s d n Hfuel.
  destruct (Z.eq_dec t s) as [->|Hne].
  - exists 0%nat, st, []. rewrite Nat.add_0_r.
    repeat split; try lia; try reflexivity.
    apply axisMove_same.
  - assert (Hn : (1 <= n)%nat) by (unfold n; lia).
    destruct (stop st) eqn:Hs.
    + exists 0%nat. rewrite Nat.add_0_r.
      destruct fuel as [|fuel]; [lia|].
      rewrite axisMove_stale_stop by assumption.
      eexists _, _; repeat split; try lia; destruct a; reflexivity.
    + destruct (stepsTaken_spec env n clock Hn) as (Hk & Hq & Hst).
      set (k := stepsTaken env clock n) in *.
      destruct (axisMove_steps env a t st clock fuel k Hs Hk Hq Hst Hfuel)
        as (st' & tr & Hrun & Hmov & _ & Hvis & Hrep & Hpos & Hpct).
      exists k, st', tr. fold s d in Hvis, Hpos.
      assert (Hlast : last (visited a tr) s = to_uint16 (s + d * Z.of_nat k)).
      { rewrite Hvis. unfold stepsFrom. rewrite map_map.
        destruct k as [|k]; [lia|].
        rewrite <- seq_shift, map_map, last_map_seq. reflexivity. }
      repeat split; auto; try lia.
      rewrite Hpct, Hrep, Hpos, <- Hlast.
      symmetry; apply last_map_nonempty.
      rewrite Hvis. destruct k; [lia|]. discriminate.
Qed.

(** ** Invariants of a step loop *)

(** A property kept by every assignment of the loop and by every batch of
    callbacks holds when the loop returns. *)
Lemma axisLoop_preserves env a (P : State -> Prop) :
  (forall st v, P st -> P (set_position a v st)) ->
  (forall st v, P st -> P (set_percentage a v st)) ->
  (forall st, P st -> P (set_moving false (set_stop false st))) ->
  (forall st j, P st -> P (fst (deliver (env j) st))) ->
  forall fuel step t i st clock st' tr clock',
    P st ->
    axisLoop env a fuel step t i st clock = Some (st', tr, clock') ->
    P st'.
Proof.
  intros Hpos Hpct Hbrk Hdel.
  induction fuel as [|fuel IH]; intros step t i st clock st' tr clock' HP Hrun.
  - simpl in Hrun. destruct (i =? t + step); congruence.
  - loop_cases i t step st Hrun.
    + congruence.
    + inversion Hrun; subst. auto.
    + destruct (axisLoop env a fuel step t (i + step) _ _)
        as [[[s1 tr1] c1]|] eqn:E; [|discriminate].
      inversion Hrun; subst.
      eapply IH; [|exact E].
      apply Hdel. unfold afterStep. auto.
Qed.

Lemma axisMove_preserves env a (P : State -> Prop) :
  (forall st v, P st -> P (set_position a v st)) ->
  (forall st v, P st -> P (set_percentage a v st)) ->
  (forall st b, P st -> P (set_moving b st)) ->
  (forall st, P st -> P (set_stop false st)) ->
  (forall st j, P st -> P (fst (deliver (env j) st))) ->
  forall fuel t st clock st' tr clock',
    P st ->
    axisMove env a fuel t st clock = Some (st', tr, clock') ->
    P st'.
Proof.
  intros Hpos Hpct Hmov Hstp Hdel fuel t st clock st' tr clock' HP Hrun.
  unfold axisMove in Hrun.
  destruct (t =? position a st); [congruence|].
  destruct (axisLoop env a fuel _ t _ _ _) as [[[s1 tr1] c1]|] eqn:E;
    [|discriminate].
  inversion Hrun; subst.
  apply Hmov.
  eapply (axisLoop_preserves env a P Hpos Hpct); [| exact Hdel | | exact E].
  - intros st0 H0. apply Hmov, Hstp, H0.
  - apply Hmov, HP.
Qed.

(** The steps of one axis never appear in a motion of the other. *)
Lemma axisLoop_no_other_step env a b : a <> b ->
  forall fuel step t i st clock st' tr clock',
    axisLoop env a fuel step t i st clock = Some (st', tr, clock') ->
    Forall (fun e => isStepOf b e = false) tr.
Proof.
  intros Hab.
  induction fuel as [|fuel IH]; intros step t i st clock st' tr clock' Hrun.
  - simpl in Hrun. destruct (i =? t + step); inversion Hrun; constructor.
  - loop_cases i t step st Hrun.
    + inversion Hrun; constructor.
    + inversion Hrun; constructor.
    + destruct (axisLoop env a fuel step t (i + step) _ _)
        as [[[s1 tr1] c1]|] eqn:E; [|discriminate].
      inversion Hrun; subst.
      constructor; [destruct b; reflexivity|].
      constructor; [destruct a, b; try contradiction; reflexivity|].
      constructor; [destruct a, b; try contradiction; reflexivity|].
      constructor; [destruct b; reflexivity|].
      apply Forall_app; split; [apply deliver_trace|].
      eapply IH; eassumption.
Qed.

Lemma axisMove_no_other_step env a b fuel t st clock st' tr clock' :
  a <> b ->
  axisMove env a fuel t st clock = Some (st', tr, clock') ->
  Forall (fun e => isStepOf b e = false) tr.
Proof.
  intros Hab Hrun. unfold axisMove in Hrun.
  destruct (t =? position a st); [inversion Hrun; constructor|].
  destruct (axisLoop env a fuel _ t _ _ _) as [[[s1 tr1] c1]|] eqn:E;
    [|discriminate].
  inversion Hrun; subst.
  constructor; [destruct b; reflexivity|].
  apply Forall_app; split.
  - eapply axisLoop_no_other_step; eassumption.
  - constructor; [destruct b; reflexivity|constructor].
Qed.

(** More fuel never changes a result. *)
Lemma axisLoop_fuel_mono env a : forall fuel fuel' step t i st clock r,
  (fuel <= fuel')%nat ->
  axisLoop env a fuel step t i st clock = Some r ->
  axisLoop env a fuel' step t i st clock = Some r.
Proof.
  induction fuel as [|fuel IH]; intros fuel' step t i st clock r Hle Hrun.
  - simpl in Hrun. destruct (Z.eqb_spec i (t + step)); [|discriminate].
    rewrite axisLoop_done by assumption. assumption.
  - destruct fuel' as [|fuel']; [lia|].
    destruct (Z.eq_dec i (t + step)) as [Hi|Hi].
    + rewrite axisLoop_done in * by assumption. assumption.
    + destruct (stop st) eqn:Hs.
      * rewrite axisLoop_break in * by assumption. assumption.
      * rewrite axisLoop_step in * by assumption.
        destruct (axisLoop env a fuel step t (i + step) _ _)
          as [r1|] eqn:E; [|discriminate].
        rewrite (IH fuel' _ _ _ _ _ r1) by (assumption || lia).
        assumption.
Qed.

Lemma axisMove_fuel_mono env a fuel fuel' t st clock r :
  (fuel <= fuel')%nat ->
  axisMove env a fuel t st clock = Some r ->
  axisMove env a fuel' t st clock = Some r.
Proof.
  intros Hle Hrun. unfold axisMove in *.
  destruct (t =? position a st); [assumption|].
  destruct (axisLoop env a fuel _ t _ _ _) as [r1|] eqn:E; [|discriminate].
  rewrite (axisLoop_fuel_mono env a fuel fuel' _ _ _ _ _ r1) by assumption.
  assumption.
Qed.

(** ** Values inside the bounds of an axis *)

Lemma to_uint16_small z : 0 <= z < 65536 -> to_uint16 z = z.
Proof. intros H; unfold to_uint16; apply Z.mod_small; assumption. Qed.

Lemma axis_bounds a : 0 <= axisMin a /\ axisMax a <= 9.
Proof. destruct a; unfold axisMin, axisMax, MIN_LIFT, MAX_LIFT, MIN_TILT,
         MAX_TILT; lia. Qed.

Lemma percentOf_small v : 0 <= v <= 9 -> percentOf v = 100 * v / MAX_LIFT.
Proof.
  intros H. unfold percentOf, to_uint8, MAX_LIFT.
  rewrite Z.quot_div_nonneg by lia.
  replace (v * 100) with (100 * v) by lia.
  apply Z.mod_small.
  assert (0 <= 100 * v / 9) by (apply Z.div_pos; lia).
  assert (100 * v / 9 <= 100) by (apply Z.div_le_upper_bound; lia).
  lia.
Qed.

Lemma stepsFrom_between s t k x :
  (k <= Z.to_nat (Z.abs (t - s)))%nat ->
  In x (stepsFrom s (Z.sgn (t - s)) k) ->
  Z.min s t <= x <= Z.max s t.
Proof.
  unfold stepsFrom. intros Hk Hin.
  apply in_map_iff in Hin as (j & <- & Hj).
  apply in_seq in Hj. lia.
Qed.

Lemma stepsFrom_uint16 s t k :
  0 <= s <= 9 -> 0 <= t <= 9 ->
  (k <= Z.to_nat (Z.abs (t - s)))%nat ->
  map to_uint16 (stepsFrom s (Z.sgn (t - s)) k) = stepsFrom s (Z.sgn (t - s)) k.
Proof.
  intros Hs Ht Hk. rewrite <- (map_id (stepsFrom _ _ _)) at 2.
  apply map_ext_in. intros x Hx.
  apply (stepsFrom_between s t k x Hk) in Hx.
  apply to_uint16_small. lia.
Qed.

Lemma stepsFrom_cons s d k :
  stepsFrom s d (S k) = (s + d) :: stepsFrom (s + d) d k.
Proof.
  unfold stepsFrom. simpl. f_equal; [f_equal; lia|].
  rewrite <- seq_shift, map_map. apply map_ext. intros j. lia.
Qed.

Lemma stepsToward_stepsFrom t : forall k s,
  (k <= Z.to_nat (Z.abs (t - s)))%nat ->
  stepsToward t (s :: stepsFrom s (Z.sgn (t - s)) k).
Proof.
  induction k as [|k IH]; intros s Hk.
  - exact I.
  - rewrite stepsFrom_cons.
    change (s + Z.sgn (t - s) = s + Z.sgn (t - s) /\
            Z.abs (s + Z.sgn (t - s) - s) = 1 /\
            stepsToward t (s + Z.sgn (t - s)
                             :: stepsFrom (s + Z.sgn (t - s)) (Z.sgn (t - s)) k)).
    split; [reflexivity|]. split; [lia|].
    destruct k as [|k]; [exact I|].
    assert (E : Z.sgn (t - s) = Z.sgn (t - (s + Z.sgn (t - s)))) by lia.
    remember (s + Z.sgn (t - s)) as s' eqn:Es'.
    rewrite E. apply IH. lia.
Qed.

(** A motion between two positions inside the bounds of its axis, cut short
    after [k] steps or not at all. *)
Lemma axisMove_in_bounds env a t st clock fuel k :
  let s := position a st in
  let d := Z.sgn (t - s) in
  let n := Z.to_nat (Z.abs (t - s)) in
  axisMin a <= s <= axisMax a ->
  axisMin a <= t <= axisMax a ->
  stop st = false ->
  (1 <= k <= n)%nat ->
  (forall j, (S j < k)%nat -> hasStop (env (clock + j)%nat) = false) ->
  ((k < n)%nat -> hasStop (env (clock + (k - 1))%nat) = true) ->
  (n <= fuel)%nat ->
  exists st' tr,
    axisMove env a fuel t st clock = Some (st', tr, (clock + k)%nat) /\
    moving st' = false /\
    stop st' = (if (k <? n)%nat then false
                else hasStop (env (clock + (k - 1))%nat)) /\
    visited a tr = stepsFrom s d k /\
    reported a tr = map (fun v => 100 * v / MAX_LIFT) (visited a tr) /\
    position a st' = s + d * Z.of_nat k /\
    percentage a st' = 100 * position a st' / MAX_LIFT.
Proof.
  intros s d n Hs Ht Hstop Hk Hquiet Hlast Hfuel.
  pose proof (axis_bounds a) as [Hlo Hhi].
  destruct (axisMove_steps env a t st clock fuel k Hstop Hk Hquiet Hlast Hfuel)
    as (st' & tr & Hrun & Hmov & Hstp & Hvis & Hrep & Hpos & Hpct).
  fold s in Hvis, Hpos. fold d in Hvis, Hpos. fold n in Hstp.
  unfold d in Hvis. rewrite (stepsFrom_uint16 s t k) in Hvis by (fold n; lia).
  fold d in Hvis.
  assert (Hin : 0 <= s + d * Z.of_nat k <= 9) by (unfold d; lia).
  rewrite to_uint16_small in Hpos by lia.
  exists st', tr. repeat split; auto.
  - rewrite Hrep. apply map_ext_in. intros v Hv. rewrite Hvis in Hv.
    apply percentOf_small.
    apply (stepsFrom_between s t k v) in Hv; [lia | fold n; lia].
  - rewrite Hpct, Hpos. apply percentOf_small. assumption.
Qed.

Lemma pollKeys_frame inp st :
  currentLift (pollKeys inp st) = currentLift st /\
  currentTilt (pollKeys inp st) = currentTilt st /\
  moving (pollKeys inp st) = moving st /\
  stop (pollKeys inp st) = stop st.
Proof.
  unfold pollKeys.
  destruct (_ && _); simpl; destruct (_ && _); simpl; repeat split.
Qed.

(** Nothing lowers the stop flag while the motor is idle. *)
Lemma idleSteps_stop st st' :
  idleSteps st st' -> stop st = true -> stop st' = true.
Proof.
  induction 1 as [st | cs st st' _ IH | inp st st' _ IH | a st st' _ IH];
    intros Hs.
  - assumption.
  - apply IH, deliver_stop_kept, Hs.
  - apply IH. destruct (pollKeys_frame inp st) as (_ & _ & _ & ->). exact Hs.
  - apply IH. destruct a; exact Hs.
Qed.

(** What the percentage callbacks store: no conversion wraps. *)
Lemma stored_target p m :
  0 <= p <= 100 -> 0 <= m <= 9 ->
  to_int16 (to_uint16 (Z.quot (p * m) 100)) = p * m / 100.
Proof.
  intros Hp Hm. rewrite Z.quot_div_nonneg by nia.
  assert (0 <= p * m / 100) by (apply Z.div_pos; nia).
  assert (p * m / 100 <= 9) by (apply Z.div_le_upper_bound; nia).
  unfold to_int16. rewrite to_uint16_small by lia.
  rewrite Z.mod_small by lia. lia.
Qed.

(** * Properties of the step loops *)

(** C1.  From any start [s] to any target [t] inside the bounds of the axis,
    a motion that meets no stop request ends with the position exactly at
    [t]; it visits the [|t - s|] positions between them in order, each one
    unit from the one before it, in the direction of the target. *)
Theorem move_reaches_target env a t st clock fuel :
  axisMin a <= position a st <= axisMax a ->
  axisMin a <= t <= axisMax a ->
  stop st = false ->
  (forall j, (j < Z.to_nat (Z.abs (t - position a st)))%nat ->
             hasStop (env (clock + j)%nat) = false) ->
  Z.abs (t - position a st) <= Z.of_nat fuel ->
  exists st' tr clock',
    moveCovers env a fuel t st clock = Some (st', tr, clock') /\
    position a st' = t /\
    visited a tr = stepsBetween (position a st) t /\
    Z.of_nat (length (visited a tr)) = Z.abs (t - position a st) /\
    stepsToward t (position a st :: visited a tr).
Proof.
  intros Hs Ht Hstop Hquiet Hfuel.
  rewrite moveCovers_axisMove.
  set (s := position a st) in *.
  set (n := Z.to_nat (Z.abs (t - s))) in *.
  destruct (Z.eq_dec t s) as [Heq|Hne].
  - exists st, [], clock. subst t. fold s.
    unfold s at 1. rewrite axisMove_same.
    unfold stepsBetween. replace (s - s) with 0 by lia. simpl.
    repeat split; auto.
  - destruct (axisMove_in_bounds env a t st clock fuel n) as
      (st' & tr & Hrun & _ & _ & Hvis & _ & Hpos & _); fold s; fold n;
      try assumption; try lia.
    { intros j Hj; apply Hquiet; lia. }
    fold s in Hvis, Hpos. fold n in Hvis, Hpos.
    exists st', tr, (clock + n)%nat.
    split; [assumption|]. split; [|split; [|split]].
    + rewrite Hpos. lia.
    + assumption.
    + rewrite Hvis, stepsFrom_length. lia.
    + rewrite Hvis. apply stepsToward_stepsFrom. lia.
Qed.

Lemma move_reaches_target_witness :
  exists st' tr clock',
    moveCovers quiet Tilt 5%nat 0 initial 0%nat = Some (st', tr, clock') /\
    position Tilt st' = 0 /\
    visited Tilt tr = stepsBetween (position Tilt initial) 0 /\
    Z.of_nat (length (visited Tilt tr)) = Z.abs (0 - position Tilt initial) /\
    stepsToward 0 (position Tilt initial :: visited Tilt tr).
Proof.
  apply (move_reaches_target quiet Tilt 0 initial 0%nat 5%nat).
  - vm_compute; split; discriminate.
  - vm_compute; split; discriminate.
  - reflexivity.
  - intros j _; reflexivity.
  - vm_compute; discriminate.
Defined.

(** C10.  A request for the position the axis already has makes the move
    function return at once: the state is the one it was called with, no call
    to the LED, the display, the endpoint or the console is made and no delay
    elapses. *)
Theorem move_to_current_position_is_noop env a fuel st clock :
  moveCovers env a fuel (position a st) st clock = Some (st, [], clock).
Proof. rewrite moveCovers_axisMove. apply axisMove_same. Qed.

(** C4.  A stop request that arrives during the delay after the [k]-th step
    of a motion halts it there: the position is the one the [k]-th step
    reached, no further step is taken and the motor is idle again.  A stop
    request that arrives while the motor is idle changes nothing. *)
Theorem stop_halts_motion env a t st clock fuel k idle :
  axisMin a <= position a st <= axisMax a ->
  axisMin a <= t <= axisMax a ->
  stop st = false ->
  (1 <= k <= Z.to_nat (Z.abs (t - position a st)))%nat ->
  (forall j, (S j < k)%nat -> hasStop (env (clock + j)%nat) = false) ->
  hasStop (env (clock + (k - 1))%nat) = true ->
  (Z.to_nat (Z.abs (t - position a st)) <= fuel)%nat ->
  moving idle = false ->
  (exists st' tr,
      moveCovers env a fuel t st clock = Some (st', tr, (clock + k)%nat) /\
      visited a tr =
        stepsFrom (position a st) (Z.sgn (t - position a st)) k /\
      position a st' = last (visited a tr) (position a st) /\
      position a st' = position a st + Z.sgn (t - position a st) * Z.of_nat k /\
      moving st' = false) /\
  stopMotor idle = (idle, []).
Proof.
  intros Hs Ht Hstop Hk Hquiet Hlast Hfuel Hidle.
  split; [|apply stopMotor_idle; assumption].
  rewrite moveCovers_axisMove.
  destruct (axisMove_in_bounds env a t st clock fuel k)
    as (st' & tr & Hrun & Hmov & _ & Hvis & _ & Hpos & _); auto.
  exists st', tr. repeat split; auto.
  rewrite Hvis, Hpos. unfold stepsFrom.
  destruct k as [|k]; [lia|].
  rewrite <- seq_shift, map_map, last_map_seq. reflexivity.
Qed.

Lemma stop_halts_motion_witness :
  (exists st' tr,
      moveCovers stopAfterTwo Lift 5%nat 0 (set_currentLift 5 initial) 0%nat
        = Some (st', tr, 2%nat) /\
      visited Lift tr = [4; 3] /\
      position Lift st' = last (visited Lift tr) 5 /\
      position Lift st' = 3 /\
      moving st' = false) /\
  stopMotor initial = (initial, []).
Proof.
  apply (stop_halts_motion stopAfterTwo Lift 0 (set_currentLift 5 initial)
           0%nat 5%nat 2%nat initial).
  - vm_compute; split; discriminate.
  - vm_compute; split; discriminate.
  - reflexivity.
  - vm_compute; lia.
  - intros [|j] Hj; [reflexivity|lia].
  - reflexivity.
  - vm_compute; lia.
  - reflexivity.
Defined.

(** C5.  When the stop request arrives during the delay after the last step
    of a motion, the motion ends at its target with the stop flag still up.
    Nothing that happens while the motor is idle lowers the flag, so the next
    motion consumed, for either axis, breaks out of its loop at the first
    check: no step, no report, no delay in which a stop request could arrive,
    and the position stays where it was. *)
Theorem late_stop_cancels_next_motion env a t st clock fuel :
  axisMin a <= position a st <= axisMax a ->
  axisMin a <= t <= axisMax a ->
  t <> position a st ->
  stop st = false ->
  (forall j, (S j < Z.to_nat (Z.abs (t - position a st)))%nat ->
             hasStop (env (clock + j)%nat) = false) ->
  hasStop (env (clock + (Z.to_nat (Z.abs (t - position a st)) - 1))%nat)
    = true ->
  (Z.to_nat (Z.abs (t - position a st)) <= fuel)%nat ->
  exists st1 tr1,
    moveCovers env a fuel t st clock =
      Some (st1, tr1, (clock + Z.to_nat (Z.abs (t - position a st)))%nat) /\
    visited a tr1 = stepsBetween (position a st) t /\
    position a st1 = t /\
    moving st1 = false /\
    stop st1 = true /\
    forall next b t' clock' fuel',
      idleSteps st1 next ->
      t' <> position b next ->
      exists st2 tr2,
        moveCovers env b (S fuel') t' next clock' = Some (st2, tr2, clock') /\
        visited b tr2 = [] /\
        reported b tr2 = [] /\
        position b st2 = position b next /\
        stop st2 = false /\
        moving st2 = false.
Proof.
  intros Hs Ht Hne Hstop Hquiet Hlast Hfuel.
  set (n := Z.to_nat (Z.abs (t - position a st))) in *.
  rewrite moveCovers_axisMove.
  destruct (axisMove_in_bounds env a t st clock fuel n)
    as (st1 & tr1 & Hrun & Hmov & Hstp & Hvis & _ & Hpos & _);
    fold n; auto; try lia.
  fold n in Hstp. rewrite Nat.ltb_irrefl, Hlast in Hstp.
  exists st1, tr1.
  split; [assumption|]. split; [assumption|].
  split; [rewrite Hpos; fold n; lia|].
  split; [assumption|]. split; [assumption|].
  intros next b t' clock' fuel' Hidle Hne'.
  pose proof (idleSteps_stop _ _ Hidle Hstp) as Hnext.
  rewrite moveCovers_axisMove, axisMove_stale_stop by assumption.
  eexists _, _. split; [reflexivity|].
  destruct b; repeat split; reflexivity.
Qed.

Lemma late_stop_cancels_next_motion_witness :
  exists st1 tr1,
    moveCovers stopAtOnce Lift 1%nat 8 initial 0%nat
      = Some (st1, tr1, 1%nat) /\
    visited Lift tr1 = [8] /\
    position Lift st1 = 8 /\
    moving st1 = false /\
    stop st1 = true /\
    forall next b t' clock' fuel',
      idleSteps st1 next ->
      t' <> position b next ->
      exists st2 tr2,
        moveCovers stopAtOnce b (S fuel') t' next clock'
          = Some (st2, tr2, clock') /\
        visited b tr2 = [] /\
        reported b tr2 = [] /\
        position b st2 = position b next /\
        stop st2 = false /\
        moving st2 = false.
Proof.
  apply (late_stop_cancels_next_motion stopAtOnce Lift 8 initial 0%nat 1%nat).
  - vm_compute; split; discriminate.
  - vm_compute; split; discriminate.
  - vm_compute; discriminate.
  - reflexivity.
  - vm_compute; lia.
  - reflexivity.
  - vm_compute; lia.
Defined.

(** The same execution through the body of [loop]: both requests are
    pending, the Lift one is served, the Tilt one is dropped. *)
Example late_stop_drops_tilt_request :
  exists tr,
    loop stopAtOnce 1 (mkInput Released 1 1)
         (set_nextTilt 4 (set_nextLift 8 initial)) 0%nat
    = Some (Continue (set_currentLiftPercentage 88 (set_currentLift 8 initial))
                     tr 1%nat) /\
    visited Lift tr = [8] /\ visited Tilt tr = [].
Proof. eexists; vm_compute; repeat split. Qed.

(** C6, as the sketch has it.  A percentage between 0 and 100 becomes the
    pending target [percent * Max / 100] with the division truncated. *)
Theorem percent_to_target_truncates p st :
  0 <= p <= 100 ->
  fst (goToLiftPercentage p st) = set_nextLift (p * MAX_LIFT / 100) st /\
  fst (goToTiltPercentage p st) = set_nextTilt (p * MAX_TILT / 100) st.
Proof.
  intros Hp. unfold goToLiftPercentage, goToTiltPercentage; simpl.
  rewrite !stored_target by (unfold MAX_LIFT, MAX_TILT; lia).
  split; reflexivity.
Qed.

Lemma percent_to_target_truncates_witness :
  fst (goToLiftPercentage 50 initial) = set_nextLift 4 initial /\
  fst (goToTiltPercentage 50 initial) = set_nextTilt 2 initial.
Proof.
  apply (percent_to_target_truncates 50 initial). lia.
Defined.

(** C6 as stated fails: 50 percent of a Lift range of 9 is stored as 4, the
    rounded value is 5. *)
Lemma percent_to_target_not_rounded :
  specTarget 50 MAX_LIFT = 5 /\
  nextLift (fst (goToLiftPercentage 50 initial)) = 4 /\
  nextLift (fst (goToLiftPercentage 50 initial)) <> specTarget 50 MAX_LIFT.
Proof. vm_compute. repeat split; discriminate. Qed.

(** C3, as the sketch has it for Lift.  In every motion of the Lift axis
    between positions inside its bounds, whatever stop requests arrive, the
    percentage handed to the endpoint after a step is
    [100 * currentLift / MAX_LIFT] with the division truncated, and so is the
    stored percentage once a step was taken. *)
Theorem lift_percentage_truncates env t st clock fuel :
  MIN_LIFT <= currentLift st <= MAX_LIFT ->
  MIN_LIFT <= t <= MAX_LIFT ->
  Z.abs (t - currentLift st) <= Z.of_nat fuel ->
  exists st' tr clock',
    moveCoversLift env fuel t st clock = Some (st', tr, clock') /\
    reported Lift tr = map (fun v => 100 * v / MAX_LIFT) (visited Lift tr) /\
    (visited Lift tr <> [] ->
     currentLiftPercentage st' = 100 * currentLift st' / MAX_LIFT).
Proof.
  intros Hs Ht Hfuel.
  change (moveCoversLift env fuel t st clock)
    with (moveCovers env Lift fuel t st clock).
  rewrite moveCovers_axisMove.
  destruct (axisMove_any env Lift t st clock fuel)
    as (k & st' & tr & Hk & Hrun & Hvis & Hrep & Hpos & Hpct & _);
    [simpl; lia|].
  simpl position in *.
  unfold MIN_LIFT, MAX_LIFT in Hs, Ht.
  rewrite (stepsFrom_uint16 (currentLift st) t k) in Hvis by lia.
  assert (Hall : forall v, In v (visited Lift tr) -> 0 <= v <= 9).
  { intros v Hv. rewrite Hvis in Hv.
    apply (stepsFrom_between _ _ _ _ Hk) in Hv. lia. }
  assert (Hmap : reported Lift tr
                 = map (fun v => 100 * v / MAX_LIFT) (visited Lift tr)).
  { rewrite Hrep. apply map_ext_in. intros v Hv.
    apply percentOf_small, Hall, Hv. }
  exists st', tr, (clock + k)%nat. repeat split; auto.
  intros Hnil. simpl percentage in Hpct.
  rewrite Hpct, Hmap, Hpos.
  apply (last_map_nonempty (fun v => 100 * v / MAX_LIFT)). assumption.
Qed.

Lemma lift_percentage_truncates_witness :
  exists st' tr clock',
    moveCoversLift quiet 6 3 initial 0%nat = Some (st', tr, clock') /\
    reported Lift tr = map (fun v => 100 * v / MAX_LIFT) (visited Lift tr) /\
    (visited Lift tr <> [] ->
     currentLiftPercentage st' = 100 * currentLift st' / MAX_LIFT).
Proof.
  apply (lift_percentage_truncates quiet 3 initial 0%nat 6%nat).
  - vm_compute; split; discriminate.
  - vm_compute; split; discriminate.
  - vm_compute; discriminate.
Defined.

(** C3 as stated fails: after the Lift step from 9 to 8 the endpoint is
    given 88 where rounding [800 / 9] gives 89, and after the Tilt step from
    5 to 4 it is given 44 where [100 * 4 / MAX_TILT] is 80. *)
Lemma percentage_not_rounded_on_own_maximum :
  (exists st' tr clock',
      moveCoversLift quiet 1 8 initial 0%nat = Some (st', tr, clock') /\
      visited Lift tr = [8] /\
      reported Lift tr = [88] /\
      currentLiftPercentage st' = 88 /\
      specPercentage 8 MAX_LIFT = 89 /\
      reported Lift tr
        <> map (fun v => specPercentage v MAX_LIFT) (visited Lift tr)) /\
  (exists st' tr clock',
      moveCoversTilt quiet 1 4 initial 0%nat = Some (st', tr, clock') /\
      visited Tilt tr = [4] /\
      reported Tilt tr = [44] /\
      currentTiltPercentage st' = 44 /\
      specPercentage 4 MAX_TILT = 80 /\
      reported Tilt tr
        <> map (fun v => specPercentage v MAX_TILT) (visited Tilt tr)).
Proof.
  split; eexists _, _, _; (split; [vm_compute; reflexivity|]);
    vm_compute; repeat split; discriminate.
Qed.

(** ** The body of [loop] *)

Lemma serviceLift_serviceAxis env fuel st clock :
  serviceLift env fuel st clock = serviceAxis env Lift fuel st clock.
Proof.
  unfold serviceLift, serviceAxis. simpl pending.
  change (moveCoversLift env) with (moveCovers env Lift).
  rewrite moveCovers_axisMove. reflexivity.
Qed.

Lemma serviceTilt_serviceAxis env fuel st clock :
  serviceTilt env fuel st clock = serviceAxis env Tilt fuel st clock.
Proof.
  unfold serviceTilt, serviceAxis. simpl pending.
  change (moveCoversTilt env) with (moveCovers env Tilt).
  rewrite moveCovers_axisMove. reflexivity.
Qed.

Lemma serviceAxis_fuel_mono env a fuel fuel' st clock r :
  (fuel <= fuel')%nat ->
  serviceAxis env a fuel st clock = Some r ->
  serviceAxis env a fuel' st clock = Some r.
Proof.
  intros Hle Hrun. unfold serviceAxis in *.
  destruct (negb _); [|assumption].
  destruct (axisMove env a fuel _ st clock) as [r1|] eqn:E; [|discriminate].
  rewrite (axisMove_fuel_mono env a fuel fuel' _ _ _ r1) by assumption.
  assumption.
Qed.

Lemma serviceRequests_fuel_mono env fuel fuel' st clock r :
  (fuel <= fuel')%nat ->
  serviceRequests env fuel st clock = Some r ->
  serviceRequests env fuel' st clock = Some r.
Proof.
  intros Hle Hrun. unfold serviceRequests in *.
  rewrite serviceLift_serviceAxis in *.
  destruct (serviceAxis env Lift fuel st clock) as [[[st1 tr1] c1]|] eqn:E1;
    [|discriminate].
  rewrite (serviceAxis_fuel_mono _ _ _ fuel' _ _ _ Hle E1).
  rewrite serviceTilt_serviceAxis in *.
  destruct (serviceAxis env Tilt fuel st1 c1) as [r2|] eqn:E2; [|discriminate].
  rewrite (serviceAxis_fuel_mono _ _ _ fuel' _ _ _ Hle E2).
  assumption.
Qed.

Lemma loop_fuel_mono env fuel fuel' inp st clock r :
  (fuel <= fuel')%nat ->
  loop env fuel inp st clock = Some r ->
  loop env fuel' inp st clock = Some r.
Proof.
  intros Hle Hrun. unfold loop in *.
  destruct (checkButton (button inp)) as [[|] tr0]; [assumption|].
  destruct (serviceRequests env fuel _ clock) as [r1|] eqn:E; [|discriminate].
  rewrite (serviceRequests_fuel_mono _ _ fuel' _ _ _ Hle E); assumption.
Qed.

(** ** The button block *)

(** The waits of the button block are no step of either axis. *)
Lemma checkButton_no_step b a :
  Forall (fun e => isStepOf a e = false) (snd (checkButton b)).
Proof.
  assert (Hwaits : forall polls,
            Forall (fun e => isStepOf a e = false)
                   (repeat (Delay 50) polls)).
  { induction polls as [|polls IH]; simpl; constructor;
      [destruct a; reflexivity | assumption]. }
  destruct b as [|polls|polls]; simpl.
  - constructor.
  - constructor; [destruct a; reflexivity | apply Hwaits].
  - constructor; [destruct a; reflexivity|].
    apply Forall_app; split; [apply Hwaits|].
    repeat constructor; destruct a; reflexivity.
Qed.

Lemma visited_checkButton b a : visited a (snd (checkButton b)) = [].
Proof. apply noStep_visited, checkButton_no_step. Qed.

Lemma reported_checkButton b a : reported a (snd (checkButton b)) = [].
Proof. apply noStep_reported, checkButton_no_step. Qed.

(** Unless the button is held until the factory reset, the iteration goes on
    to the keys and the pending requests, after the waits of the button
    block. *)
Lemma loop_continue env fuel inp st clock st' tr clock' :
  (forall polls, button inp <> LongPress polls) ->
  serviceRequests env fuel (pollKeys inp st) clock = Some (st', tr, clock') ->
  loop env fuel inp st clock
    = Some (Continue st' (snd (checkButton (button inp)) ++ tr) clock').
Proof.
  intros Hbtn Hrun. unfold loop. rewrite Hrun.
  destruct (button inp) as [|polls|polls]; try reflexivity.
  exfalso. exact (Hbtn polls eq_refl).
Qed.

(** The keys of the display unit, not pressed. *)
Lemma pollKeys_released inp st :
  keyA inp <> 0 -> keyB inp <> 0 -> pollKeys inp st = st.
Proof.
  intros HA HB. unfold pollKeys.
  apply Z.eqb_neq in HA, HB. rewrite HA, HB. reflexivity.
Qed.

(** C2, as the sketch has it.  Lift at 9 with the pending target 3: one run
    of the loop body visits 8, 7, 6, 5, 4, 3, hands the endpoint the
    truncated percentages 88, 77, 66, 55, 44, 33 and leaves the motor idle
    at 3. *)
Theorem lift_scenario_truncated fuel :
  (6 <= fuel)%nat ->
  exists st' tr,
    loop quiet fuel (mkInput Released 1 1) (set_nextLift 3 initial) 0%nat
      = Some (Continue st' tr 6%nat) /\
    visited Lift tr = [8; 7; 6; 5; 4; 3] /\
    reported Lift tr = [88; 77; 66; 55; 44; 33] /\
    currentLift st' = 3 /\
    moving st' = false.
Proof.
  intros Hfuel.
  eexists _, _. split.
  - apply (loop_fuel_mono quiet 6 fuel); [assumption|].
    vm_compute. reflexivity.
  - vm_compute. repeat split.
Qed.

Lemma lift_scenario_truncated_witness :
  exists st' tr,
    loop quiet 6 (mkInput Released 1 1) (set_nextLift 3 initial) 0%nat
      = Some (Continue st' tr 6%nat) /\
    visited Lift tr = [8; 7; 6; 5; 4; 3] /\
    reported Lift tr = [88; 77; 66; 55; 44; 33] /\
    currentLift st' = 3 /\
    moving st' = false.
Proof.
  apply (lift_scenario_truncated 6). lia.
Defined.

(** C2 as stated fails: the percentages of the scenario are not the rounded
    ones. *)
Lemma lift_scenario_not_rounded :
  exists st' tr clock',
    loop quiet 6 (mkInput Released 1 1) (set_nextLift 3 initial) 0%nat
      = Some (Continue st' tr clock') /\
    visited Lift tr = [8; 7; 6; 5; 4; 3] /\
    map (fun v => specPercentage v MAX_LIFT) (visited Lift tr)
      = [89; 78; 67; 56; 44; 33] /\
    reported Lift tr <> [89; 78; 67; 56; 44; 33].
Proof.
  eexists _, _, _. split; [vm_compute; reflexivity|].
  vm_compute. repeat split. discriminate.
Qed.

(** ** Requests *)

Lemma dispatch_request c a st :
  requestAxis c = Some a -> validRequest c ->
  fst (dispatch c st) = set_pending a (requestTarget c) st.
Proof.
  intros Ha Hv.
  destruct c; simpl in Ha; inversion Ha; subst; simpl in *; try reflexivity;
    unfold goToLiftPercentage, goToTiltPercentage, to_uint8; simpl;
    rewrite Z.mod_small by lia;
    rewrite stored_target by (unfold MAX_LIFT, MAX_TILT; lia);
    reflexivity.
Qed.

Lemma position_set_pending a b v st :
  position a (set_pending b v st) = position a st.
Proof. destruct a, b; reflexivity. Qed.

Lemma pending_set_pending_same a v st : pending a (set_pending a v st) = v.
Proof. destruct a; reflexivity. Qed.

Lemma pending_set_pending_other a b v st :
  a <> b -> pending a (set_pending b v st) = pending a st.
Proof. destruct a, b; intros H; try contradiction; reflexivity. Qed.

(** A motion of one axis leaves the position of the other alone. *)
Lemma axisMove_other_position env a b fuel t st clock st' tr clock' :
  a <> b ->
  axisMove env a fuel t st clock = Some (st', tr, clock') ->
  position b st' = position b st.
Proof.
  intros Hab Hrun.
  apply (axisMove_preserves env a (fun x => position b x = position b st))
    with (7 := Hrun); try reflexivity.
  - intros x v Hx; rewrite <- Hx; destruct a, b; try contradiction; reflexivity.
  - intros x v Hx; rewrite <- Hx; destruct a, b; reflexivity.
  - intros x m Hx; rewrite <- Hx; destruct b; reflexivity.
  - intros x Hx; rewrite <- Hx; destruct b; reflexivity.
  - intros x j Hx; rewrite <- Hx.
    apply sameMotion_position, deliver_sameMotion.
Qed.

(** In a quiet environment a motion leaves the pending targets alone. *)
Lemma axisMove_quiet_pending env a b fuel t st clock st' tr clock' :
  (forall j, env j = []) ->
  axisMove env a fuel t st clock = Some (st', tr, clock') ->
  pending b st' = pending b st.
Proof.
  intros Hq Hrun.
  apply (axisMove_preserves env a (fun x => pending b x = pending b st))
    with (7 := Hrun); try reflexivity.
  - intros x v Hx; rewrite <- Hx; destruct a, b; reflexivity.
  - intros x v Hx; rewrite <- Hx; destruct a, b; reflexivity.
  - intros x m Hx; rewrite <- Hx; destruct b; reflexivity.
  - intros x Hx; rewrite <- Hx; destruct b; reflexivity.
  - intros x j Hx; rewrite Hq; assumption.
Qed.

(** Serving the pending request of an axis always returns, given fuel for
    the widest [uint16_t] motion. *)
Lemma serviceAxis_total env a fuel st clock :
  0 <= position a st < 65536 ->
  65535 <= Z.of_nat fuel ->
  exists st' tr clock',
    serviceAxis env a fuel st clock = Some (st', tr, clock') /\
    (forall b, a <> b ->
               Forall (fun e => isStepOf b e = false) tr /\
               position b st' = position b st) /\
    (moving st = false -> moving st' = false).
Proof.
  intros Hs Hfuel. unfold serviceAxis.
  destruct (negb (pending a st =? -1)).
  - set (t := to_uint16 (pending a st)).
    assert (Ht : 0 <= t < 65536) by (apply Z.mod_pos_bound; lia).
    destruct (axisMove_any env a t st clock fuel)
      as (k & st' & tr & _ & Hrun & _ & _ & _ & _ & Hmov); [lia|].
    rewrite Hrun.
    exists (set_pending a (-1) st'), tr, (clock + k)%nat.
    split; [reflexivity|]. split.
    + intros b Hab. split.
      * eapply axisMove_no_other_step; eassumption.
      * rewrite position_set_pending.
        eapply axisMove_other_position; eassumption.
    + intros Hidle.
      assert (moving st' = false).
      { destruct (Z.eq_dec t (position a st)) as [E|E]; [|auto].
        rewrite E, axisMove_same in Hrun. congruence. }
      destruct a; assumption.
  - exists st, [], clock. repeat split; auto.
Qed.

(** Serving the pending request of an axis in a quiet environment. *)
Lemma serviceAxis_quiet env a fuel st clock :
  (forall j, env j = []) ->
  wellFormed st ->
  stop st = false ->
  (9 <= fuel)%nat ->
  exists st' tr clock',
    serviceAxis env a fuel st clock = Some (st', tr, clock') /\
    stop st' = false /\
    pending a st' = -1 /\
    position a st' = (if pending a st =? -1 then position a st
                      else pending a st) /\
    (forall b, a <> b ->
               position b st' = position b st /\
               pending b st' = pending b st).
Proof.
  intros Hq Hwf Hstop Hfuel.
  pose proof (axis_bounds a) as [Hlo Hhi].
  destruct (Hwf a) as [Hs Hp].
  unfold serviceAxis.
  destruct (Z.eqb_spec (pending a st) (-1)) as [E|E]; simpl negb; cbv iota.
  - exists st, [], clock. repeat split; auto.
  - destruct Hp as [Hp|Hp]; [contradiction|].
    rewrite to_uint16_small by lia.
    set (t := pending a st) in *.
    destruct (Z.eq_dec t (position a st)) as [Heq|Hne].
    + rewrite Heq, axisMove_same.
      exists (set_pending a (-1) st), [], clock.
      split; [reflexivity|].
      split; [destruct a; assumption|].
      split; [apply pending_set_pending_same|].
      split; [apply position_set_pending|].
      intros b Hab. split; [apply position_set_pending|].
      apply pending_set_pending_other; congruence.
    + set (n := Z.to_nat (Z.abs (t - position a st))).
      destruct (axisMove_in_bounds env a t st clock fuel n)
        as (st' & tr & Hrun & _ & Hstp & _ & _ & Hpos & _);
        fold n; auto; try lia.
      { intros j _. rewrite Hq. reflexivity. }
      fold n in Hstp, Hpos.
      rewrite Nat.ltb_irrefl, Hq in Hstp.
      rewrite Hrun.
      exists (set_pending a (-1) st'), tr, (clock + n)%nat.
      split; [reflexivity|].
      split; [destruct a; assumption|].
      split; [apply pending_set_pending_same|].
      split; [rewrite position_set_pending, Hpos; lia|].
      intros b Hab. split.
      * rewrite position_set_pending.
        eapply axisMove_other_position; eassumption.
      * rewrite pending_set_pending_other by congruence.
        eapply axisMove_quiet_pending; eassumption.
Qed.

Lemma serviceAxis_quiet_wellFormed env a fuel st clock st' tr clock' :
  (forall j, env j = []) ->
  wellFormed st -> stop st = false -> (9 <= fuel)%nat ->
  serviceAxis env a fuel st clock = Some (st', tr, clock') ->
  wellFormed st'.
Proof.
  intros Hq Hwf Hstop Hfuel Hrun.
  destruct (serviceAxis_quiet env a fuel st clock Hq Hwf Hstop Hfuel)
    as (st1 & tr1 & c1 & Hrun1 & _ & Hpend & Hpos & Hother).
  rewrite Hrun in Hrun1. inversion Hrun1; subst st1 tr1 c1.
  intros b. destruct (Hwf b) as [Hb1 Hb2].
  assert (Hdec : a = b \/ a <> b) by (destruct a, b; auto; right; discriminate).
  destruct Hdec as [<-|Hab].
  - split; [|left; assumption].
    rewrite Hpos. destruct (Z.eqb_spec (pending a st) (-1)); [assumption|].
    destruct Hb2; [contradiction|assumption].
  - destruct (Hother b Hab) as [-> ->]. split; assumption.
Qed.

Lemma requestTarget_bounds c a :
  requestAxis c = Some a -> validRequest c ->
  axisMin a <= requestTarget c <= axisMax a.
Proof.
  intros Ha Hv.
  destruct c; simpl in *; inversion Ha; subst; simpl;
    unfold MIN_LIFT, MAX_LIFT, MIN_TILT, MAX_TILT; try lia.
  - split; [apply Z.div_pos; lia | apply Z.div_le_upper_bound; lia].
  - split; [apply Z.div_pos; lia | apply Z.div_le_upper_bound; lia].
Qed.

Lemma wellFormed_set_pending a v st :
  wellFormed st -> axisMin a <= v <= axisMax a ->
  wellFormed (set_pending a v st).
Proof.
  intros Hwf Hv b. destruct (Hwf b) as [Hb1 Hb2].
  rewrite position_set_pending. split; [assumption|].
  destruct a, b; simpl; auto.
Qed.

(** A callback never stores the empty mark in a pending slot. *)
Lemma dispatch_keeps_pending c st b :
  pending b st <> -1 -> pending b (fst (dispatch c st)) <> -1.
Proof.
  intros Hp.
  assert (Hstore : forall p m, 0 <= m <= 9 ->
            to_int16 (to_uint16 (Z.quot (to_uint8 p * m) 100)) <> -1).
  { intros p m Hm. unfold to_uint8.
    pose proof (Z.mod_pos_bound p 256 ltac:(lia)) as Hq.
    rewrite Z.quot_div_nonneg by nia.
    assert (0 <= p mod 256 * m / 100 < 23).
    { split; [apply Z.div_pos; nia|].
      apply Z.div_lt_upper_bound; nia. }
    unfold to_uint16, to_int16.
    rewrite (Z.mod_small (p mod 256 * m / 100)) by lia.
    rewrite Z.mod_small by lia. lia. }
  destruct c; simpl.
  - destruct b; [discriminate | exact Hp].
  - destruct b; [discriminate | exact Hp].
  - destruct b; [apply Hstore; unfold MAX_LIFT; lia | exact Hp].
  - destruct b; [exact Hp | apply Hstore; unfold MAX_TILT; lia].
  - unfold stopMotor. destruct (moving st); destruct b; exact Hp.
Qed.

Lemma deliver_keeps_pending cs b : forall st,
  pending b st <> -1 -> pending b (fst (deliver cs st)) <> -1.
Proof.
  induction cs as [|c cs IH]; intros st Hp; simpl; [assumption|].
  pose proof (dispatch_keeps_pending c st b Hp) as H1.
  destruct (dispatch c st) as [st1 tr1]; simpl in H1.
  pose proof (IH st1 H1) as H2.
  destruct (deliver cs st1) as [st2 tr2]; simpl in *; assumption.
Qed.

(** A request pending for the other axis is still pending after a motion. *)
Lemma axisMove_keeps_pending env a b fuel t st clock st' tr clock' :
  pending b st <> -1 ->
  axisMove env a fuel t st clock = Some (st', tr, clock') ->
  pending b st' <> -1.
Proof.
  intros Hp Hrun.
  apply (axisMove_preserves env a (fun x => pending b x <> -1))
    with (7 := Hrun); try assumption.
  - intros x v Hx; destruct a, b; exact Hx.
  - intros x v Hx; destruct a, b; exact Hx.
  - intros x m Hx; destruct b; exact Hx.
  - intros x Hx; destruct b; exact Hx.
  - intros x j Hx; apply deliver_keeps_pending; exact Hx.
Qed.

Lemma stepsFrom_in_range s t k :
  0 <= s < 65536 -> 0 <= t < 65536 ->
  (k <= Z.to_nat (Z.abs (t - s)))%nat ->
  map to_uint16 (stepsFrom s (Z.sgn (t - s)) k)
  = stepsFrom s (Z.sgn (t - s)) k.
Proof.
  intros Hs Ht Hk. rewrite <- (map_id (stepsFrom _ _ _)) at 2.
  apply map_ext_in. intros x Hx.
  apply (stepsFrom_between s t k x Hk) in Hx.
  apply to_uint16_small. lia.
Qed.

(** Serving a pending request, whatever the environment does: the axis
    steps towards the target until it is there or a stop request cancels
    the motion, and the slot is empty afterwards. *)
Lemma serviceAxis_served env a fuel st clock :
  0 <= position a st < 65536 ->
  65535 <= Z.of_nat fuel ->
  pending a st <> -1 ->
  exists st' tr k,
    serviceAxis env a fuel st clock = Some (st', tr, (clock + k)%nat) /\
    visited a tr
      = stepsFrom (position a st)
                  (Z.sgn (to_uint16 (pending a st) - position a st)) k /\
    (completed (position a st) (to_uint16 (pending a st)) k (position a st')
     \/ cancelled env st clock (position a st) (to_uint16 (pending a st)) k
                  (position a st')) /\
    pending a st' = -1 /\
    (moving st = false -> moving st' = false) /\
    (forall b, a <> b ->
               Forall (fun e => isStepOf b e = false) tr /\
               position b st' = position b st /\
               (pending b st <> -1 -> pending b st' <> -1)).
Proof.
  intros Hs Hfuel Hpend. unfold serviceAxis.
  destruct (Z.eqb_spec (pending a st) (-1)) as [|_]; [contradiction|].
  simpl negb; cbv iota.
  set (s := position a st) in *.
  set (t := to_uint16 (pending a st)).
  assert (Ht : 0 <= t < 65536) by (apply Z.mod_pos_bound; lia).
  set (n := Z.to_nat (Z.abs (t - s))).
  assert (Hother : forall st1 tr1 c1,
            axisMove env a fuel t st clock = Some (st1, tr1, c1) ->
            forall b, a <> b ->
              Forall (fun e => isStepOf b e = false) tr1 /\
              position b (set_pending a (-1) st1) = position b st /\
              (pending b st <> -1 ->
               pending b (set_pending a (-1) st1) <> -1)).
  { intros st1 tr1 c1 Hrun b Hab. split; [|split].
    - eapply axisMove_no_other_step; eassumption.
    - rewrite position_set_pending.
      eapply axisMove_other_position; eassumption.
    - intros Hb. rewrite pending_set_pending_other by congruence.
      eapply axisMove_keeps_pending; eassumption. }
  destruct (Z.eq_dec t s) as [Heq|Hne].
  - assert (Hrun : axisMove env a fuel t st clock = Some (st, [], clock))
      by (rewrite Heq; apply axisMove_same).
    rewrite Hrun.
    exists (set_pending a (-1) st), [], 0%nat. rewrite Nat.add_0_r.
    split; [reflexivity|]. split; [reflexivity|].
    split.
    { left. split; [rewrite Heq, Z.sub_diag; reflexivity|].
      rewrite position_set_pending. symmetry; exact Heq. }
    split; [apply pending_set_pending_same|].
    split; [intros Hm; destruct a; exact Hm|].
    exact (Hother _ _ _ Hrun).
  - assert (Hn : (1 <= n)%nat) by (unfold n; lia).
    destruct (stop st) eqn:Hstop.
    + destruct fuel as [|fuel]; [lia|].
      pose proof (axisMove_stale_stop env a fuel t st clock Hstop Hne) as Hrun.
      rewrite Hrun.
      exists (set_pending a (-1) (set_moving false (set_stop false st))),
        [DigitalWrite ledPin true; DigitalWrite ledPin false], 0%nat.
      rewrite Nat.add_0_r.
      split; [reflexivity|]. split; [destruct a; reflexivity|].
      split.
      { right. unfold cancelled. rewrite Hstop. fold n.
        split; [lia|]. split; [|reflexivity].
        rewrite position_set_pending.
        replace (position a (set_moving false (set_stop false st))) with s
          by (destruct a; reflexivity).
        simpl. lia. }
      split; [apply pending_set_pending_same|].
      split; [intros _; destruct a; reflexivity|].
      exact (Hother _ _ _ Hrun).
    + destruct (stepsTaken_spec env n clock Hn) as (Hk & Hq & Hst).
      set (k := stepsTaken env clock n) in *.
      destruct (axisMove_steps env a t st clock fuel k Hstop Hk Hq Hst)
        as (st' & tr & Hrun & Hmov & _ & Hvis & _ & Hpos & _);
        [fold s n; lia|].
      fold s in Hvis, Hpos.
      rewrite (stepsFrom_in_range s t k) in Hvis by (fold n; lia).
      rewrite Hrun.
      exists (set_pending a (-1) st'), tr, k.
      split; [reflexivity|]. split; [exact Hvis|].
      split.
      { rewrite position_set_pending, Hpos.
        destruct (Nat.eq_dec k n) as [Hkn|Hkn].
        - left. split; [exact Hkn|].
          rewrite Hkn. unfold n.
          replace (s + Z.sgn (t - s) * Z.of_nat (Z.to_nat (Z.abs (t - s))))
            with t by lia.
          apply to_uint16_small; assumption.
        - right. unfold cancelled. rewrite Hstop. fold n.
          split; [lia|]. split.
          + apply to_uint16_small. unfold n in Hk. lia.
          + split; [lia | apply Hst; lia]. }
      split; [apply pending_set_pending_same|].
      split; [intros _; destruct a; exact Hmov|].
      exact (Hother _ _ _ Hrun).
Qed.

(** * Properties of the body of [loop] *)

(** C8.  In one run of the loop body entered with a request pending for
    each axis, the Lift request is served first and fully: the blind steps
    towards the Lift target until it is there or a stop request cancels the
    motion, and the Lift slot is emptied.  Only then does the Tilt request
    begin, from the Tilt position the iteration started with, and it is
    served in the same way.  The trace of the iteration is the waits of the
    button block, then the Lift phase, then the Tilt phase; no Tilt step
    occurs before the end of the Lift phase and no Lift step after it. *)
Theorem loop_serves_lift_before_tilt env fuel inp st clock :
  0 <= currentLift st < 65536 ->
  0 <= currentTilt st < 65536 ->
  (forall polls, button inp <> LongPress polls) ->
  65535 <= Z.of_nat fuel ->
  nextLift (pollKeys inp st) <> -1 ->
  nextTilt st <> -1 ->
  exists stL trL kL st' trT kT,
    let st0 := pollKeys inp st in
    let sL := currentLift st in
    let tL := to_uint16 (nextLift st0) in
    let sT := currentTilt st in
    let tT := to_uint16 (nextTilt stL) in
    loop env fuel inp st clock
      = Some (Continue st' (snd (checkButton (button inp)) ++ trL ++ trT)
                       (clock + kL + kT)%nat) /\
    serviceLift env fuel st0 clock = Some (stL, trL, (clock + kL)%nat) /\
    visited Lift trL = stepsFrom sL (Z.sgn (tL - sL)) kL /\
    (completed sL tL kL (currentLift stL) \/
     cancelled env st0 clock sL tL kL (currentLift stL)) /\
    nextLift stL = -1 /\
    Forall (fun e => isStepOf Tilt e = false)
           (snd (checkButton (button inp)) ++ trL) /\
    currentTilt stL = sT /\
    nextTilt stL <> -1 /\
    serviceTilt env fuel stL (clock + kL)%nat
      = Some (st', trT, (clock + kL + kT)%nat) /\
    visited Tilt trT = stepsFrom sT (Z.sgn (tT - sT)) kT /\
    (completed sT tT kT (currentTilt st') \/
     cancelled env stL (clock + kL)%nat sT tT kT (currentTilt st')) /\
    nextTilt st' = -1 /\
    Forall (fun e => isStepOf Lift e = false) trT /\
    currentLift st' = currentLift stL /\
    (moving st = false -> moving stL = false /\ moving st' = false).
Proof.
  intros HL HT Hbtn Hfuel HpL HpT.
  destruct (pollKeys_frame inp st) as (HkL & HkT & Hkm & _).
  assert (HpT0 : nextTilt (pollKeys inp st) = nextTilt st).
  { unfold pollKeys. destruct (_ && _); simpl; destruct (_ && _); reflexivity. }
  destruct (serviceAxis_served env Lift fuel (pollKeys inp st) clock)
    as (stL & trL & kL & HrunL & HvisL & HendL & HslotL & HmovL & HotherL);
    [simpl; rewrite HkL; assumption | assumption | exact HpL |].
  destruct (HotherL Tilt) as (HtrL & HposL & HpendL); [discriminate|].
  simpl in HvisL, HendL, HslotL, HposL, HpendL.
  rewrite HkL in HvisL, HendL. rewrite HkT in HposL. rewrite HpT0 in HpendL.
  specialize (HpendL HpT).
  destruct (serviceAxis_served env Tilt fuel stL (clock + kL)%nat)
    as (st' & trT & kT & HrunT & HvisT & HendT & HslotT & HmovT & HotherT);
    [simpl; rewrite HposL; assumption | assumption | exact HpendL |].
  destruct (HotherT Lift) as (HtrT & HposT & _); [discriminate|].
  simpl in HvisT, HendT, HslotT, HposT.
  rewrite HposL in HvisT, HendT.
  exists stL, trL, kL, st', trT, kT. cbv zeta.
  rewrite serviceLift_serviceAxis, serviceTilt_serviceAxis.
  split.
  { apply loop_continue; [exact Hbtn|].
    unfold serviceRequests.
    rewrite serviceLift_serviceAxis, HrunL, serviceTilt_serviceAxis, HrunT.
    reflexivity. }
  split; [exact HrunL|]. split; [exact HvisL|]. split; [exact HendL|].
  split; [exact HslotL|].
  split; [apply Forall_app; split; [apply checkButton_no_step | exact HtrL]|].
  split; [exact HposL|]. split; [exact HpendL|].
  split; [exact HrunT|]. split; [exact HvisT|]. split; [exact HendT|].
  split; [exact HslotT|]. split; [exact HtrT|]. split; [exact HposT|].
  intros Hidle.
  assert (HmL : moving stL = false) by (apply HmovL; rewrite Hkm; exact Hidle).
  split; [exact HmL | exact (HmovT HmL)].
Qed.

Lemma loop_serves_lift_before_tilt_witness :
  exists stL trL kL st' trT kT,
    let st := set_nextTilt 4 (set_nextLift 7 initial) in
    let inp := mkInput (ShortPress 2) 1 1 in
    let st0 := pollKeys inp st in
    let sL := currentLift st in
    let tL := to_uint16 (nextLift st0) in
    let sT := currentTilt st in
    let tT := to_uint16 (nextTilt stL) in
    loop stopAtOnce (Z.to_nat 65535) inp st 0%nat
      = Some (Continue st' (snd (checkButton (button inp)) ++ trL ++ trT)
                       (0 + kL + kT)%nat) /\
    serviceLift stopAtOnce (Z.to_nat 65535) st0 0%nat
      = Some (stL, trL, (0 + kL)%nat) /\
    visited Lift trL = stepsFrom sL (Z.sgn (tL - sL)) kL /\
    (completed sL tL kL (currentLift stL) \/
     cancelled stopAtOnce st0 0%nat sL tL kL (currentLift stL)) /\
    nextLift stL = -1 /\
    Forall (fun e => isStepOf Tilt e = false)
           (snd (checkButton (button inp)) ++ trL) /\
    currentTilt stL = sT /\
    nextTilt stL <> -1 /\
    serviceTilt stopAtOnce (Z.to_nat 65535) stL (0 + kL)%nat
      = Some (st', trT, (0 + kL + kT)%nat) /\
    visited Tilt trT = stepsFrom sT (Z.sgn (tT - sT)) kT /\
    (completed sT tT kT (currentTilt st') \/
     cancelled stopAtOnce stL (0 + kL)%nat sT tT kT (currentTilt st')) /\
    nextTilt st' = -1 /\
    Forall (fun e => isStepOf Lift e = false) trT /\
    currentLift st' = currentLift stL /\
    (moving st = false -> moving stL = false /\ moving st' = false).
Proof.
  apply (loop_serves_lift_before_tilt stopAtOnce (Z.to_nat 65535)
           (mkInput (ShortPress 2) 1 1)
           (set_nextTilt 4 (set_nextLift 7 initial)) 0%nat).
  - simpl; unfold MAX_LIFT; lia.
  - simpl; unfold MAX_TILT; lia.
  - intros polls; simpl; discriminate.
  - lia.
  - vm_compute; discriminate.
  - vm_compute; discriminate.
Defined.

(** Lift asked to go from 9 to 7 and Tilt from 5 to 4 after a short press
    of the button: the button waits, one Lift step to 8 cancelled by the
    stop request, and only then the Tilt step to 4. *)
Example lift_cancelled_then_tilt_served :
  exists st' tr,
    loop stopAtOnce 2 (mkInput (ShortPress 2) 1 1)
         (set_nextTilt 4 (set_nextLift 7 initial)) 0%nat
      = Some (Continue st' tr 2%nat) /\
    filter (fun e => isStepOf Lift e || isStepOf Tilt e) tr
      = [SetLiftPercentage 88; LogLifting 8;
         SetTiltPercentage 44; LogTilting 4] /\
    firstn 3 tr = [Delay 100; Delay 50; Delay 50] /\
    currentLift st' = 8 /\ currentTilt st' = 4 /\
    nextLift st' = -1 /\ nextTilt st' = -1.
Proof.
  eexists _, _. split; [vm_compute; reflexivity|].
  vm_compute. repeat split.
Qed.

(** C7.  Two requests for the same axis, the second issued before the first
    is consumed, leave the state the second alone would leave: the axis has
    one pending target, that of the second request, and the run of the loop
    body that consumes it ends with the axis at that target, not at the
    overwritten one. *)
Theorem last_request_wins env a r1 r2 st inp clock fuel :
  requestAxis r1 = Some a ->
  requestAxis r2 = Some a ->
  validRequest r2 ->
  wellFormed st ->
  stop st = false ->
  (forall j, env j = []) ->
  keyA inp <> 0 -> keyB inp <> 0 ->
  (forall polls, button inp <> LongPress polls) ->
  (9 <= fuel)%nat ->
  fst (dispatch r2 (fst (dispatch r1 st))) = fst (dispatch r2 st) /\
  pending a (fst (dispatch r2 (fst (dispatch r1 st)))) = requestTarget r2 /\
  exists st' tr clock',
    loop env fuel inp (fst (dispatch r2 (fst (dispatch r1 st)))) clock
      = Some (Continue st' tr clock') /\
    position a st' = requestTarget r2 /\
    pending a st' = -1 /\
    (requestTarget r1 <> requestTarget r2 ->
     position a st' <> requestTarget r1).
Proof.
  intros H1 H2 Hv Hwf Hstop Hq HA HB Hbtn Hfuel.
  assert (Hover : fst (dispatch r2 (fst (dispatch r1 st)))
                  = fst (dispatch r2 st)).
  { destruct r1, r2; simpl in H1, H2; try discriminate;
      inversion H1; subst; try discriminate; reflexivity. }
  rewrite Hover, (dispatch_request r2 a st H2 Hv).
  pose proof (requestTarget_bounds r2 a H2 Hv) as Hb.
  pose proof (axis_bounds a) as [Hlo Hhi].
  set (t := requestTarget r2) in *.
  set (st2 := set_pending a t st).
  assert (Hwf2 : wellFormed st2) by (apply wellFormed_set_pending; assumption).
  assert (Hstop2 : stop st2 = false) by (destruct a; assumption).
  split; [reflexivity|]. split; [apply pending_set_pending_same|].
  destruct (serviceAxis_quiet env Lift fuel st2 clock Hq Hwf2 Hstop2 Hfuel)
    as (st3 & tr3 & c3 & Hrun3 & Hstop3 & Hpend3 & Hpos3 & Hother3).
  pose proof (serviceAxis_quiet_wellFormed env Lift fuel st2 clock st3 tr3 c3
                Hq Hwf2 Hstop2 Hfuel Hrun3) as Hwf3.
  destruct (serviceAxis_quiet env Tilt fuel st3 c3 Hq Hwf3 Hstop3 Hfuel)
    as (st4 & tr4 & c4 & Hrun4 & Hstop4 & Hpend4 & Hpos4 & Hother4).
  exists st4, (snd (checkButton (button inp)) ++ tr3 ++ tr4), c4.
  split.
  { apply loop_continue; [exact Hbtn|]. unfold serviceRequests.
    rewrite (pollKeys_released inp st2 HA HB), serviceLift_serviceAxis,
      Hrun3, serviceTilt_serviceAxis, Hrun4.
    reflexivity. }
  assert (Hfin : position a st4 = t /\ pending a st4 = -1).
  { destruct a.
    - destruct (Hother4 Lift) as [-> ->]; [discriminate|].
      rewrite Hpos3. simpl pending at 1. unfold st2 at 1. simpl nextLift.
      destruct (Z.eqb_spec t (-1)); [lia|].
      split; [reflexivity | assumption].
    - destruct (Hother3 Tilt) as [Hp3 Hn3]; [discriminate|].
      rewrite Hpos4, Hn3. simpl pending at 1. unfold st2 at 1. simpl nextTilt.
      destruct (Z.eqb_spec t (-1)); [lia|].
      split; [reflexivity | assumption]. }
  destruct Hfin as [Hp Hn].
  repeat split; auto. rewrite Hp. auto.
Qed.

Lemma last_request_wins_witness :
  fst (dispatch (OnGoToTiltPercentage 40)
         (fst (dispatch (OnGoToTiltPercentage 80) initial)))
    = fst (dispatch (OnGoToTiltPercentage 40) initial) /\
  pending Tilt (fst (dispatch (OnGoToTiltPercentage 40)
                       (fst (dispatch (OnGoToTiltPercentage 80) initial))))
    = 2 /\
  exists st' tr clock',
    loop quiet 9 (mkInput Released 1 1)
         (fst (dispatch (OnGoToTiltPercentage 40)
                 (fst (dispatch (OnGoToTiltPercentage 80) initial)))) 0%nat
      = Some (Continue st' tr clock') /\
    position Tilt st' = 2 /\
    pending Tilt st' = -1 /\
    (requestTarget (OnGoToTiltPercentage 80)
       <> requestTarget (OnGoToTiltPercentage 40) ->
     position Tilt st' <> 4).
Proof.
  apply (last_request_wins quiet Tilt (OnGoToTiltPercentage 80)
           (OnGoToTiltPercentage 40) initial (mkInput Released 1 1)
           0%nat 9%nat).
  - reflexivity.
  - reflexivity.
  - simpl; lia.
  - intros [|]; vm_compute; split; try (split; discriminate); left; reflexivity.
  - reflexivity.
  - intros j; reflexivity.
  - simpl; discriminate.
  - simpl; discriminate.
  - simpl; discriminate.
  - lia.
Defined.

End CoveringProofs.

(** * The measurement cycle: proofs *)

Module Demo3Proofs.

Import Demo3.

Section Cycle.

Context {float : Type} (fzero : float) {Sensor : Type}.
Variable sensor : Driver float Sensor.

(** ** The button block and the end of the cycle *)

Lemma commandsSent_app (tr1 tr2 : Trace float) :
  commandsSent (tr1 ++ tr2) = commandsSent tr1 ++ commandsSent tr2.
Proof.
  induction tr1 as [|e tr1 IH]; [reflexivity|].
  destruct e; simpl; rewrite ?IH; reflexivity.
Qed.

(** The button block calls no endpoint and sends the sensor nothing. *)
Lemma checkButton_quiet (b : Button) :
  Forall (fun e : Event float => isEndpointCall e = false)
         (snd (checkButton b)) /\
  commandsSent (snd (checkButton (float := float) b)) = [].
Proof.
  assert (Hwaits : forall polls,
            Forall (fun e : Event float => isEndpointCall e = false)
                   (repeat (Delay 50) polls) /\
            commandsSent (repeat (Delay (float := float) 50) polls) = []).
  { induction polls as [|polls [IH1 IH2]]; simpl; split;
      try constructor; auto. }
  destruct b as [|polls|polls]; simpl.
  - split; [constructor | reflexivity].
  - destruct (Hwaits polls) as [H1 H2].
    split; [constructor; [reflexivity | exact H1] | exact H2].
  - destruct (Hwaits polls) as [H1 H2]. split.
    + constructor; [reflexivity|].
      apply Forall_app; split; [exact H1 | repeat constructor].
    + rewrite commandsSent_app, H2. reflexivity.
Qed.

(** Unless the button is held until the factory reset, the cycle measures
    after the waits of the button block and then goes to sleep. *)
Lemma cycle_continue (b : Button) (s : Sensor) (st : State float) :
  (forall polls, b <> LongPress polls) ->
  loop fzero sensor b s st =
    (Some (fst (meausureAndReport fzero sensor s st)),
     snd (checkButton b) ++ snd (meausureAndReport fzero sensor s st)
     ++ [LogSleep; DigitalWrite ledPin false; DeepSleepStart]).
Proof.
  intros Hb. unfold loop.
  destruct (meausureAndReport fzero sensor s st) as [[s' st'] tr].
  destruct b as [|polls|polls]; try reflexivity.
  exfalso. exact (Hb polls eq_refl).
Qed.

(** C9.  When the wake-up, the discarded first measurement or the read-out
    returns a nonzero error code, the cycle prints that error and ends: the
    temperature, humidity and CO2 values of the endpoints are the ones they
    had, no endpoint is updated or asked to report, and no command is sent
    to the sensor twice before the device goes to sleep. *)
Theorem failed_measurement_abandons_cycle
        (b : Button) (s : Sensor) (st : State float) :
  (forall polls, b <> LongPress polls) ->
  wakeUpCode sensor s <> 0 \/
  singleShotCode sensor s <> 0 \/
  readOutCode fzero sensor s <> 0 ->
  exists s' st' c tr,
    meausureAndReport fzero sensor s st
      = (s', st', tr ++ [PrintError c (error st')]) /\
    loop fzero sensor b s st =
      (Some (s', st'),
       snd (checkButton b)
       ++ tr ++ [PrintError c (error st');
                 LogSleep; DigitalWrite ledPin false; DeepSleepStart]) /\
    error st' <> 0 /\
    zbTemperature st' = zbTemperature st /\
    zbHumidity st' = zbHumidity st /\
    zbCarbonDioxide st' = zbCarbonDioxide st /\
    Forall (fun e => isEndpointCall e = false)
           (snd (loop fzero sensor b s st)) /\
    NoDup (commandsSent (snd (loop fzero sensor b s st))).
Proof.
  intros Hb Hfail.
  assert (Hcycle : exists s' st' c tr,
    meausureAndReport fzero sensor s st
      = (s', st', tr ++ [PrintError c (error st')]) /\
    error st' <> 0 /\
    zbTemperature st' = zbTemperature st /\
    zbHumidity st' = zbHumidity st /\
    zbCarbonDioxide st' = zbCarbonDioxide st /\
    Forall (fun e => isEndpointCall e = false) tr /\
    NoDup (commandsSent tr) /\
    commandsSent (tr ++ [PrintError c (error st')]) = commandsSent tr).
  { unfold wakeUpCode, singleShotCode, readOutCode in Hfail.
    unfold meausureAndReport.
    destruct (wakeUp sensor s) as [e1 s1]; simpl in Hfail |- *.
    assert (Hnd1 : NoDup [WakeUp]) by (repeat constructor; simpl; tauto).
    assert (Hnd2 : NoDup [WakeUp; MeasureSingleShot]).
    { repeat constructor; simpl; intuition discriminate. }
    assert (Hnd3 : NoDup [WakeUp; MeasureSingleShot;
                          MeasureAndReadSingleShot]).
    { repeat constructor; simpl; intuition discriminate. }
    destruct (Z.eqb_spec e1 0) as [E1|E1]; simpl.
    - destruct (measureSingleShot sensor s1) as [e2 s2]; simpl in Hfail |- *.
      destruct (Z.eqb_spec e2 0) as [E2|E2]; simpl.
      + destruct (measureAndReadSingleShot sensor s2 _) as [[e3 r] s3];
          simpl in Hfail |- *.
        destruct (Z.eqb_spec e3 0) as [E3|E3]; simpl.
        * exfalso. destruct Hfail as [H|[H|H]]; contradiction.
        * exists s3, (set_error e3 (set_error e2 (set_error e1 st))),
            MeasureAndReadSingleShot,
            [Call WakeUp; Call MeasureSingleShot;
             Call MeasureAndReadSingleShot].
          repeat split; simpl; auto; repeat constructor.
      + exists s2, (set_error e2 (set_error e1 st)), MeasureSingleShot,
          [Call WakeUp; Call MeasureSingleShot].
        repeat split; simpl; auto; repeat constructor.
    - exists s1, (set_error e1 st), WakeUp, [Call WakeUp].
      repeat split; simpl; auto; repeat constructor. }
  destruct Hcycle
    as (s' & st' & c & tr & Hrun & Herr & Ht & Hh & Hc & Hep & Hnd & Hcs).
  destruct (checkButton_quiet b) as [Hb1 Hb2].
  assert (Hloop : loop fzero sensor b s st =
    (Some (s', st'),
     snd (checkButton b)
     ++ tr ++ [PrintError c (error st');
               LogSleep; DigitalWrite ledPin false; DeepSleepStart])).
  { rewrite (cycle_continue b s st Hb), Hrun. simpl fst; simpl snd.
    rewrite <- (app_assoc tr). reflexivity. }
  exists s', st', c, tr.
  split; [exact Hrun|]. split; [exact Hloop|].
  split; [exact Herr|]. split; [exact Ht|]. split; [exact Hh|].
  split; [exact Hc|].
  rewrite Hloop. simpl snd. split.
  - apply Forall_app; split; [exact Hb1|].
    apply Forall_app; split; [exact Hep | repeat constructor].
  - rewrite !commandsSent_app, Hb2. simpl. rewrite app_nil_r. exact Hnd.
Qed.

(** A cycle in which every command succeeds updates the three values and
    asks both endpoints to report. *)
Lemma successful_measurement_reports (s : Sensor) (st : State float) :
  wakeUpCode sensor s = 0 ->
  singleShotCode sensor s = 0 ->
  readOutCode fzero sensor s = 0 ->
  exists s' st' r,
    meausureAndReport fzero sensor s st =
      (s', st',
       [Call WakeUp; Call MeasureSingleShot; Call MeasureAndReadSingleShot;
        PrintReading r;
        SetTemperature (temperature r);
        SetHumidity (relativeHumidity r);
        SetCarbonDioxide (co2Concentration r);
        ReportTemperature; ReportCarbonDioxide;
        Delay 200]) /\
    zbTemperature st' = temperature r /\
    zbHumidity st' = relativeHumidity r /\
    zbCarbonDioxide st' = co2Concentration r.
Proof.
  unfold wakeUpCode, singleShotCode, readOutCode, meausureAndReport.
  destruct (wakeUp sensor s) as [e1 s1]; simpl.
  destruct (measureSingleShot sensor s1) as [e2 s2]; simpl.
  destruct (measureAndReadSingleShot sensor s2 _) as [[e3 r] s3]; simpl.
  intros -> -> ->. simpl.
  exists s3. eexists. exists r. repeat split.
Qed.

End Cycle.

Lemma failed_measurement_abandons_cycle_witness :
  exists s' st' c tr,
    meausureAndReport 0 failingReadOut tt (mkState 0 21 40 415)
      = (s', st', tr ++ [PrintError c (error st')]) /\
    loop 0 failingReadOut (ShortPress 3) tt (mkState 0 21 40 415) =
      (Some (s', st'),
       snd (checkButton (ShortPress 3))
       ++ tr ++ [PrintError c (error st');
                 LogSleep; DigitalWrite ledPin false; DeepSleepStart]) /\
    error st' <> 0 /\
    zbTemperature st' = 21 /\
    zbHumidity st' = 40 /\
    zbCarbonDioxide st' = 415 /\
    Forall (fun e => isEndpointCall e = false)
           (snd (loop 0 failingReadOut (ShortPress 3) tt
                      (mkState 0 21 40 415))) /\
    NoDup (commandsSent (snd (loop 0 failingReadOut (ShortPress 3) tt
                                     (mkState 0 21 40 415)))).
Proof.
  apply (failed_measurement_abandons_cycle 0 failingReadOut
           (ShortPress 3) tt (mkState 0 21 40 415)).
  - intros polls; discriminate.
  - right; right. vm_compute. discriminate.
Defined.

End Demo3Proofs.

(** * Further properties of the window covering controller *)

Module BehaviourProofs.

Import Covering Behaviour CoveringProofs.

(** ** Conversions and the percentage formula *)

(** Linear arithmetic with divisions by constants. *)
Ltac lia_div := Z.to_euclidean_division_equations; lia.

Lemma to_int16_small z : -32768 <= z < 32768 -> to_int16 z = z.
Proof. intros H; unfold to_int16; rewrite Z.mod_small; lia. Qed.

Lemma percentOf_no_wrap v : 0 <= v <= 23 -> percentOf v = 100 * v / 9.
Proof.
  intros H. unfold percentOf, to_uint8, MAX_LIFT.
  rewrite Z.quot_div_nonneg by lia.
  replace (v * 100) with (100 * v) by lia.
  apply Z.mod_small. lia_div.
Qed.

(** The percentage computed by the step loops grows strictly with the
    position as long as it fits its [uint8_t], that is up to position 23; it
    is 0 at [MIN_LIFT] and 100 at [MAX_LIFT]. *)
Theorem percentage_strictly_increasing u v :
  0 <= u -> u < v -> v <= 23 ->
  percentOf u < percentOf v /\
  percentOf MIN_LIFT = 0 /\ percentOf MAX_LIFT = 100.
Proof.
  intros Hu Huv Hv.
  rewrite !percentOf_no_wrap by lia.
  split; [lia_div|]. split; reflexivity.
Qed.

Lemma percentage_strictly_increasing_witness :
  percentOf 8 < percentOf 9 /\
  percentOf MIN_LIFT = 0 /\ percentOf MAX_LIFT = 100.
Proof. apply (percentage_strictly_increasing 8 9); lia. Defined.

(** ** The keys of the display unit *)

Lemma pollKeys_wf inp st :
  wellFormed st -> wellFormed (pollKeys inp st).
Proof.
  intros Hwf b. destruct (Hwf b) as [Hpos Hpend].
  destruct (Hwf Lift) as [HL _]. simpl in HL.
  unfold MIN_LIFT, MAX_LIFT in HL.
  assert (Hp : position b (pollKeys inp st) = position b st).
  { destruct (pollKeys_frame inp st) as (H1 & H2 & _); destruct b; assumption. }
  rewrite Hp. split; [assumption|].
  unfold pollKeys.
  destruct (Z.eqb_spec (keyA inp) 0), (Z.ltb_spec MIN_LIFT (currentLift st));
    simpl andb; cbv iota;
    destruct (Z.eqb_spec (keyB inp) 0);
    simpl currentLift;
    destruct (Z.ltb_spec (currentLift st) MAX_LIFT);
    simpl andb; cbv iota; destruct b; simpl; auto;
    unfold MIN_LIFT, MAX_LIFT in *;
    rewrite to_int16_small by lia; right; lia.
Qed.

(** The keys never leave a pending target outside the bounds of the Lift
    axis: a well-formed state stays well-formed when they are polled. *)
Theorem pollKeys_wellFormed inp st :
  wellFormed st -> wellFormed (pollKeys inp st).
Proof. apply pollKeys_wf. Qed.

Lemma pollKeys_wellFormed_witness :
  wellFormed (pollKeys (mkInput Released 0 1) initial).
Proof.
  apply (pollKeys_wellFormed (mkInput Released 0 1) initial).
  intros [|]; vm_compute; split; try (split; discriminate); left; reflexivity.
Defined.

(** A key is ignored when the blind is already at the limit it points to:
    key A at [MIN_LIFT] and key B at [MAX_LIFT] change nothing. *)
Theorem keys_ignored_at_limits inp st :
  (keyA inp = 0 -> currentLift st <= MIN_LIFT) ->
  (keyB inp = 0 -> MAX_LIFT <= currentLift st) ->
  pollKeys inp st = st.
Proof.
  intros HA HB. unfold pollKeys.
  destruct (Z.eqb_spec (keyA inp) 0) as [EA|EA];
    destruct (Z.ltb_spec MIN_LIFT (currentLift st)); simpl andb; cbv iota;
    try (specialize (HA EA); lia);
    destruct (Z.eqb_spec (keyB inp) 0) as [EB|EB];
    destruct (Z.ltb_spec (currentLift st) MAX_LIFT); simpl andb; cbv iota;
    try (specialize (HB EB); lia); reflexivity.
Qed.

Lemma keys_ignored_at_limits_witness :
  pollKeys (mkInput Released 1 0) initial = initial.
Proof.
  apply (keys_ignored_at_limits (mkInput Released 1 0) initial).
  - simpl; discriminate.
  - intros _; vm_compute; discriminate.
Defined.

(** With both keys pressed the second test wins: the pending target is one
    unit up, except at [MAX_LIFT], where it is one unit down. *)
Theorem both_keys_pressed inp st :
  keyA inp = 0 -> keyB inp = 0 ->
  MIN_LIFT < currentLift st <= MAX_LIFT ->
  nextLift (pollKeys inp st) =
    (if currentLift st <? MAX_LIFT then currentLift st + 1
     else currentLift st - 1).
Proof.
  intros HA HB Hs. unfold pollKeys. rewrite HA, HB.
  unfold MIN_LIFT, MAX_LIFT in *. simpl Z.eqb.
  destruct (Z.ltb_spec 0 (currentLift st)); [|lia]. simpl andb; cbv iota.
  simpl currentLift.
  destruct (Z.ltb_spec (currentLift st) 9); simpl;
    apply to_int16_small; lia.
Qed.

Lemma both_keys_pressed_witness :
  nextLift (pollKeys (mkInput Released 0 0) initial) = 8.
Proof.
  apply (both_keys_pressed (mkInput Released 0 0) initial).
  - reflexivity.
  - reflexivity.
  - vm_compute; split; [reflexivity | discriminate].
Defined.

(** ** Echoing a reported percentage *)

(** Sending back to the Lift axis the percentage it reported for position
    [t] does not ask for [t] again: the pending target is [t - 1], except at
    the two ends of the range. *)
Theorem echoed_lift_percentage_drifts t st :
  0 <= t <= 9 ->
  nextLift (fst (goToLiftPercentage (percentOf t) st)) =
    (if (t =? 0) || (t =? 9) then t else t - 1).
Proof.
  intros Ht.
  assert (H : t = 0 \/ t = 1 \/ t = 2 \/ t = 3 \/ t = 4 \/ t = 5 \/ t = 6 \/
              t = 7 \/ t = 8 \/ t = 9) by lia.
  repeat (destruct H as [->|H]; [reflexivity|]). subst; reflexivity.
Qed.

Lemma echoed_lift_percentage_drifts_witness :
  nextLift (fst (goToLiftPercentage (percentOf 8) initial)) = 7.
Proof. apply (echoed_lift_percentage_drifts 8 initial). lia. Defined.

(** Sending back to the Tilt axis the percentage it reported for position
    [t] asks for half of [t]: the report is scaled by [MAX_LIFT], the request
    by [MAX_TILT]. *)
Theorem echoed_tilt_percentage_halves t st :
  0 <= t <= 5 ->
  nextTilt (fst (goToTiltPercentage (percentOf t) st)) = t / 2.
Proof.
  intros Ht.
  assert (H : t = 0 \/ t = 1 \/ t = 2 \/ t = 3 \/ t = 4 \/ t = 5) by lia.
  repeat (destruct H as [->|H]; [reflexivity|]). subst; reflexivity.
Qed.

Lemma echoed_tilt_percentage_halves_witness :
  nextTilt (fst (goToTiltPercentage (percentOf 5) initial)) = 2.
Proof. apply (echoed_tilt_percentage_halves 5 initial). lia. Defined.

(** ** Motions of the Tilt axis *)

(** In every motion of the Tilt axis between positions inside its bounds,
    whatever stop requests arrive, the percentage handed to the endpoint
    after a step is [100 * currentTilt / MAX_LIFT] truncated, the divisor
    being the one of the Lift axis; so it is never above 55. *)
Theorem tilt_percentage_at_most_55 env t st clock fuel :
  MIN_TILT <= currentTilt st <= MAX_TILT ->
  MIN_TILT <= t <= MAX_TILT ->
  Z.abs (t - currentTilt st) <= Z.of_nat fuel ->
  exists st' tr clock',
    moveCoversTilt env fuel t st clock = Some (st', tr, clock') /\
    reported Tilt tr = map (fun v => 100 * v / MAX_LIFT) (visited Tilt tr) /\
    Forall (fun p => 0 <= p <= 55) (reported Tilt tr).
Proof.
  intros Hs Ht Hfuel.
  change (moveCoversTilt env fuel t st clock)
    with (moveCovers env Tilt fuel t st clock).
  rewrite moveCovers_axisMove.
  destruct (axisMove_any env Tilt t st clock fuel)
    as (k & st' & tr & Hk & Hrun & Hvis & Hrep & _); [simpl; lia|].
  simpl position in *.
  unfold MIN_TILT, MAX_TILT in Hs, Ht.
  rewrite (stepsFrom_uint16 (currentTilt st) t k) in Hvis by lia.
  assert (Hall : forall v, In v (visited Tilt tr) -> 0 <= v <= 5).
  { intros v Hv. rewrite Hvis in Hv.
    apply (stepsFrom_between _ _ _ _ Hk) in Hv. lia. }
  assert (Hmap : reported Tilt tr
                 = map (fun v => 100 * v / MAX_LIFT) (visited Tilt tr)).
  { rewrite Hrep. apply map_ext_in. intros v Hv.
    apply percentOf_small. specialize (Hall v Hv). lia. }
  exists st', tr, (clock + k)%nat.
  split; [assumption|]. split; [assumption|].
  rewrite Hmap. apply Forall_forall. intros p Hp.
  apply in_map_iff in Hp as (v & <- & Hv). specialize (Hall v Hv).
  unfold MAX_LIFT. lia_div.
Qed.

Lemma tilt_percentage_at_most_55_witness :
  exists st' tr clock',
    moveCoversTilt quiet 5 0 initial 0%nat = Some (st', tr, clock') /\
    reported Tilt tr = map (fun v => 100 * v / MAX_LIFT) (visited Tilt tr) /\
    Forall (fun p => 0 <= p <= 55) (reported Tilt tr).
Proof.
  apply (tilt_percentage_at_most_55 quiet 0 initial 0%nat 5%nat).
  - vm_compute; split; discriminate.
  - vm_compute; split; discriminate.
  - vm_compute; discriminate.
Defined.

(** ** A stopped motion, asked for again *)

Lemma map_seq_offset (f : nat -> Z) k : forall m a,
  map (fun j => f (k + j)%nat) (seq a m) = map f (seq (k + a) m).
Proof.
  induction m as [|m IH]; intros a; [reflexivity|].
  simpl. f_equal. rewrite IH. f_equal. f_equal. lia.
Qed.

Lemma stepsFrom_app s d k m :
  stepsFrom s d k ++ stepsFrom (s + d * Z.of_nat k) d m
  = stepsFrom s d (k + m).
Proof.
  unfold stepsFrom. rewrite seq_app, map_app. f_equal.
  replace (1 + k)%nat with (k + 1)%nat by lia.
  rewrite <- map_seq_offset. apply map_ext. intros j. lia.
Qed.

(** A motion halted by a stop request after [k] steps and asked for again
    with the same target goes on from where it halted: the two motions
    together visit exactly the positions from the start to the target, none
    twice and none skipped. *)
Theorem resumed_motion_completes_path env a t st clock fuel k :
  axisMin a <= position a st <= axisMax a ->
  axisMin a <= t <= axisMax a ->
  stop st = false ->
  (1 <= k < Z.to_nat (Z.abs (t - position a st)))%nat ->
  (forall j, (j < Z.to_nat (Z.abs (t - position a st)))%nat ->
             hasStop (env (clock + j)%nat) = Nat.eqb (S j) k) ->
  (Z.to_nat (Z.abs (t - position a st)) <= fuel)%nat ->
  exists st1 tr1 st2 tr2 clock2,
    moveCovers env a fuel t st clock = Some (st1, tr1, (clock + k)%nat) /\
    position a st1 <> t /\
    moveCovers env a fuel t st1 (clock + k)%nat = Some (st2, tr2, clock2) /\
    position a st2 = t /\
    visited a tr1 ++ visited a tr2 = stepsBetween (position a st) t.
Proof.
  intros Hs Ht Hstop Hk Henv Hfuel.
  pose proof (axis_bounds a) as [Hlo Hhi].
  set (s := position a st) in *.
  set (n := Z.to_nat (Z.abs (t - s))) in *.
  set (d := Z.sgn (t - s)).
  rewrite moveCovers_axisMove.
  assert (Hk1 : (1 <= k <= n)%nat) by lia.
  assert (Hq1 : forall j, (S j < k)%nat ->
                          hasStop (env (clock + j)%nat) = false).
  { intros j Hj. rewrite Henv by lia. apply Nat.eqb_neq. lia. }
  assert (Hl1 : (k < n)%nat -> hasStop (env (clock + (k - 1))%nat) = true).
  { intros _. rewrite Henv by lia. apply Nat.eqb_eq. lia. }
  destruct (axisMove_in_bounds env a t st clock fuel k Hs Ht Hstop Hk1 Hq1
              Hl1 Hfuel)
    as (st1 & tr1 & Hrun1 & _ & Hstp1 & Hvis1 & _ & Hpos1 & _).
  fold s in Hvis1, Hpos1. fold d in Hvis1, Hpos1.
  assert (Hstop2 : stop st1 = false).
  { rewrite Hstp1. fold s. fold n.
    destruct (Nat.ltb_spec k n); [reflexivity|lia]. }
  assert (Hd : t - s = d * Z.of_nat n) by (unfold d, n; lia).
  assert (Hd1 : d = 1 \/ d = -1) by (unfold d; lia).
  assert (Hsgn : Z.sgn (t - position a st1) = d) by (rewrite Hpos1; nia).
  assert (Hn2 : Z.to_nat (Z.abs (t - position a st1)) = (n - k)%nat)
    by (rewrite Hpos1; nia).
  assert (Hs2 : axisMin a <= position a st1 <= axisMax a)
    by (rewrite Hpos1; nia).
  assert (Hk2 : (1 <= n - k <= Z.to_nat (Z.abs (t - position a st1)))%nat)
    by lia.
  assert (Hq2 : forall j,
             (S j < n - k)%nat ->
             hasStop (env (clock + k + j)%nat) = false).
  { intros j Hj. replace (clock + k + j)%nat with (clock + (k + j))%nat by lia.
    rewrite Henv by lia. apply Nat.eqb_neq. lia. }
  assert (Hl2 : (n - k < Z.to_nat (Z.abs (t - position a st1)))%nat ->
                hasStop (env (clock + k + (n - k - 1))%nat) = true) by lia.
  assert (Hfuel2 : (Z.to_nat (Z.abs (t - position a st1)) <= fuel)%nat) by lia.
  destruct (axisMove_in_bounds env a t st1 (clock + k)%nat fuel (n - k)%nat
              Hs2 Ht Hstop2 Hk2 Hq2 Hl2 Hfuel2)
    as (st2 & tr2 & Hrun2 & _ & _ & Hvis2 & _ & Hpos2 & _).
  rewrite Hsgn, Hpos1 in Hvis2, Hpos2.
  exists st1, tr1, st2, tr2, (clock + k + (n - k))%nat.
  rewrite moveCovers_axisMove.
  split; [assumption|]. split; [rewrite Hpos1; nia|].
  split; [assumption|]. split; [rewrite Hpos2; nia|].
  rewrite Hvis1, Hvis2, stepsFrom_app.
  unfold stepsBetween. fold s. fold d. fold n. f_equal. lia.
Qed.

Lemma resumed_motion_completes_path_witness :
  exists st1 tr1 st2 tr2 clock2,
    moveCovers (stopAt 1) Lift 5 0 (set_currentLift 5 initial) 0%nat
      = Some (st1, tr1, 2%nat) /\
    position Lift st1 <> 0 /\
    moveCovers (stopAt 1) Lift 5 0 st1 2%nat = Some (st2, tr2, clock2) /\
    position Lift st2 = 0 /\
    visited Lift tr1 ++ visited Lift tr2 = [4; 3; 2; 1; 0].
Proof.
  apply (resumed_motion_completes_path (stopAt 1) Lift 0
           (set_currentLift 5 initial) 0%nat 5%nat 2%nat).
  - vm_compute; split; discriminate.
  - vm_compute; split; discriminate.
  - reflexivity.
  - vm_compute; lia.
  - intros [|[|[|[|[|j]]]]] Hj; reflexivity.
  - vm_compute; lia.
Defined.

(** ** Serving one pending request *)

Lemma service_serviceAxis env a fuel st clock :
  service env a fuel st clock = serviceAxis env a fuel st clock.
Proof.
  destruct a; simpl;
    [apply serviceLift_serviceAxis | apply serviceTilt_serviceAxis].
Qed.

Lemma serviceAxis_no_other_step env a b fuel st clock st' tr clock' :
  a <> b ->
  serviceAxis env a fuel st clock = Some (st', tr, clock') ->
  Forall (fun e => isStepOf b e = false) tr.
Proof.
  intros Hab Hrun. unfold serviceAxis in Hrun.
  destruct (negb _).
  - destruct (axisMove env a fuel _ st clock) as [[[s1 t1] c1]|] eqn:E;
      [|discriminate].
    inversion Hrun; subst. eapply axisMove_no_other_step; eassumption.
  - inversion Hrun; constructor.
Qed.

(** Serving a pending target inside the bounds, when no stop request
    arrives: whatever else the callbacks do meanwhile. *)
Lemma serviceAxis_reaches env a fuel st clock :
  let n := Z.to_nat (Z.abs (pending a st - position a st)) in
  axisMin a <= position a st <= axisMax a ->
  axisMin a <= pending a st <= axisMax a ->
  pending a st <> position a st ->
  stop st = false ->
  (forall j, (j < n)%nat -> hasStop (env (clock + j)%nat) = false) ->
  (n <= fuel)%nat ->
  exists st' tr,
    serviceAxis env a fuel st clock = Some (st', tr, (clock + n)%nat) /\
    position a st' = pending a st /\
    pending a st' = -1 /\
    stop st' = false /\
    moving st' = false /\
    visited a tr = stepsBetween (position a st) (pending a st) /\
    reported a tr = map (fun v => 100 * v / MAX_LIFT) (visited a tr).
Proof.
  intros n Hs Ht Hne Hstop Hq Hfuel.
  pose proof (axis_bounds a) as [Hlo Hhi].
  unfold serviceAxis.
  destruct (Z.eqb_spec (pending a st) (-1)) as [E|_]; [lia|].
  simpl negb; cbv iota.
  rewrite to_uint16_small by lia.
  assert (Hn : (1 <= n)%nat) by (unfold n; lia).
  assert (Hk : (1 <= n <= n)%nat) by lia.
  assert (Hq' : forall j, (S j < n)%nat ->
                          hasStop (env (clock + j)%nat) = false)
    by (intros j Hj; apply Hq; lia).
  assert (Hl : (n < n)%nat -> hasStop (env (clock + (n - 1))%nat) = true)
    by lia.
  destruct (axisMove_in_bounds env a (pending a st) st clock fuel n
              Hs Ht Hstop Hk Hq' Hl Hfuel)
    as (st' & tr & Hrun & Hmov & Hstp & Hvis & Hrep & Hpos & _).
  fold n in Hstp. rewrite Nat.ltb_irrefl, Hq in Hstp by lia.
  rewrite Hrun. exists (set_pending a (-1) st'), tr.
  split; [reflexivity|].
  split; [rewrite position_set_pending, Hpos; fold n; lia|].
  split; [apply pending_set_pending_same|].
  split; [destruct a; assumption|].
  split; [destruct a; assumption|].
  split; assumption.
Qed.

(** A request for an axis that arrives while that axis is moving is
    dropped: with no stop request during the motion, whatever other
    callbacks the environment delivers, the motion ends at the target that
    was pending when it began and the pending slot of the axis is empty
    afterwards. *)
Theorem request_during_motion_is_dropped env a fuel st clock :
  axisMin a <= position a st <= axisMax a ->
  axisMin a <= pending a st <= axisMax a ->
  pending a st <> position a st ->
  stop st = false ->
  (forall j, (j < Z.to_nat (Z.abs (pending a st - position a st)))%nat ->
             hasStop (env (clock + j)%nat) = false) ->
  (Z.to_nat (Z.abs (pending a st - position a st)) <= fuel)%nat ->
  exists st' tr clock',
    service env a fuel st clock = Some (st', tr, clock') /\
    position a st' = pending a st /\
    pending a st' = -1.
Proof.
  intros Hs Ht Hne Hstop Hq Hfuel.
  rewrite service_serviceAxis.
  destruct (serviceAxis_reaches env a fuel st clock Hs Ht Hne Hstop Hq Hfuel)
    as (st' & tr & Hrun & Hpos & Hpend & _).
  eauto 10.
Qed.

Lemma request_during_motion_is_dropped_witness :
  exists st' tr clock',
    service (requestAt 0 (OnGoToLiftPercentage 0)) Lift 2
            (set_nextLift 7 initial) 0%nat
      = Some (st', tr, clock') /\
    position Lift st' = 7 /\
    pending Lift st' = -1.
Proof.
  apply (request_during_motion_is_dropped
           (requestAt 0 (OnGoToLiftPercentage 0)) Lift 2%nat
           (set_nextLift 7 initial) 0%nat).
  - vm_compute; split; discriminate.
  - vm_compute; split; discriminate.
  - vm_compute; discriminate.
  - reflexivity.
  - intros [|j] _; reflexivity.
  - vm_compute; lia.
Defined.

(** ** One press of a key *)

(** A loop iteration in a quiet environment whose pending Lift target is
    one unit from the position. *)
Lemma loop_lift_unit env fuel inp st clock d :
  (forall j, env j = []) ->
  wellFormed st ->
  stop st = false ->
  (forall polls, button inp <> LongPress polls) ->
  (9 <= fuel)%nat ->
  d = 1 \/ d = -1 ->
  MIN_LIFT <= currentLift st + d <= MAX_LIFT ->
  pollKeys inp st = set_nextLift (currentLift st + d) st ->
  exists st' tr clock',
    loop env fuel inp st clock = Some (Continue st' tr clock') /\
    currentLift st' = currentLift st + d /\
    visited Lift tr = [currentLift st + d] /\
    reported Lift tr = [100 * (currentLift st + d) / MAX_LIFT] /\
    nextLift st' = -1.
Proof.
  intros Hq Hwf Hstop Hbtn Hfuel Hd Hin Hpoll.
  destruct (Hwf Lift) as [HL _]. simpl in HL.
  set (st1 := set_nextLift (currentLift st + d) st) in *.
  assert (Hwf1 : wellFormed st1).
  { apply (wellFormed_set_pending Lift); assumption. }
  assert (Hn : Z.to_nat (Z.abs (pending Lift st1 - position Lift st1)) = 1%nat)
    by (simpl; lia).
  destruct (serviceAxis_reaches env Lift fuel st1 clock)
    as (st2 & tr2 & Hrun2 & Hpos2 & Hpend2 & Hstop2 & _ & Hvis2 & Hrep2);
    try rewrite Hn; simpl pending; simpl position; auto; try lia.
  { intros j _. rewrite Hq. reflexivity. }
  rewrite Hn in Hrun2. simpl in Hpos2, Hvis2.
  pose proof (serviceAxis_quiet_wellFormed env Lift fuel st1 clock st2 tr2 _
                Hq Hwf1 Hstop Hfuel Hrun2) as Hwf2.
  destruct (serviceAxis_quiet env Tilt fuel st2 (clock + 1)%nat Hq Hwf2 Hstop2
              Hfuel)
    as (st3 & tr3 & c3 & Hrun3 & _ & _ & _ & Hother).
  destruct (Hother Lift) as [Hp3 Hn3]; [discriminate|].
  assert (Hno : Forall (fun e => isStepOf Lift e = false) tr3).
  { eapply (serviceAxis_no_other_step env Tilt Lift); [discriminate|].
    exact Hrun3. }
  exists st3, (snd (checkButton (button inp)) ++ tr2 ++ tr3), c3.
  split.
  { apply loop_continue; [exact Hbtn|]. unfold serviceRequests.
    rewrite Hpoll, serviceLift_serviceAxis, Hrun2,
      serviceTilt_serviceAxis, Hrun3.
    reflexivity. }
  assert (Hsteps : stepsBetween (currentLift st) (currentLift st + d)
                   = [currentLift st + d]).
  { unfold stepsBetween, stepsFrom.
    replace (currentLift st + d - currentLift st) with d by lia.
    destruct Hd as [-> | ->]; reflexivity. }
  simpl in Hp3, Hn3.
  rewrite !visited_app, !reported_app, visited_checkButton,
    reported_checkButton, (noStep_visited _ _ Hno),
    (noStep_reported _ _ Hno), !app_nil_r, !app_nil_l, Hrep2, Hvis2, Hsteps.
  repeat split; try assumption.
  - rewrite <- Hpos2. exact Hp3.
  - rewrite Hn3. exact Hpend2.
Qed.

(** Key A pressed alone with the blind above [MIN_LIFT]: the loop iteration
    moves the Lift axis exactly one unit down and reports once, whatever
    Lift request was pending before. *)
Theorem key_A_lowers_one_unit env fuel inp st clock :
  (forall j, env j = []) ->
  wellFormed st ->
  stop st = false ->
  (forall polls, button inp <> LongPress polls) ->
  (9 <= fuel)%nat ->
  keyA inp = 0 -> keyB inp <> 0 ->
  MIN_LIFT < currentLift st ->
  exists st' tr clock',
    loop env fuel inp st clock = Some (Continue st' tr clock') /\
    currentLift st' = currentLift st - 1 /\
    visited Lift tr = [currentLift st - 1] /\
    reported Lift tr = [100 * (currentLift st - 1) / MAX_LIFT] /\
    nextLift st' = -1.
Proof.
  intros Hq Hwf Hstop Hbtn Hfuel HA HB Hlow.
  destruct (Hwf Lift) as [HL _]. simpl in HL.
  unfold MIN_LIFT, MAX_LIFT in *.
  apply (loop_lift_unit env fuel inp st clock (-1)); auto;
    unfold MIN_LIFT, MAX_LIFT; try lia.
  unfold pollKeys. rewrite HA.
  apply Z.eqb_neq in HB. rewrite HB.
  unfold MIN_LIFT. destruct (Z.ltb_spec 0 (currentLift st)); [|lia].
  simpl. rewrite to_int16_small by lia. reflexivity.
Qed.

Lemma key_A_lowers_one_unit_witness :
  exists st' tr clock',
    loop quiet 9 (mkInput Released 0 1) (set_nextLift 2 initial) 0%nat
      = Some (Continue st' tr clock') /\
    currentLift st' = 8 /\
    visited Lift tr = [8] /\
    reported Lift tr = [88] /\
    nextLift st' = -1.
Proof.
  apply (key_A_lowers_one_unit quiet 9%nat (mkInput Released 0 1)
           (set_nextLift 2 initial) 0%nat).
  - intros j; reflexivity.
  - intros [|]; vm_compute; split; try (split; discriminate);
      [right; split; discriminate | left; reflexivity].
  - reflexivity.
  - simpl; discriminate.
  - lia.
  - reflexivity.
  - simpl; discriminate.
  - vm_compute; reflexivity.
Defined.

(** Key B pressed with the blind below [MAX_LIFT]: the loop iteration moves
    the Lift axis exactly one unit up and reports once, whatever key A does
    and whatever Lift request was pending before. *)
Theorem key_B_raises_one_unit env fuel inp st clock :
  (forall j, env j = []) ->
  wellFormed st ->
  stop st = false ->
  (forall polls, button inp <> LongPress polls) ->
  (9 <= fuel)%nat ->
  keyB inp = 0 ->
  currentLift st < MAX_LIFT ->
  exists st' tr clock',
    loop env fuel inp st clock = Some (Continue st' tr clock') /\
    currentLift st' = currentLift st + 1 /\
    visited Lift tr = [currentLift st + 1] /\
    reported Lift tr = [100 * (currentLift st + 1) / MAX_LIFT] /\
    nextLift st' = -1.
Proof.
  intros Hq Hwf Hstop Hbtn Hfuel HB Hhigh.
  destruct (Hwf Lift) as [HL _]. simpl in HL.
  unfold MIN_LIFT, MAX_LIFT in *.
  apply (loop_lift_unit env fuel inp st clock 1); auto;
    unfold MIN_LIFT, MAX_LIFT; try lia.
  unfold pollKeys. rewrite HB. simpl Z.eqb.
  destruct ((keyA inp =? 0) && (MIN_LIFT <? currentLift st));
    simpl currentLift; unfold MAX_LIFT;
    (destruct (Z.ltb_spec (currentLift st) 9); [|lia]);
    simpl; rewrite to_int16_small by lia; reflexivity.
Qed.

Lemma key_B_raises_one_unit_witness :
  exists st' tr clock',
    loop quiet 9 (mkInput Released 0 0) (set_currentLift 3 initial) 0%nat
      = Some (Continue st' tr clock') /\
    currentLift st' = 4 /\
    visited Lift tr = [4] /\
    reported Lift tr = [44] /\
    nextLift st' = -1.
Proof.
  apply (key_B_raises_one_unit quiet 9%nat (mkInput Released 0 0)
           (set_currentLift 3 initial) 0%nat).
  - intros j; reflexivity.
  - intros [|]; vm_compute; split; try (split; discriminate); left; reflexivity.
  - reflexivity.
  - simpl; discriminate.
  - lia.
  - reflexivity.
  - vm_compute; reflexivity.
Defined.

(** ** What a loop iteration keeps, whatever the environment does *)

Lemma last_map_default {A B} (f : A -> B) (l : list A) (d : A) :
  last (map f l) (f d) = f (last l d).
Proof.
  induction l as [|x l IH]; [reflexivity|].
  destruct l as [|y l]; [reflexivity|]. exact IH.
Qed.

Lemma axisMove_other_percentage env a b fuel t st clock st' tr clock' :
  a <> b ->
  axisMove env a fuel t st clock = Some (st', tr, clock') ->
  percentage b st' = percentage b st.
Proof.
  intros Hab Hrun.
  apply (axisMove_preserves env a (fun x => percentage b x = percentage b st))
    with (7 := Hrun); try reflexivity.
  - intros x v Hx; rewrite <- Hx; destruct a, b; reflexivity.
  - intros x v Hx; rewrite <- Hx; destruct a, b; try contradiction; reflexivity.
  - intros x m Hx; rewrite <- Hx; destruct b; reflexivity.
  - intros x Hx; rewrite <- Hx; destruct b; reflexivity.
  - intros x j Hx; rewrite <- Hx.
    apply sameMotion_percentage, deliver_sameMotion.
Qed.

(** The step loops never touch the LED. *)
Lemma dispatch_no_led c st :
  Forall (fun e => isLedWrite e = false) (snd (dispatch c st)).
Proof.
  destruct c; simpl; try (repeat constructor).
  unfold stopMotor; destruct (moving st); repeat constructor.
Qed.

Lemma deliver_no_led cs : forall st,
  Forall (fun e => isLedWrite e = false) (snd (deliver cs st)).
Proof.
  induction cs as [|c cs IH]; intros st; simpl; [constructor|].
  pose proof (dispatch_no_led c st) as Hc.
  destruct (dispatch c st) as [st1 tr1]; simpl in Hc.
  pose proof (IH st1) as Hcs.
  destruct (deliver cs st1) as [st2 tr2]; simpl in *.
  apply Forall_app; split; assumption.
Qed.

Lemma axisLoop_no_led env a :
  forall fuel step t i st clock st' tr clock',
    axisLoop env a fuel step t i st clock = Some (st', tr, clock') ->
    Forall (fun e => isLedWrite e = false) tr.
Proof.
  induction fuel as [|fuel IH]; intros step t i st clock st' tr clock' Hrun.
  - simpl in Hrun. destruct (i =? t + step); inversion Hrun; constructor.
  - loop_cases i t step st Hrun.
    + inversion Hrun; constructor.
    + inversion Hrun; constructor.
    + destruct (axisLoop env a fuel step t (i + step) _ _)
        as [[[s1 tr1] c1]|] eqn:E; [|discriminate].
      inversion Hrun; subst.
      constructor; [reflexivity|].
      constructor; [destruct a; reflexivity|].
      constructor; [destruct a; reflexivity|].
      constructor; [reflexivity|].
      apply Forall_app; split; [apply deliver_no_led|].
      eapply IH; eassumption.
Qed.

Lemma noLed_ledWrites tr :
  Forall (fun e => isLedWrite e = false) tr -> ledWrites tr = [].
Proof.
  induction 1 as [|e tr He _ IH]; [reflexivity|].
  destruct e; simpl in *; auto; discriminate.
Qed.

Lemma ledWrites_app tr1 tr2 :
  ledWrites (tr1 ++ tr2) = ledWrites tr1 ++ ledWrites tr2.
Proof.
  induction tr1 as [|e tr1 IH]; [reflexivity|].
  destruct e; simpl; rewrite ?IH; reflexivity.
Qed.

(** The LED is switched on and off again by a motion, and not touched when
    there is nothing to move. *)
Lemma axisMove_ledWrites env a fuel t st clock st' tr clock' :
  axisMove env a fuel t st clock = Some (st', tr, clock') ->
  ledWrites tr = (if t =? position a st then [] else [true; false]).
Proof.
  intros Hrun. unfold axisMove in Hrun.
  destruct (t =? position a st); [inversion Hrun; reflexivity|].
  destruct (axisLoop env a fuel _ t _ _ _) as [[[s1 tr1] c1]|] eqn:E;
    [|discriminate].
  inversion Hrun; subst. simpl.
  rewrite ledWrites_app, (noLed_ledWrites _ (axisLoop_no_led _ _ _ _ _ _ _ _ _ _ _ E)).
  reflexivity.
Qed.

(** Serving the pending request of an axis, in any environment. *)
Lemma serviceAxis_any_env env a fuel st clock :
  0 <= position a st < 65536 ->
  65535 <= Z.of_nat fuel ->
  exists st' tr clock',
    serviceAxis env a fuel st clock = Some (st', tr, clock') /\
    (consistent a st -> consistent a st') /\
    (forall b, a <> b ->
               position b st' = position b st /\
               percentage b st' = percentage b st) /\
    (moving st = false -> moving st' = false) /\
    (ledWrites tr = [] \/ ledWrites tr = [true; false]) /\
    0 <= position a st' < 65536.
Proof.
  intros Hs Hfuel. unfold serviceAxis.
  destruct (negb (pending a st =? -1)).
  - set (t := to_uint16 (pending a st)).
    assert (Ht : 0 <= t < 65536) by (apply Z.mod_pos_bound; lia).
    destruct (axisMove_any env a t st clock fuel)
      as (k & st' & tr & _ & Hrun & Hvis & Hrep & Hpos & Hpct & Hmov); [lia|].
    rewrite Hrun.
    exists (set_pending a (-1) st'), tr, (clock + k)%nat.
    split; [reflexivity|].
    assert (Hpos' : position a (set_pending a (-1) st') = position a st')
      by apply position_set_pending.
    assert (Hpct' : percentage a (set_pending a (-1) st') = percentage a st')
      by (destruct a; reflexivity).
    split; [|split; [|split; [|split]]].
    + unfold consistent. intros Hc.
      rewrite Hpos', Hpct', Hpct, Hrep, Hc, Hpos. apply last_map_default.
    + intros b Hab. rewrite position_set_pending. split.
      * eapply axisMove_other_position; eassumption.
      * replace (percentage b (set_pending a (-1) st'))
          with (percentage b st') by (destruct a, b; reflexivity).
        eapply axisMove_other_percentage; eassumption.
    + intros Hidle.
      assert (moving st' = false).
      { destruct (Z.eq_dec t (position a st)) as [E|E]; [|auto].
        rewrite E, axisMove_same in Hrun. congruence. }
      destruct a; assumption.
    + rewrite (axisMove_ledWrites _ _ _ _ _ _ _ _ _ Hrun).
      destruct (t =? position a st); auto.
    + rewrite Hpos', Hpos, Hvis.
      destruct (stepsFrom (position a st) (Z.sgn (t - position a st)) k)
        as [|x l] eqn:E; [simpl; assumption|].
      rewrite (last_map_nonempty to_uint16 (x :: l) 0 (position a st))
        by discriminate.
      apply Z.mod_pos_bound. lia.
  - exists st, [], clock. repeat split; auto; lia.
Qed.

Lemma pollKeys_percentages inp st a :
  position a (pollKeys inp st) = position a st /\
  percentage a (pollKeys inp st) = percentage a st.
Proof.
  unfold pollKeys.
  destruct (_ && _); simpl; destruct (_ && _); destruct a; split; reflexivity.
Qed.

(** The button block never touches the LED. *)
Lemma ledWrites_checkButton b : ledWrites (snd (checkButton b)) = [].
Proof.
  assert (Hwaits : forall polls, ledWrites (repeat (Delay 50) polls) = []).
  { induction polls as [|polls IH]; [reflexivity | exact IH]. }
  destruct b as [|polls|polls]; simpl.
  - reflexivity.
  - apply Hwaits.
  - rewrite ledWrites_app, Hwaits. reflexivity.
Qed.

Lemma loop_any_env env fuel inp st clock :
  0 <= currentLift st < 65536 ->
  0 <= currentTilt st < 65536 ->
  (forall polls, button inp <> LongPress polls) ->
  65535 <= Z.of_nat fuel ->
  exists st' tr clock' m,
    loop env fuel inp st clock = Some (Continue st' tr clock') /\
    (forall a, consistent a st -> consistent a st') /\
    (moving st = false -> moving st' = false) /\
    ledWrites tr = concat (repeat [true; false] m) /\
    (m <= 2)%nat.
Proof.
  intros HL HT Hbtn Hfuel.
  destruct (pollKeys_frame inp st) as (HkL & HkT & Hkm & _).
  destruct (serviceAxis_any_env env Lift fuel (pollKeys inp st) clock)
    as (st1 & tr1 & c1 & Hrun1 & Hc1 & Ho1 & Hm1 & Hled1 & _);
    [simpl; rewrite HkL; assumption | assumption |].
  destruct (Ho1 Tilt) as [Hp1 Hq1]; [discriminate|].
  destruct (serviceAxis_any_env env Tilt fuel st1 c1)
    as (st2 & tr2 & c2 & Hrun2 & Hc2 & Ho2 & Hm2 & Hled2 & _);
    [simpl in *; rewrite Hp1, HkT; assumption | assumption |].
  destruct (Ho2 Lift) as [Hp2 Hq2]; [discriminate|].
  assert (Hleds : exists m, ledWrites (tr1 ++ tr2)
                            = concat (repeat [true; false] m) /\ (m <= 2)%nat).
  { rewrite ledWrites_app.
    destruct Hled1 as [-> | ->], Hled2 as [-> | ->];
      [exists 0%nat | exists 1%nat | exists 1%nat | exists 2%nat];
      split; try reflexivity; lia. }
  destruct Hleds as (m & Hm & Hle).
  exists st2, (snd (checkButton (button inp)) ++ tr1 ++ tr2), c2, m.
  split.
  { apply loop_continue; [exact Hbtn|]. unfold serviceRequests.
    rewrite serviceLift_serviceAxis, Hrun1, serviceTilt_serviceAxis, Hrun2.
    reflexivity. }
  rewrite ledWrites_app, ledWrites_checkButton, app_nil_l.
  split; [|split; [|split]]; try assumption.
  - intros a Hc.
    destruct (pollKeys_percentages inp st a) as [Ha1 Ha2].
    assert (Hc0 : consistent a (pollKeys inp st))
      by (unfold consistent in *; congruence).
    destruct a.
    + unfold consistent in *. rewrite Hp2, Hq2. apply Hc1. exact Hc0.
    + apply Hc2. unfold consistent in *. rewrite Hp1, Hq1. exact Hc0.
  - intros Hidle. apply Hm2, Hm1. rewrite Hkm. assumption.
Qed.

(** Whatever the keys and the callbacks do, a loop iteration keeps the
    stored percentage of an axis the one its step loop computes from the
    stored position: [(position * 100) / MAX_LIFT] as a [uint8_t]. *)
Theorem loop_keeps_percentage_consistent env fuel inp st clock :
  0 <= currentLift st < 65536 ->
  0 <= currentTilt st < 65536 ->
  (forall polls, button inp <> LongPress polls) ->
  65535 <= Z.of_nat fuel ->
  exists st' tr clock',
    loop env fuel inp st clock = Some (Continue st' tr clock') /\
    (forall a, consistent a st -> consistent a st').
Proof.
  intros HL HT Hbtn Hfuel.
  destruct (loop_any_env env fuel inp st clock HL HT Hbtn Hfuel)
    as (st' & tr & c' & m & Hrun & Hc & _).
  eauto 10.
Qed.

Lemma loop_keeps_percentage_consistent_witness :
  exists st' tr clock',
    loop stopAtOnce (Z.to_nat 65535) (mkInput Released 0 1)
         (set_nextTilt 2 initial) 0%nat
      = Some (Continue st' tr clock') /\
    (forall a, consistent a (set_nextTilt 2 initial) -> consistent a st').
Proof.
  apply (loop_keeps_percentage_consistent stopAtOnce (Z.to_nat 65535)
           (mkInput Released 0 1) (set_nextTilt 2 initial) 0%nat).
  - simpl; unfold MAX_LIFT; lia.
  - simpl; unfold MAX_TILT; lia.
  - simpl; discriminate.
  - lia.
Defined.

(** Whatever the keys and the callbacks do, a loop iteration entered with
    the motor idle leaves it idle, and it writes the LED pin only in pairs
    of on and off, at most one pair per axis: the LED is off at the end. *)
Theorem loop_ends_idle_with_led_off env fuel inp st clock :
  0 <= currentLift st < 65536 ->
  0 <= currentTilt st < 65536 ->
  (forall polls, button inp <> LongPress polls) ->
  65535 <= Z.of_nat fuel ->
  moving st = false ->
  exists st' tr clock' m,
    loop env fuel inp st clock = Some (Continue st' tr clock') /\
    moving st' = false /\
    ledWrites tr = concat (repeat [true; false] m) /\
    (m <= 2)%nat /\
    last (ledWrites tr) false = false.
Proof.
  intros HL HT Hbtn Hfuel Hidle.
  destruct (loop_any_env env fuel inp st clock HL HT Hbtn Hfuel)
    as (st' & tr & c' & m & Hrun & _ & Hmov & Hled & Hm).
  exists st', tr, c', m. repeat split; auto.
  rewrite Hled.
  destruct m as [|[|[|m]]]; try reflexivity; lia.
Qed.

Lemma loop_ends_idle_with_led_off_witness :
  exists st' tr clock' m,
    loop stopAtOnce (Z.to_nat 65535) (mkInput Released 0 1)
         (set_nextTilt 2 initial) 0%nat
      = Some (Continue st' tr clock') /\
    moving st' = false /\
    ledWrites tr = concat (repeat [true; false] m) /\
    (m <= 2)%nat /\
    last (ledWrites tr) false = false.
Proof.
  apply (loop_ends_idle_with_led_off stopAtOnce (Z.to_nat 65535)
           (mkInput Released 0 1) (set_nextTilt 2 initial) 0%nat).
  - simpl; unfold MAX_LIFT; lia.
  - simpl; unfold MAX_TILT; lia.
  - simpl; discriminate.
  - lia.
  - reflexivity.
Defined.

(** ** Bounds, under callbacks with percentages up to 100 *)

Lemma dispatch_pendingOK c st :
  validRequest c ->
  (forall b, pendingOK b st) ->
  forall b, pendingOK b (fst (dispatch c st)).
Proof.
  intros Hv Hok b.
  destruct (requestAxis c) as [a|] eqn:Ha.
  - rewrite (dispatch_request c a st Ha Hv).
    pose proof (requestTarget_bounds c a Ha Hv) as Hb.
    unfold pendingOK.
    assert (Hdec : a = b \/ a <> b)
      by (destruct a, b; auto; right; discriminate).
    destruct Hdec as [<-|Hab].
    + rewrite pending_set_pending_same. right; assumption.
    + rewrite pending_set_pending_other by congruence. apply Hok.
  - destruct c; try discriminate. simpl. unfold stopMotor.
    destruct (moving st); [|apply Hok].
    destruct b; [exact (Hok Lift) | exact (Hok Tilt)].
Qed.

Lemma deliver_pendingOK cs : forall st,
  Forall validRequest cs ->
  (forall b, pendingOK b st) ->
  forall b, pendingOK b (fst (deliver cs st)).
Proof.
  induction cs as [|c cs IH]; intros st Hv Hok; simpl; [assumption|].
  inversion Hv as [|c' cs' Hc Hcs]; subst.
  pose proof (dispatch_pendingOK c st Hc Hok) as H1.
  destruct (dispatch c st) as [st1 tr1]; simpl in H1.
  pose proof (IH st1 Hcs H1) as H2.
  destruct (deliver cs st1) as [st2 tr2]; simpl in *; assumption.
Qed.

Lemma last_in_or_default {A} (l : list A) (d : A) :
  last l d = d \/ In (last l d) l.
Proof.
  destruct l as [|x l]; [left; reflexivity|].
  right.
  destruct (@exists_last A (x :: l)) as (l' & y & E); [discriminate|].
  rewrite E, last_last. apply in_or_app. right; left; reflexivity.
Qed.

Lemma serviceAxis_valid_env env a fuel st clock :
  (forall j, Forall validRequest (env j)) ->
  wellFormed st ->
  (9 <= fuel)%nat ->
  exists st' tr clock',
    serviceAxis env a fuel st clock = Some (st', tr, clock') /\
    wellFormed st' /\
    Forall (fun v => axisMin a <= v <= axisMax a) (visited a tr) /\
    (forall b, a <> b -> visited b tr = []).
Proof.
  intros Hv Hwf Hfuel.
  pose proof (axis_bounds a) as [Hlo Hhi].
  destruct (Hwf a) as [Hs Hp].
  unfold serviceAxis.
  destruct (Z.eqb_spec (pending a st) (-1)) as [E|E]; simpl negb; cbv iota.
  - exists st, [], clock. repeat split; auto; apply Hwf.
  - destruct Hp as [Hp|Hp]; [contradiction|].
    rewrite to_uint16_small by lia.
    set (t := pending a st) in *.
    destruct (axisMove_any env a t st clock fuel)
      as (k & st' & tr & Hk & Hrun & Hvis & _ & Hpos & _); [lia|].
    rewrite (stepsFrom_uint16 (position a st) t k) in Hvis by lia.
    assert (Hall : forall v, In v (visited a tr) ->
                             axisMin a <= v <= axisMax a).
    { intros v Hin. rewrite Hvis in Hin.
      apply (stepsFrom_between _ _ _ _ Hk) in Hin. lia. }
    assert (Hok : forall b, pendingOK b st').
    { apply (axisMove_preserves env a (fun x => forall b, pendingOK b x))
        with (7 := Hrun).
      - intros x v Hx b; specialize (Hx b); destruct a, b; exact Hx.
      - intros x v Hx b; specialize (Hx b); destruct a, b; exact Hx.
      - intros x m Hx b; specialize (Hx b); destruct b; exact Hx.
      - intros x Hx b; specialize (Hx b); destruct b; exact Hx.
      - intros x j Hx. apply deliver_pendingOK; [apply Hv | exact Hx].
      - intros b. apply Hwf. }
    rewrite Hrun.
    exists (set_pending a (-1) st'), tr, (clock + k)%nat.
    split; [reflexivity|]. split; [|split].
    + intros b. rewrite position_set_pending.
      assert (Hdec : a = b \/ a <> b)
        by (destruct a, b; auto; right; discriminate).
      destruct Hdec as [<-|Hab].
      * split; [|left; apply pending_set_pending_same].
        rewrite Hpos.
        destruct (last_in_or_default (visited a tr) (position a st))
          as [-> | Hin]; [assumption | apply Hall, Hin].
      * rewrite (axisMove_other_position env a b fuel t st clock st' tr _
                   Hab Hrun).
        split; [apply Hwf|].
        rewrite pending_set_pending_other by congruence. apply Hok.
    + apply Forall_forall. exact Hall.
    + intros b Hab. apply noStep_visited.
      eapply axisMove_no_other_step; eassumption.
Qed.

(** With callbacks whose percentages are at most 100, whatever they are and
    whenever they arrive, stop requests included, a loop iteration keeps
    both positions and both pending targets inside the bounds of their
    axes, and so is every position a step passes through. *)
Theorem loop_keeps_positions_in_bounds env fuel inp st clock :
  (forall j, Forall validRequest (env j)) ->
  wellFormed st ->
  (forall polls, button inp <> LongPress polls) ->
  (9 <= fuel)%nat ->
  exists st' tr clock',
    loop env fuel inp st clock = Some (Continue st' tr clock') /\
    wellFormed st' /\
    Forall (fun v => MIN_LIFT <= v <= MAX_LIFT) (visited Lift tr) /\
    Forall (fun v => MIN_TILT <= v <= MAX_TILT) (visited Tilt tr).
Proof.
  intros Hv Hwf Hbtn Hfuel.
  pose proof (pollKeys_wf inp st Hwf) as Hwf0.
  destruct (serviceAxis_valid_env env Lift fuel (pollKeys inp st) clock
              Hv Hwf0 Hfuel)
    as (st1 & tr1 & c1 & Hrun1 & Hwf1 & Hall1 & Hno1).
  destruct (serviceAxis_valid_env env Tilt fuel st1 c1 Hv Hwf1 Hfuel)
    as (st2 & tr2 & c2 & Hrun2 & Hwf2 & Hall2 & Hno2).
  exists st2, (snd (checkButton (button inp)) ++ tr1 ++ tr2), c2.
  split.
  { apply loop_continue; [exact Hbtn|]. unfold serviceRequests.
    rewrite serviceLift_serviceAxis, Hrun1, serviceTilt_serviceAxis, Hrun2.
    reflexivity. }
  split; [assumption|].
  rewrite !visited_app, !visited_checkButton, !app_nil_l,
    (Hno1 Tilt), (Hno2 Lift), app_nil_r by discriminate.
  split; assumption.
Qed.

Lemma loop_keeps_positions_in_bounds_witness :
  exists st' tr clock',
    loop (requestAt 1 (OnGoToTiltPercentage 100)) 9 (mkInput Released 1 1)
         (set_nextLift 5 initial) 0%nat
      = Some (Continue st' tr clock') /\
    wellFormed st' /\
    Forall (fun v => MIN_LIFT <= v <= MAX_LIFT) (visited Lift tr) /\
    Forall (fun v => MIN_TILT <= v <= MAX_TILT) (visited Tilt tr).
Proof.
  apply (loop_keeps_positions_in_bounds
           (requestAt 1 (OnGoToTiltPercentage 100)) 9%nat
           (mkInput Released 1 1) (set_nextLift 5 initial) 0%nat).
  - intros [|[|j]]; vm_compute; repeat constructor; discriminate.
  - intros [|]; vm_compute; split; try (split; discriminate);
      [right; split; discriminate | left; reflexivity].
  - simpl; discriminate.
  - lia.
Defined.

(** ** Percentages above 100 *)

Lemma serviceAxis_frame env a b fuel st clock st' tr clock' :
  a <> b ->
  serviceAxis env a fuel st clock = Some (st', tr, clock') ->
  position b st' = position b st /\ percentage b st' = percentage b st.
Proof.
  intros Hab Hrun. unfold serviceAxis in Hrun.
  destruct (negb _).
  - destruct (axisMove env a fuel _ st clock) as [[[s1 t1] c1]|] eqn:E;
      [|discriminate].
    inversion Hrun; subst. rewrite position_set_pending.
    replace (percentage b (set_pending a (-1) s1)) with (percentage b s1)
      by (destruct a, b; reflexivity).
    split; [eapply axisMove_other_position | eapply axisMove_other_percentage];
      eassumption.
  - inversion Hrun; subst. split; reflexivity.
Qed.

Lemma axisMove_quiet_keeps_pending env a b fuel st clock st' tr clock' :
  (forall j, env j = []) ->
  a <> b ->
  serviceAxis env a fuel st clock = Some (st', tr, clock') ->
  pending b st' = pending b st.
Proof.
  intros Hq Hab Hrun. unfold serviceAxis in Hrun.
  destruct (negb _).
  - destruct (axisMove env a fuel _ st clock) as [[[s1 t1] c1]|] eqn:E;
      [|discriminate].
    inversion Hrun; subst.
    rewrite pending_set_pending_other by congruence.
    eapply axisMove_quiet_pending; eassumption.
  - inversion Hrun; subst. reflexivity.
Qed.

(** Serving an axis whose own position and pending target are inside its
    bounds, in a quiet environment. *)
Lemma serviceAxis_quiet_own env a fuel st clock :
  (forall j, env j = []) ->
  stop st = false ->
  axisMin a <= position a st <= axisMax a ->
  pendingOK a st ->
  (9 <= fuel)%nat ->
  exists st' tr clock',
    serviceAxis env a fuel st clock = Some (st', tr, clock') /\
    stop st' = false.
Proof.
  intros Hq Hstop Hs Hp Hfuel.
  pose proof (axis_bounds a) as [Hlo Hhi].
  destruct (Z.eq_dec (pending a st) (-1)) as [E|E].
  - unfold serviceAxis. rewrite E. simpl. eauto.
  - destruct Hp as [Hp|Hp]; [contradiction|].
    destruct (Z.eq_dec (pending a st) (position a st)) as [Heq|Hne].
    + unfold serviceAxis.
      destruct (Z.eqb_spec (pending a st) (-1)); [contradiction|].
      simpl negb; cbv iota.
      rewrite to_uint16_small, Heq, axisMove_same by lia.
      eexists _, _, _. split; [reflexivity|]. destruct a; assumption.
    + destruct (serviceAxis_reaches env a fuel st clock Hs Hp Hne Hstop)
        as (st' & tr & Hrun & _ & _ & Hstop' & _).
      { intros j _. rewrite Hq. reflexivity. }
      { lia. }
      eauto 10.
Qed.

(** Serving a pending target that fits an [int16_t], in a quiet
    environment: nothing keeps the motion inside the bounds. *)
Lemma serviceAxis_quiet_wide env a fuel st clock :
  let n := Z.to_nat (Z.abs (pending a st - position a st)) in
  (forall j, env j = []) ->
  stop st = false ->
  0 <= position a st < 65536 ->
  0 <= pending a st < 32768 ->
  pending a st <> position a st ->
  (n <= fuel)%nat ->
  exists st' tr,
    serviceAxis env a fuel st clock = Some (st', tr, (clock + n)%nat) /\
    position a st' = pending a st /\
    percentage a st' = percentOf (pending a st) /\
    stop st' = false.
Proof.
  intros n Hq Hstop Hs Hp Hne Hfuel.
  unfold serviceAxis.
  destruct (Z.eqb_spec (pending a st) (-1)) as [E|_]; [lia|].
  simpl negb; cbv iota.
  rewrite to_uint16_small by lia.
  assert (Hk : (1 <= n <= n)%nat) by (unfold n; lia).
  assert (Hq' : forall j, (S j < n)%nat ->
                          hasStop (env (clock + j)%nat) = false)
    by (intros j _; rewrite Hq; reflexivity).
  assert (Hl : (n < n)%nat -> hasStop (env (clock + (n - 1))%nat) = true)
    by lia.
  destruct (axisMove_steps env a (pending a st) st clock fuel n
              Hstop Hk Hq' Hl Hfuel)
    as (st' & tr & Hrun & _ & Hstp & _ & _ & Hpos & Hpct).
  fold n in Hstp, Hpos. rewrite Nat.ltb_irrefl, Hq in Hstp.
  replace (position a st + Z.sgn (pending a st - position a st) * Z.of_nat n)
    with (pending a st) in Hpos by (unfold n; lia).
  rewrite to_uint16_small in Hpos by lia.
  rewrite Hrun. exists (set_pending a (-1) st'), tr.
  split; [reflexivity|].
  split; [rewrite position_set_pending; assumption|].
  split; [|destruct a; assumption].
  rewrite <- Hpos, <- Hpct. destruct a; reflexivity.
Qed.

(** The controller does not clamp: a Lift percentage between 112 and 255,
    which a [uint8_t] can hold, is turned into a target above [MAX_LIFT],
    and the loop iteration that consumes it moves the blind there and
    reports a percentage above 100. *)
Theorem unclamped_percent_leaves_bounds env fuel inp st clock p :
  (forall j, env j = []) ->
  wellFormed st ->
  stop st = false ->
  keyA inp <> 0 -> keyB inp <> 0 ->
  (forall polls, button inp <> LongPress polls) ->
  112 <= p <= 255 ->
  (22 <= fuel)%nat ->
  exists st' tr clock',
    loop env fuel inp (fst (dispatch (OnGoToLiftPercentage p) st)) clock
      = Some (Continue st' tr clock') /\
    currentLift st' = p * MAX_LIFT / 100 /\
    MAX_LIFT < currentLift st' /\
    currentLiftPercentage st' = 100 * currentLift st' / MAX_LIFT /\
    100 < currentLiftPercentage st'.
Proof.
  intros Hq Hwf Hstop HA HB Hbtn Hp Hfuel.
  destruct (Hwf Lift) as [HL _], (Hwf Tilt) as [HT HTp].
  simpl in HL, HT, HTp. unfold MIN_LIFT, MAX_LIFT, MIN_TILT, MAX_TILT in *.
  set (t := p * 9 / 100).
  assert (Ht : 10 <= t <= 22) by (unfold t; lia_div).
  assert (Hdisp : fst (dispatch (OnGoToLiftPercentage p) st)
                  = set_nextLift t st).
  { simpl. unfold goToLiftPercentage, to_uint8, MAX_LIFT. simpl.
    rewrite (Z.mod_small p) by lia.
    rewrite Z.quot_div_nonneg by lia. fold t.
    rewrite to_uint16_small, to_int16_small by lia. reflexivity. }
  rewrite Hdisp. set (st1 := set_nextLift t st).
  assert (Hn : (Z.to_nat (Z.abs (pending Lift st1 - position Lift st1))
                <= fuel)%nat) by (simpl; lia).
  destruct (serviceAxis_quiet_wide env Lift fuel st1 clock Hq Hstop)
    as (st2 & tr2 & Hrun2 & Hpos2 & Hpct2 & Hstop2);
    simpl pending; simpl position; try lia.
  simpl in Hpos2, Hpct2.
  set (c2 := (clock + Z.to_nat
                        (Z.abs (pending Lift st1 - position Lift st1)))%nat)
    in *.
  destruct (serviceAxis_frame env Lift Tilt fuel st1 clock st2 tr2 c2
              ltac:(discriminate) Hrun2) as [HpT _].
  assert (HpendT : pendingOK Tilt st2).
  { unfold pendingOK.
    rewrite (axisMove_quiet_keeps_pending env Lift Tilt fuel st1 clock
               st2 tr2 c2 Hq ltac:(discriminate) Hrun2).
    exact HTp. }
  destruct (serviceAxis_quiet_own env Tilt fuel st2 c2 Hq Hstop2)
    as (st3 & tr3 & c3 & Hrun3 & _);
    [rewrite HpT; exact HT | exact HpendT | lia |].
  destruct (serviceAxis_frame env Tilt Lift fuel st2 c2 st3 tr3 c3
              ltac:(discriminate) Hrun3) as [Hp3 Hq3].
  simpl in Hp3, Hq3.
  exists st3, (snd (checkButton (button inp)) ++ tr2 ++ tr3), c3.
  split.
  { apply loop_continue; [exact Hbtn|]. unfold serviceRequests.
    rewrite (pollKeys_released inp st1 HA HB).
    rewrite serviceLift_serviceAxis, Hrun2, serviceTilt_serviceAxis, Hrun3.
    reflexivity. }
  rewrite Hp3, Hq3, Hpos2, Hpct2, percentOf_no_wrap by lia.
  unfold MAX_LIFT. fold t. repeat split; try lia. lia_div.
Qed.

Lemma unclamped_percent_leaves_bounds_witness :
  exists st' tr clock',
    loop quiet 22 (mkInput Released 1 1)
         (fst (dispatch (OnGoToLiftPercentage 255) initial)) 0%nat
      = Some (Continue st' tr clock') /\
    currentLift st' = 22 /\
    MAX_LIFT < currentLift st' /\
    currentLiftPercentage st' = 100 * currentLift st' / MAX_LIFT /\
    100 < currentLiftPercentage st'.
Proof.
  apply (unclamped_percent_leaves_bounds quiet 22%nat (mkInput Released 1 1)
           initial 0%nat 255).
  - intros j; reflexivity.
  - intros [|]; vm_compute; split; try (split; discriminate); left; reflexivity.
  - reflexivity.
  - simpl; discriminate.
  - simpl; discriminate.
  - simpl; discriminate.
  - lia.
  - lia.
Defined.

End BehaviourProofs.

(** * The display of the window covering sketch: proofs *)

Module DisplayProofs.

Import Covering Display.

Ltac lia_div := Z.to_euclidean_division_equations; lia.

Lemma in_forLoop {A} (n : Z) (body : Z -> list A) (x : A) :
  In x (forLoop n body) <-> exists i, 0 <= i < n /\ In x (body i).
Proof.
  unfold forLoop. rewrite in_flat_map. split.
  - intros (i & Hi & Hx). apply in_map_iff in Hi as (j & <- & Hj).
    apply in_seq in Hj. exists (Z.of_nat j). split; [lia|assumption].
  - intros (i & Hi & Hx). exists i. split; [|assumption].
    apply in_map_iff. exists (Z.to_nat i). split; [lia|].
    apply in_seq. lia.
Qed.

Lemma length_flat_map_const {A B} (body : A -> list B) (c : nat) l :
  (forall i, length (body i) = c) ->
  length (flat_map body l) = (length l * c)%nat.
Proof.
  intros Hc. induction l as [|i l IH]; [reflexivity|].
  simpl. rewrite length_app, Hc, IH. reflexivity.
Qed.

Lemma length_forLoop {A} (n : Z) (body : Z -> list A) (c : nat) :
  (forall i, length (body i) = c) ->
  length (forLoop n body) = (Z.to_nat n * c)%nat.
Proof.
  intros Hc. unfold forLoop.
  rewrite (length_flat_map_const body c) by assumption.
  rewrite length_map, length_seq. reflexivity.
Qed.

Lemma in_drawSlat x y th c :
  In c (drawSlat x y th) <->
  c = DrawLine x y (x + 100) y 255 \/
  exists i, 0 <= i < th - 1 /\
            c = DrawLine x (y + i + 1) (x + 100) (y + i + 1) 255.
Proof.
  unfold drawSlat. simpl. split.
  - intros [<-|Hin]; [left; reflexivity|].
    destruct (0 <? th); [|contradiction].
    apply in_forLoop in Hin as (i & Hi & [<-|[]]).
    right. exists i. split; [assumption|reflexivity].
  - intros [->|(i & Hi & ->)]; [left; reflexivity|].
    right. destruct (Z.ltb_spec 0 th); [|lia].
    apply in_forLoop. exists i. split; [assumption|left; reflexivity].
Qed.

Lemma in_slatRows r calls :
  In r (slatRows calls) <->
  exists y1 x1 col, In (DrawLine 10 r x1 y1 col) calls.
Proof.
  unfold slatRows. rewrite in_flat_map. split.
  - intros (c & Hc & Hr). destruct c; try contradiction.
    destruct (Z.eqb_spec x0 10); [|contradiction].
    destruct Hr as [<-|[]]. subst. eauto.
  - intros (y1 & x1 & col & Hc). eexists. split; [exact Hc|].
    simpl. left; reflexivity.
Qed.

Section Drawing.

Variable arduinoMap : Z -> Z -> Z -> Z -> Z -> Z.

Lemma drawBlinds_calls knob_y st :
  snd (drawBlinds arduinoMap knob_y st) =
  [GlassClear]
  ++ forLoop (currentLift st)
             (fun i => drawSlat 10 (0 + i * (6 + 1)) (1 + currentTilt st))
  ++ snd (drawManualController arduinoMap knob_y st)
  ++ [GlassShow].
Proof. reflexivity. Qed.

(** The calls of [drawBlinds]: which lines are among them. *)
Lemma in_drawBlinds_line knob_y st x0 y0 x1 y1 col :
  0 <= currentTilt st ->
  In (DrawLine x0 y0 x1 y1 col) (snd (drawBlinds arduinoMap knob_y st)) <->
  (exists i j, 0 <= i < currentLift st /\ 0 <= j <= currentTilt st /\
               x0 = 10 /\ y0 = 7 * i + j /\ x1 = 110 /\ y1 = y0 /\ col = 255)
  \/ (x0 = 120 /\ y0 = 0 /\ x1 = 120 /\ y1 = 58 /\ col = 255).
Proof.
  intros HT0.
  rewrite drawBlinds_calls. unfold drawManualController. cbv zeta.
  unfold snd at 1.
  rewrite !in_app_iff. split.
  - intros [[E|[]] | [Hin | [[E|[E|[]]] | [E|[]]]]]; try discriminate.
    + left. apply in_forLoop in Hin as (i & Hi & Hin).
      apply in_drawSlat in Hin as [E|(j & Hj & E)]; inversion E; subst.
      * exists i, 0. repeat split; lia.
      * exists i, (j + 1). repeat split; lia.
    + right. inversion E; subst. repeat split.
  - intros [(i & j & Hi & Hj & -> & -> & -> & -> & ->)
           | (-> & -> & -> & -> & ->)].
    + right; left. apply in_forLoop. exists i. split; [assumption|].
      apply in_drawSlat.
      destruct (Z.eq_dec j 0) as [->|Hne].
      * left. f_equal; lia.
      * right. exists (j - 1). split; [lia|]. f_equal; lia.
    + right; right; left. left. reflexivity.
Qed.

(** One call of [drawBlinds] draws one line per slat and per unit of
    thickness, [currentLift * (1 + currentTilt)] of them, and one more for
    the control wire. *)
Theorem drawBlinds_line_count knob_y st :
  0 <= currentLift st -> 0 <= currentTilt st ->
  Z.of_nat (length (filter isLine (snd (drawBlinds arduinoMap knob_y st))))
  = currentLift st * (1 + currentTilt st) + 1.
Proof.
  intros HL HT. rewrite drawBlinds_calls.
  unfold drawManualController. cbv zeta. unfold snd at 1.
  rewrite !filter_app, !length_app.
  change (length (filter isLine [GlassClear])) with 0%nat.
  change (length (filter isLine [GlassShow])) with 0%nat.
  set (slats := forLoop _ _).
  change (length (filter isLine [DrawLine 120 0 120 58 255;
                                 DrawPicture 120 _ 3 3 0]))
    with 1%nat.
  assert (Hall : filter isLine slats = slats).
  { apply forallb_filter_id. apply forallb_forall. intros c Hc.
    apply in_forLoop in Hc as (i & _ & Hc).
    apply in_drawSlat in Hc as [->|(j & _ & ->)]; reflexivity. }
  rewrite Hall. unfold slats.
  rewrite (length_forLoop _ _ (S (Z.to_nat (currentTilt st)))).
  - nia.
  - intros i. unfold drawSlat.
    destruct (Z.ltb_spec 0 (1 + currentTilt st)); [|lia].
    cbv zeta. change (length (?c :: ?l)) with (S (length l)). f_equal.
    rewrite (length_forLoop _ _ 1%nat) by reflexivity.
    replace (1 + currentTilt st - 1) with (currentTilt st) by lia. lia.
Qed.

(** With both positions inside their bounds every line drawn lies inside
    the 128 x 64 screen. *)
Theorem drawBlinds_lines_on_screen knob_y st :
  MIN_LIFT <= currentLift st <= MAX_LIFT ->
  MIN_TILT <= currentTilt st <= MAX_TILT ->
  Forall lineOnScreen (snd (drawBlinds arduinoMap knob_y st)).
Proof.
  unfold MIN_LIFT, MAX_LIFT, MIN_TILT, MAX_TILT. intros HL HT.
  apply Forall_forall. intros c Hc.
  destruct c as [|x0 y0 x1 y1 col| |]; simpl; auto.
  apply in_drawBlinds_line in Hc
    as [(i & j & Hi & Hj & -> & -> & -> & -> & _) | (-> & -> & -> & -> & _)];
    unfold SCREEN_WIDTH, SCREEN_HEIGHT; lia.
Qed.

(** The slats show the two positions: with a tilt of at most 6, row [r] of
    the screen is drawn as part of a slat exactly when the slat it falls in,
    [r / 7], is one of the first [currentLift] and its offset in that slat,
    [r mod 7], is at most [currentTilt]. *)
Theorem slat_rows_show_positions knob_y st r :
  0 <= currentTilt st <= 6 ->
  In r (slatRows (snd (drawBlinds arduinoMap knob_y st))) <->
  0 <= r /\ r / 7 < currentLift st /\ r mod 7 <= currentTilt st.
Proof.
  intros HT. rewrite in_slatRows. split.
  - intros (y1 & x1 & col & Hin).
    apply in_drawBlinds_line in Hin
      as [(i & j & Hi & Hj & _ & -> & _) | (E & _)];
      [|discriminate|lia].
    lia_div.
  - intros (H0 & Hi & Hj).
    exists r, 110, 255. apply in_drawBlinds_line; [lia|]. left.
    exists (r / 7), (r mod 7). repeat split; lia_div.
Qed.

Lemma NoDup_flat_map_disjoint {A B} (f : A -> list B) (l : list A) :
  NoDup l ->
  (forall a, In a l -> NoDup (f a)) ->
  (forall a b x, In a l -> In b l -> In x (f a) -> In x (f b) -> a = b) ->
  NoDup (flat_map f l).
Proof.
  induction 1 as [|a l Ha Hl IH]; intros Hf Hdis; simpl; [constructor|].
  apply NoDup_app.
  - apply Hf. left; reflexivity.
  - apply IH.
    + intros b Hb. apply Hf. right; assumption.
    + intros b c x Hb Hc. apply Hdis; right; assumption.
  - intros x Hx Hx'. apply in_flat_map in Hx' as (b & Hb & Hxb).
    assert (a = b)
      by (apply (Hdis a b x); [left; reflexivity | right | | ]; assumption).
    subst. contradiction.
Qed.

Lemma slatRows_flat_map {A} (body : A -> list GlassCall) (l : list A) :
  slatRows (flat_map body l) = flat_map (fun i => slatRows (body i)) l.
Proof.
  induction l as [|i l IH]; [reflexivity|].
  simpl. unfold slatRows at 1. rewrite flat_map_app.
  fold (slatRows (body i)). fold (slatRows (flat_map body l)).
  rewrite IH. reflexivity.
Qed.

(** Each screen row of a slat is drawn once: with a tilt of at most 6 the
    slats do not overlap. *)
Theorem slat_rows_drawn_once knob_y st :
  0 <= currentTilt st <= 6 ->
  NoDup (slatRows (snd (drawBlinds arduinoMap knob_y st))).
Proof.
  intros HT. rewrite drawBlinds_calls.
  unfold slatRows at 1. rewrite !flat_map_app.
  fold (slatRows [GlassClear]).
  fold (slatRows (snd (drawManualController arduinoMap knob_y st))).
  fold (slatRows [GlassShow]).
  change (slatRows [GlassClear]) with (@nil Z).
  change (slatRows [GlassShow]) with (@nil Z).
  change (slatRows (snd (drawManualController arduinoMap knob_y st)))
    with (@nil Z).
  rewrite !app_nil_r, app_nil_l.
  match goal with |- NoDup (flat_map ?f ?l) => fold (slatRows l) end.
  unfold forLoop. rewrite slatRows_flat_map.
  apply NoDup_flat_map_disjoint.
  - apply Injective_map_NoDup; [|apply seq_NoDup].
    intros x y. apply Nat2Z.inj.
  - intros i _.
    assert (Hrows : slatRows (drawSlat 10 (0 + i * (6 + 1))
                                       (1 + currentTilt st))
                    = map (fun j => i * 7 + Z.of_nat j)
                          (seq 0 (S (Z.to_nat (currentTilt st))))).
    { unfold drawSlat. destruct (Z.ltb_spec 0 (1 + currentTilt st)); [|lia].
      cbv zeta. unfold forLoop.
      replace (1 + currentTilt st - 1) with (currentTilt st) by lia.
      change (slatRows (?c :: ?l)) with
        ((match c with
          | DrawLine x0 y0 _ _ _ => if x0 =? 10 then [y0] else []
          | _ => []
          end) ++ slatRows l).
      rewrite slatRows_flat_map.
      change (seq 0 (S (Z.to_nat (currentTilt st))))
        with (0%nat :: seq 1 (Z.to_nat (currentTilt st))).
      rewrite <- seq_shift.
      change ((if 10 =? 10 then [0 + i * (6 + 1)] else []) ++ ?l)
        with ((0 + i * (6 + 1)) :: l).
      change (map ?f (0%nat :: ?l)) with (f 0%nat :: map f l).
      cbv beta. f_equal; [lia|].
      induction (seq 0 (Z.to_nat (currentTilt st))) as [|j l IH];
        [reflexivity|].
      change (map Z.of_nat (j :: l)) with (Z.of_nat j :: map Z.of_nat l).
      change (map S (j :: l)) with (S j :: map S l).
      change (flat_map ?f (?x :: ?l')) with (f x ++ flat_map f l').
      change (map ?f (S j :: ?l')) with (f (S j) :: map f l').
      rewrite IH. cbv beta.
      change (slatRows [DrawLine 10 ?y ?a ?b ?c]) with [y].
      change ([?y] ++ ?l') with (y :: l').
      f_equal. lia. }
    cbv beta. rewrite Hrows. apply Injective_map_NoDup; [|apply seq_NoDup].
    intros x y. lia.
  - intros a b x _ _ Ha Hb.
    apply in_slatRows in Ha as (y1 & x1 & c1 & Ha).
    apply in_slatRows in Hb as (y2 & x2 & c2 & Hb).
    apply in_drawSlat in Ha as [Ea|(ja & Hja & Ea)];
      apply in_drawSlat in Hb as [Eb|(jb & Hjb & Eb)];
      inversion Ea; inversion Eb; lia.
Qed.

(** What [drawBlinds] draws depends on the two positions only: the value
    left in the static variable of [drawManualController] by earlier calls
    plays no part, and the variable ends as the mapped Lift position. *)
Theorem drawBlinds_depends_on_positions_only k1 k2 st1 st2 :
  currentLift st1 = currentLift st2 ->
  currentTilt st1 = currentTilt st2 ->
  drawBlinds arduinoMap k1 st1 = drawBlinds arduinoMap k2 st2 /\
  fst (drawBlinds arduinoMap k1 st1)
  = arduinoMap (currentLift st1) 0 MAX_LIFT 0 50.
Proof.
  intros HL HT.
  assert (Hk : forall k n, (if negb (k =? n) then n else k) = n).
  { intros k n. destruct (Z.eqb_spec k n); simpl; congruence. }
  unfold drawBlinds, drawManualController. cbv beta iota zeta.
  rewrite !Hk, HL, HT. split; reflexivity.
Qed.

End Drawing.

Lemma drawBlinds_line_count_witness :
  Z.of_nat (length (filter isLine (snd (drawBlinds linearMap 0 initial))))
  = 55.
Proof.
  apply (drawBlinds_line_count linearMap 0 initial); vm_compute; discriminate.
Defined.

Lemma drawBlinds_lines_on_screen_witness :
  Forall lineOnScreen (snd (drawBlinds linearMap 0 initial)).
Proof.
  apply (drawBlinds_lines_on_screen linearMap 0 initial);
    vm_compute; split; discriminate.
Defined.

Lemma slat_rows_show_positions_witness :
  In 61 (slatRows (snd (drawBlinds linearMap 0 initial))) <->
  0 <= 61 /\ 61 / 7 < currentLift initial /\ 61 mod 7 <= currentTilt initial.
Proof.
  apply (slat_rows_show_positions linearMap 0 initial 61). vm_compute.
  split; discriminate.
Defined.

Lemma slat_rows_drawn_once_witness :
  NoDup (slatRows (snd (drawBlinds linearMap 0 initial))).
Proof.
  apply (slat_rows_drawn_once linearMap 0 initial). vm_compute.
  split; discriminate.
Defined.

Lemma drawBlinds_depends_on_positions_only_witness :
  drawBlinds linearMap 0 initial
  = drawBlinds linearMap 50 (set_nextLift 3 initial) /\
  fst (drawBlinds linearMap 0 initial)
  = linearMap (currentLift initial) 0 MAX_LIFT 0 50.
Proof.
  apply (drawBlinds_depends_on_positions_only linearMap 0 50 initial
           (set_nextLift 3 initial)); reflexivity.
Defined.

End DisplayProofs.

(** * The vibration sensor sketch: proofs *)

Module Demo2Proofs.

Import Demo2.

Lemma reports_app tr1 tr2 : reports (tr1 ++ tr2) = reports tr1 ++ reports tr2.
Proof.
  induction tr1 as [|e tr1 IH]; [reflexivity|].
  destruct e; simpl; rewrite ?IH; reflexivity.
Qed.

Lemma totalDelay_app tr1 tr2 :
  totalDelay (tr1 ++ tr2) = totalDelay tr1 + totalDelay tr2.
Proof.
  induction tr1 as [|e tr1 IH]; [reflexivity|].
  destruct e; simpl; rewrite ?IH; lia.
Qed.

Lemma checkButton_trace b :
  reports (snd (checkButton b)) = [] /\ 0 <= totalDelay (snd (checkButton b)).
Proof.
  assert (H : forall n, reports (repeat (Delay 50) n) = [] /\
                        0 <= totalDelay (repeat (Delay 50) n)).
  { induction n as [|n [IH1 IH2]];
      cbn [repeat reports totalDelay]; split; auto; lia. }
  destruct b as [|n|n]; cbn [checkButton snd reports totalDelay].
  - split; [reflexivity|lia].
  - destruct (H n); split; [assumption|lia].
  - rewrite reports_app, totalDelay_app. destruct (H n) as [-> H2].
    cbn [reports totalDelay app]. split; [reflexivity|lia].
Qed.

Lemma last_any_default {A} (l : list A) (d d' : A) :
  l <> [] -> last l d = last l d'.
Proof.
  induction l as [|x l IH]; intros H; [contradiction|].
  destruct l as [|y l]; [reflexivity|].
  change (last (y :: l) d = last (y :: l) d'). apply IH. discriminate.
Qed.

(** What one iteration does to the latch and to the reports. *)
Lemma loop_reports inp sensed :
  let r := loop inp sensed in
  (reports (snd r) = [] /\ (forall s', fst r = Some s' -> s' = sensed)
   \/ reports (snd r) = [negb sensed] /\
      (forall s', fst r = Some s' -> s' = negb sensed)) /\
  2000 * countOf true (reports (snd r))
  + 500 * countOf false (reports (snd r)) <= totalDelay (snd r).
Proof.
  unfold loop, sense.
  pose proof (checkButton_trace (button inp)) as [Hb1 Hb2].
  destruct (checkButton (button inp)) as [reset tr2];
    cbn [snd] in Hb1, Hb2.
  destruct (pinFirst inp), (pinSecond inp), sensed, reset;
    cbn [andb negb fst snd app];
    rewrite ?reports_app, ?totalDelay_app, ?Hb1;
    cbn [reports totalDelay app fst snd negb];
    rewrite ?reports_app, ?totalDelay_app, ?Hb1;
    cbn [reports totalDelay app];
    (split; [ (left; split; [reflexivity | intros s' E; congruence])
              || (right; split; [reflexivity | intros s' E; congruence])
            | unfold countOf;
              cbn [filter Bool.eqb length Z.of_nat]; lia ]).
Qed.

(** The endpoint is told of changes only: over any sequence of iterations
    the reported states alternate, beginning with the opposite of the
    latch, and the latch ends as the last state reported. *)
Theorem reports_alternate inps : forall sensed,
  alternating (negb sensed) (reports (snd (run inps sensed))) /\
  (forall s', fst (run inps sensed) = Some s' ->
              s' = last (reports (snd (run inps sensed))) sensed).
Proof.
  induction inps as [|inp rest IH]; intros sensed.
  - simpl. split; [exact I | intros s' E; congruence].
  - simpl. pose proof (loop_reports inp sensed) as [Hl _].
    destruct (loop inp sensed) as [[s1|] tr1]; simpl in Hl.
    + specialize (IH s1).
      destruct (run rest s1) as [r tr']; simpl in IH |- *.
      rewrite reports_app.
      destruct Hl as [[-> Hs] | [-> Hs]]; specialize (Hs s1 eq_refl); subst s1.
      * exact IH.
      * simpl. destruct IH as [IH1 IH2]. split; [split; [reflexivity|]|].
        -- exact IH1.
        -- intros s' E. rewrite (IH2 s' E).
           destruct (reports tr') as [|b l]; [reflexivity|].
           change (last (negb sensed :: b :: l) sensed)
             with (last (b :: l) sensed).
           apply last_any_default. discriminate.
    + simpl. split; [|intros s' E; discriminate].
      destruct Hl as [[-> _] | [-> _]]; simpl; auto.
Qed.

Lemma countOf_app b l1 l2 : countOf b (l1 ++ l2) = countOf b l1 + countOf b l2.
Proof. unfold countOf. rewrite filter_app, length_app. lia. Qed.

(** The sketch waits two seconds after each vibration it reports and half a
    second after each end of vibration: over any sequence of iterations the
    time spent in [delay] is at least that. *)
Theorem reports_are_spaced inps : forall sensed,
  2000 * countOf true (reports (snd (run inps sensed)))
  + 500 * countOf false (reports (snd (run inps sensed)))
  <= totalDelay (snd (run inps sensed)).
Proof.
  induction inps as [|inp rest IH]; intros sensed.
  - cbn. lia.
  - cbn [run]. pose proof (loop_reports inp sensed) as [_ Hd].
    destruct (loop inp sensed) as [[s1|] tr1]; cbn [snd] in Hd.
    + specialize (IH s1).
      destruct (run rest s1) as [r tr']; cbn [snd] in IH |- *.
      rewrite reports_app, totalDelay_app, !countOf_app. lia.
    + cbn [snd]. exact Hd.
Qed.

End Demo2Proofs.

(** * The sensor initialisation of the CO2 sketch: proofs *)

Module Demo3SetupProofs.

Import Demo3Setup.

(** The two words [PrintUint64] prints are the upper and the lower half of
    the value: each fits 32 bits and together they give the value back. *)
Theorem PrintUint64_words value :
  0 <= value < 2 ^ 64 ->
  exists hi lo,
    hexWords (PrintUint64 value) = [hi; lo] /\
    0 <= hi < 2 ^ 32 /\ 0 <= lo < 2 ^ 32 /\
    hi * 2 ^ 32 + lo = value.
Proof.
  intros Hv. unfold PrintUint64, to_uint32. simpl hexWords.
  rewrite Z.shiftr_div_pow2 by lia.
  change 4294967295 with (Z.ones 32). rewrite Z.land_ones by lia.
  change 4294967296 with (2 ^ 32).
  rewrite (Z.mod_small (value / 2 ^ 32)), Zmod_mod.
  - eexists _, _. split; [reflexivity|].
    change (2 ^ 32) with 4294967296 in *.
    change (2 ^ 64) with 18446744073709551616 in *.
    repeat split; Z.to_euclidean_division_equations; lia.
  - change (2 ^ 32) with 4294967296 in *.
    change (2 ^ 64) with 18446744073709551616 in *.
    Z.to_euclidean_division_equations; lia.
Qed.

Lemma PrintUint64_words_witness :
  exists hi lo,
    hexWords (PrintUint64 4294967298) = [hi; lo] /\
    0 <= hi < 2 ^ 32 /\ 0 <= lo < 2 ^ 32 /\
    hi * 2 ^ 32 + lo = 4294967298.
Proof. apply (PrintUint64_words 4294967298). lia. Defined.

Section Init.

Context {Sensor : Type}.
Variable sensor : InitDriver Sensor.

Lemma errorsPrinted_report c e tr :
  errorsPrinted (report c e ++ tr)
  = (if negb (e =? 0) then [(c, e)] else []) ++ errorsPrinted tr.
Proof. unfold report. destruct (negb (e =? 0)); reflexivity. Qed.

Lemma commandsSent_report c e tr :
  commandsSent (report c e ++ tr) = commandsSent tr.
Proof. unfold report. destruct (negb (e =? 0)); reflexivity. Qed.

Lemma hexWords_report c e tr : hexWords (report c e ++ tr) = hexWords tr.
Proof. unfold report. destruct (negb (e =? 0)); reflexivity. Qed.

(** [sensorInit] does not stop at a failing command: whatever the sensor
    answers, the four commands are sent in order, one message is printed
    for each that returned a nonzero code, the global [error] is left as
    the code of the last command, and the serial number is printed exactly
    when that last command succeeded. *)
Theorem sensorInit_sends_every_command (s : Sensor) :
  let '(_, error, tr) := sensorInit sensor s in
  commandsSent tr = [WakeUp; StopPeriodicMeasurement; Reinit; GetSerialNumber]
  /\ errorsPrinted tr
     = filter (fun ce => negb (snd ce =? 0)) (initCodes sensor s)
  /\ Some (GetSerialNumber, error) = nth_error (initCodes sensor s) 3
  /\ (hexWords tr <> [] <-> error = 0).
Proof.
  unfold sensorInit, initCodes.
  destruct (wakeUp sensor s) as [e1 s1].
  destruct (stopPeriodicMeasurement sensor s1) as [e2 s2].
  destruct (reinit sensor s2) as [e3 s3].
  destruct (getSerialNumber sensor s3 0) as [[e4 serial] s4].
  cbv zeta.
  change ([Delay 30] ++ ?l) with (Delay 30 :: l).
  split; [|split; [|split]].
  - simpl commandsSent.
    rewrite !commandsSent_report. simpl. f_equal.
    rewrite !commandsSent_report. simpl. f_equal.
    rewrite !commandsSent_report. simpl. f_equal.
    destruct (negb (e4 =? 0)); reflexivity.
  - simpl errorsPrinted. rewrite errorsPrinted_report. simpl errorsPrinted.
    rewrite errorsPrinted_report. simpl errorsPrinted.
    rewrite errorsPrinted_report. simpl errorsPrinted.
    simpl filter.
    destruct (negb (e1 =? 0)), (negb (e2 =? 0)), (negb (e3 =? 0)),
      (negb (e4 =? 0)); reflexivity.
  - reflexivity.
  - simpl hexWords. rewrite hexWords_report. simpl hexWords.
    rewrite hexWords_report. simpl hexWords.
    rewrite hexWords_report. simpl hexWords.
    destruct (Z.eqb_spec e4 0) as [E|E]; simpl.
    + split; [intros _; assumption | intros _; discriminate].
    + split; [intros H; contradiction | intros H; contradiction].
Qed.

End Init.

End Demo3SetupProofs.

(** * The measurement cycle: when the endpoints are updated *)

Module Demo3CycleProofs.

Import Demo3.

Section Cycle.

Context {float : Type} (fzero : float) {Sensor : Type}.
Variable sensor : Driver float Sensor.


End Cycle.

End Demo3CycleProofs.
